(** * master_hospital_DB: entity-resolution pipeline

    A shallow embedding of the normalisation, identifier issuing, matching,
    merging and reflection code of the repository, followed by the
    properties of its specification.

    Python strings are sequences of Unicode code points; they are modelled
    as lists of integers, and literals are written in UTF-8 and decoded. *)

From Stdlib Require Import String Ascii ZArith QArith Qround List Bool Lia FMapPositive.
Import ListNotations.
Open Scope Z_scope.

(* ===================================================================== *)
(** * Python primitives *)
(* ===================================================================== *)

Module Py.

(** A string is a list of code points. *)
Definition str := list Z.

Definition bytes_of (s : string) : list Z :=
  map (fun a => Z.of_N (N_of_ascii a)) (list_ascii_of_string s).

(** UTF-8 decoding of a source literal (1 to 4 byte sequences). *)
Fixpoint utf8_decode (bs : list Z) : str :=
  match bs with
  | [] => []
  | b :: r =>
    if b <? 128 then b :: utf8_decode r
    else if b <? 224 then
      match r with
      | b1 :: r1 => ((b - 192) * 64 + (b1 - 128)) :: utf8_decode r1
      | _ => []
      end
    else if b <? 240 then
      match r with
      | b1 :: b2 :: r2 =>
        ((b - 224) * 4096 + (b1 - 128) * 64 + (b2 - 128)) :: utf8_decode r2
      | _ => []
      end
    else
      match r with
      | b1 :: b2 :: b3 :: r3 =>
        ((b - 240) * 262144 + (b1 - 128) * 4096 + (b2 - 128) * 64 + (b3 - 128))
          :: utf8_decode r3
      | _ => []
      end
  end.

Definition u (s : string) : str := utf8_decode (bytes_of s).

(** The single code point of a one-character literal. *)
Definition ch (s : string) : Z := hd 0 (u s).

Fixpoint str_eqb (a b : str) : bool :=
  match a, b with
  | [], [] => true
  | x :: a', y :: b' => (x =? y) && str_eqb a' b'
  | _, _ => false
  end.

Definition len (s : str) : Z := Z.of_nat (length s).

(** [c in s] for a character. *)
Definition mem (c : Z) (s : str) : bool := existsb (Z.eqb c) s.

(** [x in xs] for a list of strings. *)
Definition str_in (x : str) (xs : list str) : bool := existsb (str_eqb x) xs.

(** [s.startswith(p)].  *)
Fixpoint starts_with (p s : str) : bool :=
  match p, s with
  | [], _ => true
  | x :: p', y :: s' => (x =? y) && starts_with p' s'
  | _ :: _, [] => false
  end.

(** [p in s] for strings. *)
Fixpoint contains (p s : str) : bool :=
  starts_with p s ||
  match s with
  | [] => false
  | _ :: s' => contains p s'
  end.

(** [s.replace(old, "")] for a non-empty [old]: leftmost, non-overlapping
    occurrences are removed in one left-to-right scan.  [skip] counts the
    characters of the occurrence being dropped. *)
Fixpoint remove_scan (old : str) (skip : nat) (s : str) : str :=
  match s with
  | [] => []
  | c :: s' =>
    match skip with
    | S k => remove_scan old k s'
    | O =>
      if starts_with old s
      then remove_scan old (pred (length old)) s'
      else c :: remove_scan old O s'
    end
  end.

Definition remove_all (old s : str) : str :=
  match old with
  | [] => s
  | _ => remove_scan old O s
  end.

(** [s[:n]] and [s[n:]] for [n >= 0]. *)
Definition take (n : nat) (s : str) : str := firstn n s.
Definition drop (n : nat) (s : str) : str := skipn n s.

(** [s.zfill(width)] for a string without a sign. *)
Definition zfill (width : nat) (s : str) : str :=
  repeat (ch "0") (width - length s) ++ s.

(** [str.translate] with a per-character table. *)
Definition translate (f : Z -> Z) (s : str) : str := map f s.

(** ASCII decimal digits. *)
Definition digit_char (d : Z) : Z := 48 + d.

(** [str(n)] for an integer. *)
Fixpoint dec_digits (fuel : nat) (n : Z) (acc : str) : str :=
  match fuel with
  | O => acc
  | S f =>
    let acc' := digit_char (n mod 10) :: acc in
    if n / 10 =? 0 then acc' else dec_digits f (n / 10) acc'
  end.

Definition str_of_nonneg (n : Z) : str :=
  dec_digits (S (Z.to_nat (Z.log2 n))) n [].

Definition str_of_int (n : Z) : str :=
  if n <? 0 then ch "-" :: str_of_nonneg (- n) else str_of_nonneg n.

End Py.

Import Py.

(* ===================================================================== *)
(** * The hashids library (hashids-python), as used by [generate_id] *)
(* ===================================================================== *)

Module Hashids.

Definition nth_char (s : str) (i : Z) : Z := nth (Z.to_nat i) s 0.

Fixpoint set_nth (s : str) (i : nat) (c : Z) : str :=
  match s, i with
  | [], _ => []
  | _ :: s', O => c :: s'
  | x :: s', S i' => x :: set_nth s' i' c
  end.

(** [string[i], string[j] = string[j], string[i]] *)
Definition swap (s : str) (i j : Z) : str :=
  let a := nth_char s i in
  let b := nth_char s j in
  set_nth (set_nth s (Z.to_nat i) b) (Z.to_nat j) a.

(** The loop of [_reorder]: [i] runs from [len(string) - 1] down to 1. *)
Fixpoint reorder_loop (n : nat) (salt s : str) (index integer_sum : Z) : str :=
  match n with
  | O => s
  | S n' =>
    let i := Z.of_nat n in
    let integer := nth_char salt index in
    let integer_sum' := integer_sum + integer in
    let j := (integer + index + integer_sum') mod i in
    reorder_loop n' salt (swap s i j) ((index + 1) mod len salt) integer_sum'
  end.

Definition _reorder (s salt : str) : str :=
  match salt with
  | [] => s
  | _ => reorder_loop (pred (length s)) salt s 0 0
  end.

(** [_hash]: the digits of [number] in the alphabet's base, most
    significant first.  The loop divides by the alphabet length until the
    number is zero; [None] when the fuel does not suffice. *)
Fixpoint hash_loop (fuel : nat) (number : Z) (alphabet hashed : str) : option str :=
  match fuel with
  | O => None
  | S f =>
    let hashed' := nth_char alphabet (number mod len alphabet) :: hashed in
    let number' := number / len alphabet in
    if number' =? 0 then Some hashed' else hash_loop f number' alphabet hashed'
  end.

Definition _hash (number : Z) (alphabet : str) : option str :=
  hash_loop (S (Z.to_nat (Z.log2 number))) number alphabet [].

(** [int(ceil(float(dividend) / divisor))] for the two ratios in use:
    3.5 = 7/2 and 12. *)
Definition ceil_div (a b : Z) : Z := (a + b - 1) / b.
Definition index_from_ratio_separators (n : Z) : Z := ceil_div (2 * n) 7.
Definition index_from_ratio_guards (n : Z) : Z := ceil_div n 12.

Record hashids := mk_hashids {
  h_salt : str;
  h_min_length : Z;
  h_alphabet : str;
  h_separators : str;
  h_guards : str
}.

(** Characters of the alphabet at their first occurrence. *)
Fixpoint first_occurrences (seen s : str) : str :=
  match s with
  | [] => []
  | c :: s' =>
    if mem c seen then first_occurrences seen s'
    else c :: first_occurrences (c :: seen) s'
  end.

(** [Hashids.__init__]; [None] stands for the [ValueError] on a short
    alphabet. *)
Definition init (salt : str) (min_length : Z) (alphabet0 : str) : option hashids :=
  let separators0 := filter (fun x => mem x alphabet0) (u "cfhistuCFHISTU") in
  let alphabet1 :=
    filter (fun x => negb (mem x separators0)) (first_occurrences [] alphabet0) in
  if len alphabet1 + len separators0 <? 16 then None
  else
    let separators1 := _reorder separators0 salt in
    let min_separators := index_from_ratio_separators (len alphabet1) in
    let missing := min_separators - len separators1 in
    let '(separators2, alphabet2) :=
      if 0 <? missing
      then (separators1 ++ take (Z.to_nat missing) alphabet1,
            drop (Z.to_nat missing) alphabet1)
      else (separators1, alphabet1) in
    let alphabet3 := _reorder alphabet2 salt in
    let num_guards := index_from_ratio_guards (len alphabet3) in
    let '(guards, separators3, alphabet4) :=
      if len alphabet3 <? 3
      then (take (Z.to_nat num_guards) separators2,
            drop (Z.to_nat num_guards) separators2, alphabet3)
      else (take (Z.to_nat num_guards) alphabet3, separators2,
            drop (Z.to_nat num_guards) alphabet3) in
    Some (mk_hashids salt (Z.max min_length 0) alphabet4 separators3 guards).

(** The padding loop of [_ensure_length]. *)
Fixpoint ensure_loop (fuel : nat) (min_length : Z) (alphabet encoded : str) : str :=
  match fuel with
  | O => encoded
  | S f =>
    if len encoded <? min_length then
      let alphabet' := _reorder alphabet alphabet in
      let split_at := Z.to_nat (len alphabet' / 2) in
      let encoded1 := drop split_at alphabet' ++ encoded ++ take split_at alphabet' in
      let excess := len encoded1 - min_length in
      let encoded2 :=
        if 0 <? excess
        then take (Z.to_nat min_length) (drop (Z.to_nat (excess / 2)) encoded1)
        else encoded1 in
      ensure_loop f min_length alphabet' encoded2
    else encoded
  end.

Definition _ensure_length (encoded : str) (min_length : Z)
    (alphabet guards : str) (values_hash : Z) : str :=
  let len_guards := len guards in
  let guard_index := (values_hash + nth_char encoded 0) mod len_guards in
  let encoded1 := nth_char guards guard_index :: encoded in
  let encoded2 :=
    if len encoded1 <? min_length
    then encoded1 ++
         [nth_char guards ((values_hash + nth_char encoded1 2) mod len_guards)]
    else encoded1 in
  ensure_loop (Z.to_nat min_length) min_length alphabet encoded2.

(** [_encode] for the one-element tuple [(value,)], which is how
    [generate_id] calls it: the loop body runs once with [i = 0], appends a
    separator, and the last separator is cut off again. *)
Definition encode1 (h : hashids) (value : Z) : option str :=
  let alphabet := h_alphabet h in
  let len_alphabet := length alphabet in
  let values_hash := value mod 100 in
  let lottery := nth_char alphabet (values_hash mod len alphabet) in
  let alphabet_salt := take len_alphabet (lottery :: h_salt h ++ alphabet) in
  let alphabet' := _reorder alphabet alphabet_salt in
  match _hash value alphabet' with
  | None => None
  | Some last =>
    let value' := value mod (nth_char last 0 + 0) in
    let separator := nth_char (h_separators h) (value' mod len (h_separators h)) in
    let encoded := removelast ((lottery :: last) ++ [separator]) in
    Some (if h_min_length h <=? len encoded then encoded
          else _ensure_length encoded (h_min_length h) alphabet'
                 (h_guards h) values_hash)
  end.

(** [Hashids.encode(value)]: the empty string for a negative number. *)
Definition encode (h : hashids) (value : Z) : option str :=
  if value <? 0 then Some [] else encode1 h value.

End Hashids.

(* ===================================================================== *)
(** * Unicode character properties (CPython 3.11, Unicode 14.0) *)
(* ===================================================================== *)

Module Unicode.

Definition in_range (lo hi c : Z) : bool := (lo <=? c) && (c <=? hi).

(** [str.isspace] for one character; the same set is matched by [\s] in a
    [str] pattern and removed at both ends by [str.strip()]. *)
Definition isspace (c : Z) : bool :=
  in_range 9 13 c || in_range 28 32 c || (c =? 133) || (c =? 160) ||
  (c =? 5760) || in_range 8192 8202 c || in_range 8232 8233 c ||
  (c =? 8239) || (c =? 8287) || (c =? 12288).

(** First code points of the decimal-digit blocks (category Nd); every
    block holds the ten digits 0..9 in order. *)
Definition decimal_blocks : list Z :=
  [48; 1632; 1776; 1984; 2406; 2534; 2662; 2790; 2918; 3046; 3174; 3302;
   3430; 3558; 3664; 3792; 3872; 4160; 4240; 6112; 6160; 6470; 6608; 6784;
   6800; 6992; 7088; 7232; 7248; 42528; 43216; 43264; 43472; 43504; 43600;
   44016; 65296; 66720; 68912; 69734; 69872; 69942; 70096; 70384; 70736;
   70864; 71248; 71360; 71472; 71904; 72016; 72784; 73040; 73120; 92768;
   92864; 93008; 120782; 120792; 120802; 120812; 120822; 123200; 123632;
   125264; 130032].

(** [\d] in a [str] pattern, and [str.isdecimal]. *)
Definition isdecimal (c : Z) : bool :=
  existsb (fun b => in_range b (b + 9) c) decimal_blocks.

(** The digit a decimal character stands for, as [int()] reads it. *)
Definition decimal_value (c : Z) : Z :=
  fold_right (fun b acc => if in_range b (b + 9) c then c - b else acc)
             0 decimal_blocks.

(** Characters with the Digit property that are not decimal (superscripts,
    circled digits and the like): accepted by [str.isdigit], refused by
    [int()]. *)
Definition other_digit_ranges : list (Z * Z) :=
  [(178, 179); (185, 185); (4969, 4977); (6618, 6618); (8304, 8304);
   (8308, 8313); (8320, 8329); (9312, 9320); (9332, 9340); (9352, 9360);
   (9450, 9450); (9461, 9469); (9471, 9471); (10102, 10110);
   (10112, 10120); (10122, 10130); (68160, 68163); (69216, 69224);
   (69714, 69722); (127232, 127242)].

Definition isdigit_char (c : Z) : bool :=
  isdecimal c || existsb (fun r => in_range (fst r) (snd r) c) other_digit_ranges.

(** [s.isdigit()]: non-empty and every character a digit. *)
Definition isdigit (s : str) : bool :=
  match s with
  | [] => false
  | _ => forallb isdigit_char s
  end.

Fixpoint lstrip (s : str) : str :=
  match s with
  | [] => []
  | c :: s' => if isspace c then lstrip s' else s
  end.

Definition rstrip (s : str) : str := rev (lstrip (rev s)).

(** [s.strip()] *)
Definition strip (s : str) : str := rstrip (lstrip s).

(** [re.sub(r"[^\d]", "", s)] *)
Definition digits_only (s : str) : str := filter isdecimal s.

End Unicode.

Import Unicode.

(* ===================================================================== *)
(** * The mojimoji library: width conversion tables *)
(* ===================================================================== *)

Module Mojimoji.

Definition ASCII_ZENKAKU_CHARS : str :=
  u "ａｂｃｄｅｆｇｈｉｊｋｌｍｎｏｐｑｒｓｔｕｖｗｘｙｚＡＢＣＤＥＦＧＨＩＪＫＬＭＮＯＰＱＲＳＴＵＶＷＸＹＺ！”＃＄％＆’（）＊＋，－．／：；＜＝＞？＠［￥］＾＿‘｛｜｝～　".

Definition ASCII_HANKAKU_CHARS : str :=
  u "abcdefghijklmnopqrstuvwxyzABCDEFGHIJKLMNOPQRSTUVWXYZ!" ++ [34] ++
  u "#$%&'()*+,-./:;<=>?@[¥]^_`{|}~ ".

Definition KANA_ZENKAKU_CHARS : str :=
  u "アイウエオカキクケコサシスセソタチツテトナニヌネノハヒフヘホマミムメモヤユヨラリルレロワヲンァィゥェォッャュョ。、・゛゜「」ー".

Definition KANA_HANKAKU_CHARS : str :=
  u "ｱｲｳｴｵｶｷｸｹｺｻｼｽｾｿﾀﾁﾂﾃﾄﾅﾆﾇﾈﾉﾊﾋﾌﾍﾎﾏﾐﾑﾒﾓﾔﾕﾖﾗﾘﾙﾚﾛﾜｦﾝｧｨｩｪｫｯｬｭｮ｡､･ﾞﾟ｢｣ｰ".

Definition DIGIT_ZENKAKU_CHARS : str := u "０１２３４５６７８９".
Definition DIGIT_HANKAKU_CHARS : str := u "0123456789".

(** Voiced and semi-voiced kana with the half-width base they decompose to. *)
Definition KANA_TEN_ZENKAKU : str := u "ガギグゲゴザジズゼゾダヂヅデドバビブベボヴ".
Definition KANA_TEN_HANKAKU : str := u "ｶｷｸｹｺｻｼｽｾｿﾀﾁﾂﾃﾄﾊﾋﾌﾍﾎｳ".
Definition KANA_MARU_ZENKAKU : str := u "パピプペポ".
Definition KANA_MARU_HANKAKU : str := u "ﾊﾋﾌﾍﾎ".

Definition TEN : Z := ch "ﾞ".
Definition MARU : Z := ch "ﾟ".

(** Table lookup: the partner of [c] when [c] is among [keys]. *)
Fixpoint lookup (keys vals : str) (c : Z) : option Z :=
  match keys, vals with
  | k :: keys', v :: vals' => if c =? k then Some v else lookup keys' vals' c
  | _, _ => None
  end.

Definition zen_to_han_char (ascii digit kana : bool) (c : Z) : str :=
  match (if ascii then lookup ASCII_ZENKAKU_CHARS ASCII_HANKAKU_CHARS c else None) with
  | Some h => [h]
  | None =>
  match (if digit then lookup DIGIT_ZENKAKU_CHARS DIGIT_HANKAKU_CHARS c else None) with
  | Some h => [h]
  | None =>
  match (if kana then lookup KANA_ZENKAKU_CHARS KANA_HANKAKU_CHARS c else None) with
  | Some h => [h]
  | None =>
  match (if kana then lookup KANA_TEN_ZENKAKU KANA_TEN_HANKAKU c else None) with
  | Some h => [h; TEN]
  | None =>
  match (if kana then lookup KANA_MARU_ZENKAKU KANA_MARU_HANKAKU c else None) with
  | Some h => [h; MARU]
  | None => [c]
  end end end end end.

(** [mojimoji.zen_to_han(text, ascii, digit, kana)] *)
Definition zen_to_han (ascii digit kana : bool) (text : str) : str :=
  flat_map (zen_to_han_char ascii digit kana) text.

(** [mojimoji.han_to_zen(text, ascii, digit, kana)]: one pass; a voicing
    mark directly after a half-width kana that takes it merges with the
    character already written. [prev] is the previous input character and
    [out] the output so far, last character first. *)
Fixpoint han_to_zen_loop (ascii digit kana : bool) (prev : option Z)
    (out : str) (text : str) : str :=
  match text with
  | [] => rev out
  | c :: text' =>
    let merged :=
      if kana then
        match prev with
        | Some p =>
          if c =? TEN then lookup KANA_TEN_HANKAKU KANA_TEN_ZENKAKU p
          else if c =? MARU then lookup KANA_MARU_HANKAKU KANA_MARU_ZENKAKU p
          else None
        | None => None
        end
      else None in
    let out' :=
      match merged with
      | Some z => z :: tl out
      | None =>
        match (if ascii then lookup ASCII_HANKAKU_CHARS ASCII_ZENKAKU_CHARS c else None) with
        | Some z => z :: out
        | None =>
        match (if digit then lookup DIGIT_HANKAKU_CHARS DIGIT_ZENKAKU_CHARS c else None) with
        | Some z => z :: out
        | None =>
        match (if kana then lookup KANA_HANKAKU_CHARS KANA_ZENKAKU_CHARS c else None) with
        | Some z => z :: out
        | None => c :: out
        end end end
      end in
    han_to_zen_loop ascii digit kana (Some c) out' text'
  end.

Definition han_to_zen (ascii digit kana : bool) (text : str) : str :=
  han_to_zen_loop ascii digit kana None [] text.

End Mojimoji.

(* ===================================================================== *)
(** * Cell values, rows and data frames *)
(* ===================================================================== *)

Module Pandas.

Record date := mk_date { year : Z; month : Z; day : Z }.

(** A cell as [pandas.read_excel] delivers it.  [VNaN] is the missing cell
    ([pandas.isna] holds); a float is a finite, non-NaN number, kept as the
    rational it denotes; a date cell carries its civil date. *)
Inductive value :=
| VNaN
| VStr (s : str)
| VInt (n : Z)
| VFloat (q : Q)
| VDate (d : date).

(** What the Python runtime and pandas contribute beyond the tables above:
    case mapping of the Unicode database, the textual form of floats and
    timestamps, and the free-text date parser ([None] when it raises or
    yields no timestamp). *)
Class Platform := {
  lower : str -> str;
  upper : str -> str;
  float_repr : Q -> str;
  datetime_repr : date -> str;
  to_datetime : str -> option date
}.

Definition isna (v : value) : bool :=
  match v with VNaN => true | _ => false end.

Definition notna (v : value) : bool := negb (isna v).

(** [str(val)] *)
Definition py_str `{Platform} (v : value) : str :=
  match v with
  | VNaN => u "nan"
  | VStr s => s
  | VInt n => str_of_int n
  | VFloat q => float_repr q
  | VDate d => datetime_repr d
  end.

(** [isinstance(val, (int, float))] *)
Definition is_number (v : value) : bool :=
  match v with VInt _ | VFloat _ => true | _ => false end.

(** [int(val)] for a number: truncation toward zero. *)
Definition Qtrunc (q : Q) : Z :=
  if Qle_bool 0 q then Qfloor q else Qceiling q.

(** The value as a rational, for numbers. *)
Definition as_Q (v : value) : option Q :=
  match v with
  | VInt n => Some (inject_Z n)
  | VFloat q => Some q
  | _ => None
  end.

Definition date_eqb (a b : date) : bool :=
  (year a =? year b) && (month a =? month b) && (day a =? day b).

(** Equality of cells as keys of [drop_duplicates] and [merge]: missing
    cells are equal to each other, numbers compare by value. *)
Definition value_eqb (a b : value) : bool :=
  match a, b with
  | VNaN, VNaN => true
  | VStr x, VStr y => str_eqb x y
  | VDate x, VDate y => date_eqb x y
  | VNaN, _ | _, VNaN => false
  | VStr _, _ | _, VStr _ => false
  | VDate _, _ | _, VDate _ => false
  | x, y =>
    match as_Q x, as_Q y with
    | Some p, Some q => Qeq_bool p q
    | _, _ => false
    end
  end.

(** A row maps column names to cells; a frame keeps its column names
    next to its rows. *)
Definition row := list (str * value).

Fixpoint get (col : str) (r : row) : option value :=
  match r with
  | [] => None
  | (k, v) :: r' => if str_eqb k col then Some v else get col r'
  end.

(** [row[col]], reading a cell the row lacks as missing (what [concat]
    fills in for a column the source frame did not have). *)
Definition cell (col : str) (r : row) : value :=
  match get col r with Some v => v | None => VNaN end.

(** [row.get(col, default)] *)
Definition get_default (col : str) (default : value) (r : row) : value :=
  match get col r with Some v => v | None => default end.

(** [row[col] = v]: replace the cell, or add the column at the end. *)
Fixpoint set (col : str) (v : value) (r : row) : row :=
  match r with
  | [] => [(col, v)]
  | (k, w) :: r' => if str_eqb k col then (k, v) :: r' else (k, w) :: set col v r'
  end.

Definition drop_col (col : str) (r : row) : row :=
  filter (fun kv => negb (str_eqb (fst kv) col)) r.

Record frame := mk_frame { columns : list str; rows : list row }.

Definition empty_frame : frame := mk_frame [] [].

(** [len(df)] *)
Definition nrows (df : frame) : nat := length (rows df).

(** [df[col].apply(f)] written back to the same column. *)
Definition apply_col (col : str) (f : value -> value) (rs : list row) : list row :=
  map (fun r => set col (f (cell col r)) r) rs.

(** Union of column names in order of first appearance, as [concat] forms
    it. *)
Definition union_columns (a b : list str) : list str :=
  a ++ filter (fun c => negb (str_in c a)) b.

(** [pd.concat([a, b], ignore_index=True)] *)
Definition concat (a b : frame) : frame :=
  mk_frame (union_columns (columns a) (columns b)) (rows a ++ rows b).

(** [drop_duplicates(subset=keys, keep='last')]: a row stays when no later
    row agrees with it on every key column. *)
Definition same_key (keys : list str) (a b : row) : bool :=
  forallb (fun k => value_eqb (cell k a) (cell k b)) keys.

Fixpoint drop_duplicates_last (keys : list str) (rs : list row) : list row :=
  match rs with
  | [] => []
  | r :: rs' =>
    if existsb (same_key keys r) rs'
    then drop_duplicates_last keys rs'
    else r :: drop_duplicates_last keys rs'
  end.

(** Lexicographic order on strings by code point, and [sorted]. *)
Fixpoint str_leb (a b : str) : bool :=
  match a, b with
  | [], _ => true
  | _ :: _, [] => false
  | x :: a', y :: b' => (x <? y) || ((x =? y) && str_leb a' b')
  end.

Fixpoint insert_sorted (x : str) (l : list str) : list str :=
  match l with
  | [] => [x]
  | y :: l' => if str_leb x y then x :: l else y :: insert_sorted x l'
  end.

Definition sorted (l : list str) : list str := fold_right insert_sorted [] l.

(** [set(xs)] followed by [sorted]: duplicates vanish, order is fixed by
    the sort. *)
Fixpoint distinct (l : list str) : list str :=
  match l with
  | [] => []
  | x :: l' => if str_in x l' then distinct l' else x :: distinct l'
  end.

Definition sorted_set (l : list str) : list str := sorted (distinct l).

(** [sep.join(parts)] *)
Fixpoint join (sep : str) (parts : list str) : str :=
  match parts with
  | [] => []
  | [x] => x
  | x :: rest => x ++ sep ++ join sep rest
  end.

(** Civil date of a day count relative to 1970-01-01 (proleptic
    Gregorian calendar). *)
Definition civil_from_days (z0 : Z) : date :=
  let z := z0 + 719468 in
  let era := z / 146097 in
  let doe := z - era * 146097 in
  let yoe := (doe - doe / 1460 + doe / 36524 - doe / 146096) / 365 in
  let y := yoe + era * 400 in
  let doy := doe - (365 * yoe + yoe / 4 - yoe / 100) in
  let mp := (5 * doy + 2) / 153 in
  let d := doy - (153 * mp + 2) / 5 + 1 in
  let m := if mp <? 10 then mp + 3 else mp - 9 in
  mk_date (if m <=? 2 then y + 1 else y) m d.

(** [pd.to_datetime(n, unit='D', origin='1899-12-30')]: 1899-12-30 is day
    -25569 of the 1970 epoch. *)
Definition from_serial (n : Z) : date := civil_from_days (n - 25569).

(** [d.strftime("%Y/%m/%d")] *)
Definition strftime_ymd (d : date) : str :=
  zfill 4 (str_of_int (year d)) ++ u "/" ++
  zfill 2 (str_of_int (month d)) ++ u "/" ++
  zfill 2 (str_of_int (day d)).

End Pandas.

Import Pandas.

(** What a pipeline stage leaves behind: its output, or the reason it
    stopped before writing anything. *)
Inductive error :=
| MissingColumn
| NoData
| IntegrityViolation
| Raised.

Inductive result (A : Type) :=
| Ok (a : A)
| Abort (e : error).
Arguments Ok {A} a.
Arguments Abort {A} e.

(* ===================================================================== *)
(** * rebuild_master_strict_search.py *)
(* ===================================================================== *)

Module Rebuild.

Definition FIXED_WHOLESALER_NAME : str := u "アスコ".

Definition ID_SALT : str := u "Financial_System_Secret_Key_2025".
Definition ID_LENGTH : Z := 6.
Definition ID_ALPHABET : str := u "ABCDEFGHJKMNPQRSTVWXYZ23456789".

(** The titles are regular expressions in this file; each of them matches
    exactly one literal text, listed here (the last two are written with
    escaped parentheses in the source). *)
Definition CORP_TITLES : list str :=
  [u "株式会社"; u "有限会社"; u "合同会社"; u "一般社団法人"; u "公益社団法人";
   u "医療法人"; u "(株)"; u "(有)"].

Definition KANJI_NUM_MAP (c : Z) : Z :=
  match Mojimoji.lookup (u "一二三四五六七八九〇") (u "1234567890") c with
  | Some d => d
  | None => c
  end.

(** The character class [[\s\-‐－ー―]]. *)
Definition is_separator (c : Z) : bool := isspace c || mem c (u "-‐－ー―").

(** [generate_id(index)]: a hasher is built on every call and encodes the
    sequence number.  [None] only if the library raised. *)
Definition generate_id (index : Z) : option str :=
  match Hashids.init ID_SALT ID_LENGTH ID_ALPHABET with
  | None => None
  | Some hasher => Hashids.encode hasher index
  end.

Definition NULL_WORDS : list str := [u "nan"; u "none"; u "null"; u "nat"; u ""].

(** [int(val_str)] for a string of digits: fails on a digit that is not
    decimal. *)
Definition int_of_digits (s : str) : option Z :=
  if forallb isdecimal s
  then Some (fold_left (fun acc c => acc * 10 + decimal_value c) s 0)
  else None.

Definition COL_NAME : str := u "動物病院施設名".
Definition COL_LEGAL : str := u "法人名（法人の場合のみ）".
Definition COL_REP : str := u "代表者名（漢字）".
Definition COL_ZIP : str := u "病院 郵便番号".
Definition COL_ADDR : str := u "病院住所".
Definition COL_TEL : str := u "病院TEL（電話番号）".
Definition COL_EMAIL : str := u "メールアドレス".
Definition COL_INVOICE : str := u "適格請求書発行事業者の登録番号".
Definition COL_APP_DATE : str := u "契約締結済".
Definition COL_PRICE_DATE : str := u "価格適用開始日".
Definition COL_CANCEL_DATE : str := u "解約日".

Definition COL_MAP : list str :=
  [COL_NAME; COL_LEGAL; COL_REP; COL_ZIP; COL_ADDR; COL_TEL; COL_EMAIL;
   COL_INVOICE; COL_APP_DATE; COL_PRICE_DATE; COL_CANCEL_DATE].

Section WithPlatform.
Context `{P : Platform}.

Definition normalize_text (text : value) : str :=
  if isna text then []
  else
    let text := py_str text in
    let text := Mojimoji.zen_to_han true true false text in
    let text := Mojimoji.han_to_zen false false true text in
    let text := fold_left (fun t title => remove_all title t) CORP_TITLES text in
    let text := translate KANJI_NUM_MAP text in
    let text := filter (fun c => negb (is_separator c)) text in
    strip text.

Definition clean_val (val : value) : value :=
  if isna val || str_eqb (strip (py_str val)) [] || str_eqb (lower (py_str val)) (u "nan")
  then VStr []
  else val.

Definition normalize_postal_code (val : value) : str :=
  if isna val then []
  else
    let val :=
      match val with
      | VInt n => str_of_int n
      | VFloat q => str_of_int (Qtrunc q)
      | _ => strip (py_str val)
      end in
    if str_in (lower val) NULL_WORDS then []
    else
      let val := Mojimoji.zen_to_han true true true val in
      let val := strip (remove_all (u "〒") val) in
      let digits_only := Unicode.digits_only val in
      let digits_only :=
        if (length digits_only <=? 6)%nat then zfill 7 digits_only else digits_only in
      if (length digits_only =? 7)%nat
      then take 3 digits_only ++ u "-" ++ drop 3 digits_only
      else val.

(** [parse_date]: the whole body sits in a [try] whose handler returns the
    empty string, so every failure of a library call ends there. *)
Definition parse_date (val : value) : str :=
  match val with
  | VNaN => []
  | VDate d => strftime_ymd d
  | VInt n =>
    if (1 <=? n) && (n <=? 73050) then strftime_ymd (from_serial n) else []
  | VFloat q =>
    if Qle_bool 1 q && Qle_bool q 73050
    then strftime_ymd (from_serial (Qfloor q)) else []
  | VStr s =>
    let val_str := strip s in
    if str_in (lower val_str) NULL_WORDS then []
    else
      let free_text :=
        match to_datetime val_str with
        | None => []
        | Some parsed =>
          if (year parsed <? 1950) || (2100 <? year parsed) then []
          else strftime_ymd parsed
        end in
      if isdigit val_str && (4 <=? length val_str)%nat && (length val_str <=? 5)%nat
      then
        match int_of_digits val_str with
        | None => []
        | Some serial =>
          if (1 <=? serial) && (serial <=? 73050)
          then strftime_ymd (from_serial serial)
          else free_text
        end
      else free_text
  end.

(** State of the conversion loop of [rebuild_master]. *)
Record build_state := mk_build {
  master_rows : list row;
  mapping_rows : list row;
  processed_keys : list str;
  current_seq : Z
}.

Definition build_init : build_state := mk_build [] [] [] 0.

(** The key the loop deduplicates on. *)
Definition dedup_key (r : row) : str :=
  normalize_text (cell COL_ADDR r) ++ normalize_text (cell COL_TEL r).

Definition master_row (uid p_date : str) (is_active : Z) (r : row) : row :=
  [(u "自社UID", VStr uid);
   (u "動物病院施設名", clean_val (cell COL_NAME r));
   (u "法人名", clean_val (cell COL_LEGAL r));
   (u "代表者名", clean_val (cell COL_REP r));
   (u "郵便番号", VStr (normalize_postal_code (cell COL_ZIP r)));
   (u "住所", clean_val (cell COL_ADDR r));
   (u "電話番号", clean_val (cell COL_TEL r));
   (u "メールアドレス", clean_val (cell COL_EMAIL r));
   (u "インボイス登録番号", clean_val (cell COL_INVOICE r));
   (u "申込日", VStr (parse_date (cell COL_APP_DATE r)));
   (u "価格適用開始日", VStr p_date);
   (u "アクティブフラグ", VInt is_active);
   (u "解約日", VStr (parse_date (cell COL_CANCEL_DATE r)))].

Definition mapping_row (uid p_date : str) (r : row) : row :=
  [(u "自社UID", VStr uid);
   (u "施設名(確認用)", clean_val (cell COL_NAME r));
   (u "卸業者名", VStr FIXED_WHOLESALER_NAME);
   (u "適用開始日", VStr p_date)].

(** One iteration of the loop over the input rows; [None] when the
    identifier library raised. *)
Definition build_step (st : build_state) (r : row) : option build_state :=
  let addr := cell COL_ADDR r in
  let tel := cell COL_TEL r in
  if isna addr || isna tel then Some st
  else
    let k := normalize_text addr ++ normalize_text tel in
    if str_in k (processed_keys st) then Some st
    else
      let current_seq := current_seq st + 1 in
      match generate_id current_seq with
      | None => None
      | Some uid =>
        let p_date := parse_date (cell COL_PRICE_DATE r) in
        let is_active := if negb (str_eqb p_date []) then 1 else 0 in
        Some (mk_build
                (master_rows st ++ [master_row uid p_date is_active r])
                (mapping_rows st ++ [mapping_row uid p_date r])
                (k :: processed_keys st)
                current_seq)
      end.

Fixpoint build_loop (st : build_state) (rs : list row) : option build_state :=
  match rs with
  | [] => Some st
  | r :: rs' =>
    match build_step st r with
    | None => None
    | Some st' => build_loop st' rs'
    end
  end.

(** [rebuild_master] on the sheet it selected: the registry and the first
    mapping table it saves, or the reason nothing was saved. *)
Definition rebuild_master (df_input : frame) : result (frame * frame) :=
  if negb (forallb (fun c => str_in c (columns df_input)) COL_MAP)
  then Abort MissingColumn
  else
    match build_loop build_init (rows df_input) with
    | None => Abort Raised
    | Some st =>
      match master_rows st with
      | [] => Abort NoData
      | _ =>
        Ok (mk_frame (map fst (master_row [] [] 0 [])) (master_rows st),
            mk_frame (map fst (mapping_row [] [] [])) (mapping_rows st))
      end
    end.

End WithPlatform.

End Rebuild.

(* ===================================================================== *)
(** * step1_extract_unique_multi.py *)
(* ===================================================================== *)

Module Step1.
Section WithPlatform.
Context `{P : Platform}.

Definition normalize_postal_code (val : value) : str :=
  if isna val then []
  else
    let val :=
      match val with
      | VInt n => str_of_int n
      | VFloat q => str_of_int (Qtrunc q)
      | _ => strip (py_str val)
      end in
    if str_in (lower val) [u "nan"; u "none"; u "null"; u "nat"; u ""] then []
    else
      let val := Mojimoji.zen_to_han true true true val in
      let val := strip (remove_all (u "〒") val) in
      let digits_only := Unicode.digits_only val in
      let digits_only :=
        if (length digits_only <=? 6)%nat then zfill 7 digits_only else digits_only in
      if (length digits_only =? 7)%nat
      then take 3 digits_only ++ u "-" ++ drop 3 digits_only
      else val.

End WithPlatform.
End Step1.

(* ===================================================================== *)
(** * step4_integrate_bills.py *)
(* ===================================================================== *)

Module Step4.
Section WithPlatform.
Context `{P : Platform}.

(** [parse_date] of the sales integration: no year bounds, and a text
    that does not parse is handed back stripped. *)
Definition parse_date (val : value) : str :=
  match val with
  | VNaN => []
  | VDate d => strftime_ymd d
  | VInt n =>
    if (1 <=? n) && (n <=? 73050) then strftime_ymd (from_serial n) else []
  | VFloat q =>
    if Qle_bool 1 q && Qle_bool q 73050
    then strftime_ymd (from_serial (Qfloor q)) else []
  | VStr s =>
    let val_str := strip s in
    if str_in (lower val_str) [u "nan"; u "none"; u "null"; u "nat"; u ""] then []
    else
      match to_datetime val_str with
      | Some parsed => strftime_ymd parsed
      | None => val_str
      end
  end.

End WithPlatform.
End Step4.

(* ===================================================================== *)
(** * step5_integrate_and_normalize.py *)
(* ===================================================================== *)

Module Step5.

Definition CORP_TITLES : list str :=
  [u "株式会社"; u "有限会社"; u "合同会社"; u "合資会社"; u "合名会社";
   u "医療法人"; u "医療法人社団"; u "医療法人財団";
   u "社団法人"; u "財団法人"; u "一般社団法人"; u "一般財団法人";
   u "公益社団法人"; u "公益財団法人";
   u "社会福祉法人"; u "学校法人"; u "宗教法人";
   u "NPO法人"; u "特定非営利活動法人";
   u "(株)"; u "(有)"; u "（株）"; u "（有）"].

Definition KANJI_NUM_MAP (c : Z) : Z :=
  match Mojimoji.lookup (u "一二三四五六七八九〇") (u "1234567890") c with
  | Some d => d
  | None => c
  end.

(** The character class [[\s\-‐－ー―丁目番地号ビル階F棟室]]. *)
Definition is_noise (c : Z) : bool :=
  isspace c || mem c (u "-‐－ー―丁目番地号ビル階F棟室").

(** The dash glyphs [[ー－―‐–—]] that [normalize_phone] unifies. *)
Definition is_dash (c : Z) : bool := mem c (u "ー－―‐–—").

Section WithPlatform.
Context `{P : Platform}.

Definition normalize_postal_code (val : value) : str :=
  if isna val then []
  else
    let val :=
      match val with
      | VInt n => str_of_int n
      | VFloat q => str_of_int (Qtrunc q)
      | _ => strip (py_str val)
      end in
    if str_in (lower val) [u "nan"; u "none"; u "null"; u "nat"; u ""] then []
    else
      let val := Mojimoji.zen_to_han true true true val in
      let val := strip (remove_all (u "〒") val) in
      let digits_only := Unicode.digits_only val in
      let digits_only :=
        if (length digits_only <=? 6)%nat && (1 <=? length digits_only)%nat
        then zfill 7 digits_only else digits_only in
      if (length digits_only =? 7)%nat
      then take 3 digits_only ++ u "-" ++ drop 3 digits_only
      else val.

(** The display profile: dash glyphs unified, everything else kept. *)
Definition normalize_phone (val : value) : str :=
  if isna val then []
  else
    let val := strip (py_str val) in
    if str_in (lower val) [u "nan"; u "none"; u "null"; u ""] then []
    else
      let val := Mojimoji.zen_to_han true true true val in
      map (fun c => if is_dash c then ch "-" else c) val.

Definition normalize_text_for_matching (text : value) : str :=
  if isna text then []
  else
    let text := py_str text in
    let text := Mojimoji.zen_to_han true true false text in
    let text := Mojimoji.han_to_zen false false true text in
    let text := translate KANJI_NUM_MAP text in
    let text := fold_left (fun t title => remove_all title t) CORP_TITLES text in
    let text := filter (fun c => negb (is_noise c)) text in
    lower text.

End WithPlatform.
End Step5.

(* ===================================================================== *)
(** * Matching: the outcome of one external record *)
(* ===================================================================== *)

(** The two lookups of the match loop, in the order they are tried. *)
Inductive strategy := AddressName | Phone.

(** What one iteration of a match loop did: the lookups it ran against the
    registry (a record of the control flow, kept for the statements below)
    and the row it appended to one of the two lists. *)
Inductive emitted :=
| Matched (r : row)
| Unmatched (r : row).

Record outcome := mk_outcome {
  lookups : list strategy;
  emitted_row : emitted
}.

Definition METHOD_ADDR : str := u "住所+名前".
Definition METHOD_TEL : str := u "電話番号".

Definition method_name (s : strategy) : str :=
  match s with AddressName => METHOD_ADDR | Phone => METHOD_TEL end.

(** [df_master[df_master[key_col] == key]] *)
Definition select_eq (key_col : str) (key : str) (master : list row) : list row :=
  filter (fun m => value_eqb (cell key_col m) (VStr key)) master.

(** State of a match loop: the two lists being filled. *)
Record match_state := mk_match {
  matched_rows : list row;
  unmatched_rows : list row
}.

Definition push (st : match_state) (o : outcome) : match_state :=
  match emitted_row o with
  | Matched r => mk_match (matched_rows st ++ [r]) (unmatched_rows st)
  | Unmatched r => mk_match (matched_rows st) (unmatched_rows st ++ [r])
  end.

(* ===================================================================== *)
(** * step2_match_merged.py *)
(* ===================================================================== *)

Module Step2.

Definition FIXED_WHOLESALER_NAME : str := u "アスコ".

Definition CORP_TITLES : list str :=
  [u "株式会社"; u "有限会社"; u "合同会社"; u "医療法人"; u "社団法人";
   u "(株)"; u "(有)"].

Definition KANJI_NUM_MAP (c : Z) : Z :=
  match Mojimoji.lookup (u "一二三四五六七八九〇") (u "1234567890") c with
  | Some d => d
  | None => c
  end.

(** The character class [[\s\-‐－ー―丁目番地号]]. *)
Definition is_noise (c : Z) : bool :=
  isspace c || mem c (u "-‐－ー―丁目番地号").

Section WithPlatform.
Context `{P : Platform}.

Definition normalize_text (text : value) : str :=
  if isna text then []
  else
    let text := py_str text in
    let text := Mojimoji.zen_to_han true true false text in
    let text := Mojimoji.han_to_zen false false true text in
    let text := translate KANJI_NUM_MAP text in
    let text := fold_left (fun t title => remove_all title t) CORP_TITLES text in
    filter (fun c => negb (is_noise c)) text.

Definition normalize_phone (phone : value) : str :=
  if isna phone then []
  else Unicode.digits_only (Mojimoji.zen_to_han true true true (py_str phone)).

(** The registry with its two key columns added. *)
Definition with_match_keys (master : list row) : list row :=
  map (fun m =>
         set (u "MatchKey_Tel") (VStr (normalize_phone (cell (u "電話番号") m)))
           (set (u "MatchKey_Addr")
              (VStr (normalize_text (cell (u "住所") m) ++
                     take 2 (normalize_text (cell (u "動物病院施設名") m)))) m))
      master.

(** The body of the loop over the billing rows; [master] already carries
    the key columns. *)
Definition match_one (master : list row) (r : row) : outcome :=
  let addr_full := py_str (get_default (u "住所フル") (VStr []) r) in
  let addr_full :=
    if str_eqb addr_full [] || str_eqb addr_full (u "nan")
    then py_str (get_default (u "住所１") (VStr []) r) ++
         py_str (get_default (u "住所２") (VStr []) r)
    else addr_full in
  let name_full := py_str (cell (u "得意先名称") r) in
  let wholesaler_id := cell (u "得意先コード") r in
  let bill_key_addr :=
    normalize_text (VStr addr_full) ++ take 2 (normalize_text (VStr name_full)) in
  let by_addr := select_eq (u "MatchKey_Addr") bill_key_addr master in
  let bill_tel :=
    match get (u "電話番号") r with
    | Some v => normalize_phone v
    | None =>
      match get (u "TEL") r with
      | Some v => normalize_phone v
      | None => []
      end
    end in
  let '(tried, found, method) :=
    match by_addr with
    | [] =>
      if negb (str_eqb bill_tel []) && (9 <=? length bill_tel)%nat
      then ([AddressName; Phone], select_eq (u "MatchKey_Tel") bill_tel master, Phone)
      else ([AddressName], [], AddressName)
    | _ => ([AddressName], by_addr, AddressName)
    end in
  match found with
  | master_row :: _ =>
    mk_outcome tried (Matched
      [(u "自社UID", cell (u "自社UID") master_row);
       (u "施設名(確認用)", cell (u "動物病院施設名") master_row);
       (u "卸業者名", VStr FIXED_WHOLESALER_NAME);
       (u "卸側施設ID", wholesaler_id);
       (u "卸側名称(参考)", VStr name_full);
       (u "適用開始日", get_default (u "価格適用開始日") (VStr []) master_row);
       (u "マッチ方法", VStr (method_name method))])
  | [] =>
    mk_outcome tried (Unmatched
      [(u "得意先コード", wholesaler_id);
       (u "得意先名称", VStr name_full);
       (u "住所フル", VStr addr_full);
       (u "正規化キー(参考)", VStr bill_key_addr);
       (u "ステータス", VStr (u "未マッチ"))])
  end.

Definition match_loop (master : list row) (rs : list row) : match_state :=
  fold_left (fun st r => push st (match_one master r)) rs (mk_match [] []).

End WithPlatform.
End Step2.

(* ===================================================================== *)
(** * step6_match_address.py *)
(* ===================================================================== *)

Module Step6.

Definition FIXED_WHOLESALER_NAME : str := u "アスコ".

Definition CORP_TITLES : list str :=
  [u "株式会社"; u "有限会社"; u "合同会社"; u "合資会社"; u "合名会社";
   u "医療法人"; u "医療法人社団"; u "医療法人財団";
   u "社団法人"; u "財団法人"; u "一般社団法人"; u "一般財団法人";
   u "公益社団法人"; u "公益財団法人";
   u "社会福祉法人"; u "学校法人"; u "宗教法人";
   u "NPO法人"; u "特定非営利活動法人";
   u "(株)"; u "(有)"; u "（株）"; u "（有）"].

Section WithPlatform.
Context `{P : Platform}.

Definition normalize_text_for_matching (text : value) : str :=
  if isna text then []
  else
    let text := py_str text in
    let text := Mojimoji.zen_to_han true true false text in
    let text := Mojimoji.han_to_zen false false true text in
    let text := translate Step5.KANJI_NUM_MAP text in
    let text := fold_left (fun t title => remove_all title t) CORP_TITLES text in
    let text := filter (fun c => negb (Step5.is_noise c)) text in
    lower text.

(** The matching profile: digits only. *)
Definition normalize_phone (phone : value) : str :=
  if isna phone then []
  else Unicode.digits_only (Mojimoji.zen_to_han true true true (py_str phone)).

Definition find_uid_column (cols : list str) : option str :=
  find (fun col => contains (u "UID") col) cols.

(** The registry with its key columns added; the phone key is empty when
    the registry has no phone column. *)
Definition with_match_keys (has_tel : bool) (master : list row) : list row :=
  map (fun m =>
         let norm_addr := normalize_text_for_matching (cell (u "住所") m) in
         let norm_name := normalize_text_for_matching (cell (u "動物病院施設名") m) in
         set (u "MatchKey_Tel")
             (VStr (if has_tel then normalize_phone (cell (u "電話番号") m) else []))
           (set (u "MatchKey_Addr") (VStr (norm_addr ++ take 2 norm_name))
              (set (u "NormName") (VStr norm_name)
                 (set (u "NormAddr") (VStr norm_addr) m))))
      master.

(** The first of the two phone columns that the row has with a value. *)
Definition bill_phone (r : row) : str :=
  match get (u "電話番号") r with
  | Some v =>
    if notna v then normalize_phone v
    else
      match get (u "TEL") r with
      | Some w => if notna w then normalize_phone w else []
      | None => []
      end
  | None =>
    match get (u "TEL") r with
    | Some w => if notna w then normalize_phone w else []
    | None => []
    end
  end.

(** A key prepared by step 5 is used when the row has one; otherwise it is
    computed on the spot. *)
Definition norm_addr_of (r : row) : str :=
  match get (u "正規化住所キー") r with
  | Some v =>
    if notna v then py_str v
    else normalize_text_for_matching
           (VStr (py_str (get_default (u "住所フル") (VStr []) r)))
  | None =>
    normalize_text_for_matching
      (VStr (py_str (get_default (u "住所フル") (VStr []) r)))
  end.

Definition norm_name_of (r : row) : str :=
  match get (u "正規化名称キー") r with
  | Some v =>
    if notna v then py_str v
    else normalize_text_for_matching (cell (u "得意先名称") r)
  | None => normalize_text_for_matching (cell (u "得意先名称") r)
  end.

(** The key of the first lookup. *)
Definition bill_key_addr (r : row) : str :=
  norm_addr_of r ++ take 2 (norm_name_of r).

(** The body of the loop over the billing rows; [master] already carries
    the key columns and [uid_col] is the registry's identifier column. *)
Definition match_one (uid_col : str) (master : list row) (r : row) : outcome :=
  let wholesaler_id := cell (u "得意先コード") r in
  let name_original := cell (u "得意先名称") r in
  let key := bill_key_addr r in
  let by_addr := select_eq (u "MatchKey_Addr") key master in
  let '(tried, found, method) :=
    match by_addr with
    | [] =>
      let bill_tel := bill_phone r in
      if negb (str_eqb bill_tel []) && (9 <=? length bill_tel)%nat
      then ([AddressName; Phone], select_eq (u "MatchKey_Tel") bill_tel master, Phone)
      else ([AddressName], [], AddressName)
    | _ => ([AddressName], by_addr, AddressName)
    end in
  match found with
  | master_row :: _ =>
    mk_outcome tried (Matched
      [(u "自社UID", cell uid_col master_row);
       (u "施設名(確認用)", cell (u "動物病院施設名") master_row);
       (u "卸業者名", VStr FIXED_WHOLESALER_NAME);
       (u "卸側施設ID", wholesaler_id);
       (u "卸側名称(参考)", name_original);
       (u "適用開始日", get_default (u "価格適用開始日") (VStr []) master_row);
       (u "マッチ方法", VStr (method_name method))])
  | [] =>
    mk_outcome tried (Unmatched
      [(u "得意先コード", wholesaler_id);
       (u "得意先名称", name_original);
       (u "住所フル", get_default (u "住所フル") (VStr []) r);
       (u "正規化キー(参考)", VStr key);
       (u "ステータス", VStr (u "未マッチ"))])
  end.

Definition match_loop (uid_col : str) (master : list row) (rs : list row)
    : match_state :=
  fold_left (fun st r => push st (match_one uid_col master r)) rs (mk_match [] []).


End WithPlatform.
End Step6.

(* ===================================================================== *)
(** * Helpers shared by the merge and reflection tools *)
(* ===================================================================== *)

Definition rename_key (old new : str) (k : str) : str :=
  if str_eqb k old then new else k.

(** [df.rename(columns={old: new})] *)
Definition rename_col (old new : str) (df : frame) : frame :=
  mk_frame (map (rename_key old new) (columns df))
           (map (map (fun kv => (rename_key old new (fst kv), snd kv))) (rows df)).

Definition count_col (col : str) (cols : list str) : nat :=
  length (filter (str_eqb col) cols).

(** The first of [candidates] that is a column. *)
Definition first_present (candidates cols : list str) : option str :=
  find (fun c => str_in c cols) candidates.

(** The mapping files the merge tools read and the one they write; a file
    that does not exist is [None]. *)
Record files := mk_files {
  candidate_file : option frame;
  unmatched_file : option frame;
  final_mapping_file : option frame
}.

(** A run either writes the mapping table or leaves every file as it
    was. *)
Definition after_run (fs : files) (r : result frame) : files :=
  match r with
  | Ok df => mk_files (candidate_file fs) (unmatched_file fs) (Some df)
  | Abort _ => fs
  end.

(* ===================================================================== *)
(** * step3_merge_fixed.py *)
(* ===================================================================== *)

Module Step3.

Definition FIXED_WHOLESALER_NAME : str := u "アスコ".

Definition rename_map : list (str * str) :=
  [(u "得意先コード", u "卸側施設ID");
   (u "得意先名称", u "施設名(確認用)");
   (u "UID", u "自社UID");
   (u "自社ID", u "自社UID");
   (u "施設UID", u "自社UID")].

Definition final_cols : list str :=
  [u "自社UID"; u "施設名(確認用)"; u "卸業者名"; u "卸側施設ID"; u "適用開始日"].

Definition renamed (k : str) : str :=
  match find (fun kv => str_eqb (fst kv) k) rename_map with
  | Some kv => snd kv
  | None => k
  end.

Fixpoint has_dup (cols : list str) : bool :=
  match cols with
  | [] => false
  | c :: cols' => str_in c cols' || has_dup cols'
  end.

Section WithPlatform.
Context `{P : Platform}.

(** The value a missing final column is filled with. *)
Definition fill_value (col : str) : value :=
  if str_eqb col (u "卸業者名") then VStr FIXED_WHOLESALER_NAME else VStr [].

(** [standardize_columns]: the columns are renamed, missing ones filled
    in, and the final five selected.  Two columns that end up under one
    name make the later [concat] fail. *)
Definition standardize_columns (df : frame) : result frame :=
  match rows df with
  | [] => Ok empty_frame
  | _ =>
    let cols := map renamed (columns df) in
    if negb (str_in (u "自社UID") cols) then Ok empty_frame
    else if has_dup cols then Abort Raised
    else
      Ok (mk_frame final_cols
            (map (fun r =>
                    let r' := map (fun kv => (renamed (fst kv), snd kv)) r in
                    map (fun c => (c, if str_in c cols then cell c r' else fill_value c))
                        final_cols)
                 (rows df)))
  end.

(** The test the column scan of [main] applies to one column name. *)
Definition has_marker (col : str) : bool :=
  contains (u "UID") col || contains (u "自社") col || contains (u "施設") col.

(** The column scan of [main]: the first column whose name contains one
    of the three markers. *)
Definition find_uid_column (cols : list str) : option str :=
  find has_marker cols.

(** A cell counts as filled in when it is present and not blank. *)
Definition uid_filled (v : value) : bool :=
  notna v && negb (str_eqb (strip (py_str v)) []).

Definition manual_clean (df_unmatched : frame) : result frame :=
  match find_uid_column (columns df_unmatched) with
  | None => Ok empty_frame
  | Some uid_col =>
    let df_manual :=
      mk_frame (columns df_unmatched)
               (filter (fun r => uid_filled (cell uid_col r)) (rows df_unmatched)) in
    match rows df_manual with
    | [] => Ok empty_frame
    | _ => standardize_columns (rename_col uid_col (u "自社UID") df_manual)
    end
  end.

Definition or_empty (f : frame -> result frame) (o : option frame) : result frame :=
  match o with
  | Some df => f df
  | None => Ok empty_frame
  end.

(** [main]: the mapping table it writes, or the reason it wrote none. *)
Definition main (fs : files) : result frame :=
  match or_empty standardize_columns (candidate_file fs) with
  | Abort e => Abort e
  | Ok df_candidate_clean =>
    match or_empty manual_clean (unmatched_file fs) with
    | Abort e => Abort e
    | Ok df_manual_clean =>
      let df_new_data := concat df_candidate_clean df_manual_clean in
      match rows df_new_data with
      | [] => Abort NoData
      | _ =>
        let df_merged :=
          match final_mapping_file fs with
          | Some df_existing =>
            let df := concat df_existing df_new_data in
            mk_frame (columns df)
              (drop_duplicates_last [u "自社UID"; u "卸側施設ID"] (rows df))
          | None => df_new_data
          end in
        Ok (mk_frame (columns df_merged)
              (filter (fun r =>
                         negb (str_eqb (strip (py_str (cell (u "卸側施設ID") r))) []))
                      (rows df_merged)))
      end
    end
  end.

End WithPlatform.
End Step3.

(* ===================================================================== *)
(** * step7_merge_final.py *)
(* ===================================================================== *)

Module Step7.

Definition FIXED_WHOLESALER_NAME : str := u "アスコ".

Definition FINAL_COLUMNS : list str :=
  [u "自社UID"; u "施設名(確認用)"; u "卸業者名"; u "卸側施設ID"; u "適用開始日"].

Definition uid_patterns : list str :=
  [u "自社UID"; u "施設UID"; u "UID"; u "自社ID"; u "動物病院UID"].

Definition KEY_COLUMNS : list str := [u "自社UID"; u "卸側施設ID"].

Section WithPlatform.
Context `{P : Platform}.

(** The test [find_uid_column] applies to one column name. *)
Definition is_uid_column (col : str) : bool :=
  let col_str := strip col in
  str_in col_str uid_patterns || contains (u "UID") (upper col_str).

(** [find_uid_column]: one pass over the columns from the left; the first
    column that passes the test is returned. *)
Definition find_uid_column (cols : list str) : option str :=
  find is_uid_column cols.

Definition clean_value (val : value) : str :=
  if isna val then []
  else
    let val_str := strip (py_str val) in
    if str_in (lower val_str) [u "nan"; u "none"; u "null"; u "nat"] then []
    else val_str.

Definition empty_final : frame := mk_frame FINAL_COLUMNS [].

(** The row [standardize_columns] builds from one input row. *)
Definition new_row (uid_val : str) (name_col wholesaler_id_col : option str)
    (r : row) : row :=
  [(u "自社UID", VStr uid_val);
   (u "施設名(確認用)",
      VStr (match name_col with Some c => clean_value (cell c r) | None => [] end));
   (u "卸業者名",
      VStr (match clean_value (get_default (u "卸業者名") (VStr FIXED_WHOLESALER_NAME) r) with
            | [] => FIXED_WHOLESALER_NAME
            | s => s
            end));
   (u "卸側施設ID",
      VStr (match wholesaler_id_col with
            | Some c => clean_value (cell c r)
            | None => []
            end));
   (u "適用開始日", VStr (clean_value (get_default (u "適用開始日") (VStr []) r)))].

(** [standardize_columns].  Reading the identifier cell of a row fails
    when two columns carry the identifier column's name, which the rename
    in [step7_merge_final] can bring about. *)
Definition standardize_columns (df : frame) : result frame :=
  match rows df with
  | [] => Ok empty_final
  | _ =>
    match find (fun col => str_in col uid_patterns || contains (u "UID") (upper col))
               (columns df) with
    | None => Ok empty_final
    | Some uid_col =>
      if (1 <? count_col uid_col (columns df))%nat then Abort Raised
      else
        let wholesaler_id_col :=
          first_present [u "卸側施設ID"; u "得意先コード"] (columns df) in
        let name_col :=
          first_present [u "施設名(確認用)"; u "得意先名称"; u "卸側名称(参考)";
                         u "動物病院施設名"] (columns df) in
        let result_rows :=
          flat_map (fun r =>
                      let uid_val := clean_value (cell uid_col r) in
                      if str_eqb uid_val [] then []
                      else [new_row uid_val name_col wholesaler_id_col r])
                   (rows df) in
        match result_rows with
        | [] => Ok empty_final
        | _ => Ok (mk_frame FINAL_COLUMNS result_rows)
        end
    end
  end.

(** The rows of the manual list whose identifier cell, once cleaned, is
    not empty. *)
Definition manual_rows (uid_col : str) (df_unmatched : frame) : list row :=
  filter (fun r => negb (value_eqb (cell uid_col r) (VStr [])))
         (apply_col uid_col (fun v => VStr (clean_value v)) (rows df_unmatched)).

Definition manual_clean (df_unmatched : frame) : result frame :=
  match find_uid_column (columns df_unmatched) with
  | None => Ok empty_frame
  | Some uid_col =>
    match manual_rows uid_col df_unmatched with
    | [] => Ok empty_frame
    | df_manual =>
      standardize_columns
        (rename_col uid_col (u "自社UID") (mk_frame (columns df_unmatched) df_manual))
    end
  end.

Definition or_empty (f : frame -> result frame) (o : option frame) : result frame :=
  match o with
  | Some df => f df
  | None => Ok empty_frame
  end.

(** Steps 4 and 5 of the tool: existing table first, new rows after it,
    duplicates of the key pair dropped keeping the last, the external
    identifier cleaned, rows without one removed. *)
Definition compact (df : frame) : frame :=
  mk_frame (columns df)
    (filter (fun r => negb (value_eqb (cell (u "卸側施設ID") r) (VStr [])))
       (apply_col (u "卸側施設ID") (fun v => VStr (clean_value v))
          (drop_duplicates_last KEY_COLUMNS (rows df)))).

(** [step7_merge_final]: the mapping table it writes, or the reason it
    wrote none. *)
Definition step7_merge_final (fs : files) : result frame :=
  match or_empty standardize_columns (candidate_file fs) with
  | Abort e => Abort e
  | Ok df_candidate_clean =>
    match or_empty manual_clean (unmatched_file fs) with
    | Abort e => Abort e
    | Ok df_manual_clean =>
      let df_new_data := concat df_candidate_clean df_manual_clean in
      match rows df_new_data with
      | [] => Abort NoData
      | _ =>
        match final_mapping_file fs with
        | Some df_existing => Ok (compact (concat df_existing df_new_data))
        | None => Ok (compact df_new_data)
        end
      end
    end
  end.

End WithPlatform.
End Step7.

(* ===================================================================== *)
(** * step8_reflect_id_to_master.py *)
(* ===================================================================== *)

Module Step8.

Definition FIXED_WHOLESALER_NAME : str := u "アスコ".
Definition NEW_COL_NAME : str := u "卸側施設ID".
Definition COL_EXTERNAL : str := u "卸側施設ID".
Definition COL_WHOLESALER : str := u "卸業者名".

Definition uid_patterns : list str :=
  [u "自社UID"; u "施設UID"; u "UID"; u "自社ID"; u "動物病院UID"].

Section WithPlatform.
Context `{P : Platform}.

Definition find_uid_column (cols : list str) : option str :=
  find (fun col =>
          let col_str := strip col in
          str_in col_str uid_patterns || contains (u "UID") (upper col_str))
       cols.

Definition clean_value (val : value) : str :=
  if isna val then []
  else
    let val_str := strip (py_str val) in
    if str_in (lower val_str) [u "nan"; u "none"; u "null"; u "nat"] then []
    else val_str.

(** [s.endswith(".0")] and [s[:-2]] *)
Definition ends_with_dot0 (s : str) : bool :=
  match rev s with
  | a :: b :: _ => (a =? ch "0") && (b =? ch ".")
  | _ => false
  end.

Definition clean_id (val : value) : str :=
  match val with
  | VNaN => []
  | VFloat q =>
    if Qeq_bool q (inject_Z (Qtrunc q)) then str_of_int (Qtrunc q)
    else float_repr q
  | _ =>
    let val_str := strip (py_str val) in
    if str_in (lower val_str) [u "nan"; u "none"; u "null"; u "nat"; u ""] then []
    else if ends_with_dot0 val_str then take (length val_str - 2) val_str
    else val_str
  end.

(** The mapping rows the tool works with: those of the configured
    wholesaler when the table names wholesalers, all rows otherwise. *)
Definition filter_wholesaler (df_mapping : frame) : list row :=
  if str_in COL_WHOLESALER (columns df_mapping)
  then filter (fun r => str_eqb (clean_value (cell COL_WHOLESALER r))
                                FIXED_WHOLESALER_NAME)
              (rows df_mapping)
  else rows df_mapping.

(** The two cleaning passes: the identifier column first, then the
    external identifier column. *)
Definition cleaned_row (mapping_uid_col : str) (r : row) : row :=
  let r1 := set mapping_uid_col (VStr (clean_value (cell mapping_uid_col r))) r in
  set COL_EXTERNAL (VStr (clean_id (cell COL_EXTERNAL r1))) r1.

(** The text in a cleaned cell. *)
Definition text (v : value) : str :=
  match v with VStr s => s | _ => [] end.

(** The cleaned (uid, external id) pairs with both parts present. *)
Definition map_clean (mapping_uid_col : str) (filtered : list row)
    : list (str * str) :=
  map (fun r => (text (cell mapping_uid_col r), text (cell COL_EXTERNAL r)))
      (filter (fun r => negb (value_eqb (cell mapping_uid_col r) (VStr [])) &&
                        negb (value_eqb (cell COL_EXTERNAL r) (VStr [])))
              (map (cleaned_row mapping_uid_col) filtered)).

(** The external identifiers of one uid, distinct, sorted, and joined
    with a comma and a space. *)
Definition ids_of (pairs : list (str * str)) (uid : str) : list str :=
  sorted_set (map snd (filter (fun p => str_eqb (fst p) uid) pairs)).

Definition joined_ids (pairs : list (str * str)) (uid : str) : str :=
  join (u ", ") (ids_of pairs uid).

(** [groupby(uid)[external].apply(...).reset_index()]: one row per uid,
    uids in sorted order. *)
Definition grouped (pairs : list (str * str)) : list (str * str) :=
  map (fun uid => (uid, joined_ids pairs uid)) (sorted_set (map fst pairs)).

(** [pd.merge(df_master, df_grouped, on=uid, how="left")]: every registry
    row once per grouped row with its key, or once with a missing cell
    when there is none. *)
Definition merge_left (master_uid_col : str) (master : list row)
    (df_grouped : list (str * str)) : list row :=
  flat_map
    (fun l =>
       match filter (fun g => value_eqb (cell master_uid_col l) (VStr (fst g)))
                    df_grouped with
       | [] => [set NEW_COL_NAME VNaN l]
       | hits => map (fun g => set NEW_COL_NAME (VStr (snd g)) l) hits
       end)
    master.

(** [df[col].fillna("")] *)
Definition fillna (col : str) (rs : list row) : list row :=
  apply_col col (fun v => if isna v then VStr [] else v) rs.

(** [step8_reflect_id_to_master] on the registry and the mapping table it
    read: the registry it writes, or the reason it wrote none. *)
Definition step8_reflect_id_to_master (df_master df_mapping : frame)
    : result frame :=
  let master_count := nrows df_master in
  match find_uid_column (columns df_master),
        find_uid_column (columns df_mapping) with
  | None, _ => Abort MissingColumn
  | _, None => Abort MissingColumn
  | Some master_uid_col, Some mapping_uid_col =>
    if negb (str_in COL_EXTERNAL (columns df_mapping)) then Abort MissingColumn
    else
      let df_map_clean := map_clean mapping_uid_col (filter_wholesaler df_mapping) in
      let df_grouped := grouped df_map_clean in
      let master_cols :=
        filter (fun c => negb (str_eqb c NEW_COL_NAME)) (columns df_master) in
      let master := map (drop_col NEW_COL_NAME) (rows df_master) in
      let df_merged :=
        fillna NEW_COL_NAME (merge_left master_uid_col master df_grouped) in
      if negb (length df_merged =? master_count)%nat then Abort IntegrityViolation
      else Ok (mk_frame (master_cols ++ [NEW_COL_NAME]) df_merged)
  end.

End WithPlatform.
End Step8.

(* ===================================================================== *)
(** * A reference platform for concrete evaluations *)
(* ===================================================================== *)

Module Reference.

Definition lower_char (c : Z) : Z := if in_range 65 90 c then c + 32 else c.
Definition upper_char (c : Z) : Z := if in_range 97 122 c then c - 32 else c.

(** Decimal expansion of the fractional part, trailing zeros dropped. *)
Fixpoint frac_digits (fuel : nat) (num den : Z) : str :=
  match fuel with
  | O => []
  | S f =>
    if num =? 0 then []
    else digit_char (num * 10 / den) :: frac_digits f ((num * 10) mod den) den
  end.

Definition float_text (q : Q) : str :=
  let n := Qtrunc q in
  let den := Z.pos (Qden q) in
  let rest := Z.abs (Qnum q) - Z.abs n * den in
  (if (n =? 0) && (Qnum q <? 0) then u "-0" else str_of_int n) ++ u "." ++
  match frac_digits 17 rest den with
  | [] => u "0"
  | ds => ds
  end.

Definition datetime_text (d : date) : str :=
  zfill 4 (str_of_int (year d)) ++ u "-" ++ zfill 2 (str_of_int (month d)) ++
  u "-" ++ zfill 2 (str_of_int (day d)) ++ u " 00:00:00".

Definition is_leap (y : Z) : bool :=
  ((y mod 4 =? 0) && negb (y mod 100 =? 0)) || (y mod 400 =? 0).

Definition days_in_month (y m : Z) : Z :=
  if m =? 2 then (if is_leap y then 29 else 28)
  else if (m =? 4) || (m =? 6) || (m =? 9) || (m =? 11) then 30
  else 31.

(** Splits off the leading ASCII digits. *)
Fixpoint span_digits (s : str) : str * str :=
  match s with
  | [] => ([], [])
  | c :: s' =>
    if in_range 48 57 c
    then let '(ds, rest) := span_digits s' in (c :: ds, rest)
    else ([], s)
  end.

Definition number_of (ds : str) : Z :=
  fold_left (fun acc c => acc * 10 + (c - 48)) ds 0.

(** The numeric forms [YYYY/M/D] and [YYYY-M-D] of a date text, checked
    against the calendar; any other text is refused. *)
Definition parse_ymd (s : str) : option date :=
  let '(ys, r1) := span_digits s in
  match r1 with
  | sep1 :: r1' =>
    let '(ms, r2) := span_digits r1' in
    match r2 with
    | sep2 :: r2' =>
      let '(ds, r3) := span_digits r2' in
      let y := number_of ys in
      let m := number_of ms in
      let d := number_of ds in
      if (length ys =? 4)%nat && mem sep1 (u "/-") && (sep2 =? sep1) &&
         (1 <=? length ms)%nat && (length ms <=? 2)%nat &&
         (1 <=? length ds)%nat && (length ds <=? 2)%nat &&
         match r3 with [] => true | _ => false end &&
         (1 <=? m) && (m <=? 12) && (1 <=? d) && (d <=? days_in_month y m)
      then Some (mk_date y m d)
      else None
    | [] => None
    end
  | [] => None
  end.

(** ASCII case mapping, a decimal rendering of floats, midnight
    timestamps, and the numeric date forms: enough to run the code on the
    concrete inputs used below, all of which stay inside this fragment. *)
#[export] Instance platform : Platform := {|
  lower := map lower_char;
  upper := map upper_char;
  float_repr := float_text;
  datetime_repr := datetime_text;
  to_datetime := parse_ymd
|}.

End Reference.

(* ===================================================================== *)
(** * Basic facts about strings and lists *)
(* ===================================================================== *)

Lemma str_eqb_eq (a b : str) : str_eqb a b = true <-> a = b.
Proof.
  revert b; induction a as [|x a IH]; intros [|y b]; simpl; split; intro H;
    try reflexivity; try discriminate.
  - apply andb_true_iff in H as [H1 H2].
    apply Z.eqb_eq in H1. apply IH in H2. now subst.
  - inversion H; subst. apply andb_true_iff; split.
    + apply Z.eqb_refl.
    + now apply IH.
Qed.

Lemma str_eqb_refl (a : str) : str_eqb a a = true.
Proof. now apply str_eqb_eq. Qed.

Lemma str_eqb_neq (a b : str) : str_eqb a b = false <-> a <> b.
Proof.
  split; intro H.
  - intro E. apply str_eqb_eq in E. congruence.
  - destruct (str_eqb a b) eqn:E; [|reflexivity].
    apply str_eqb_eq in E. contradiction.
Qed.

Lemma str_eqb_sym (a b : str) : str_eqb a b = str_eqb b a.
Proof.
  destruct (str_eqb a b) eqn:E.
  - apply str_eqb_eq in E; subst. symmetry. apply str_eqb_refl.
  - apply str_eqb_neq in E. symmetry. apply str_eqb_neq. congruence.
Qed.

Lemma str_in_In (x : str) (xs : list str) : str_in x xs = true <-> In x xs.
Proof.
  unfold str_in. rewrite existsb_exists. split.
  - intros (y & Hy & E). apply str_eqb_eq in E. now subst.
  - intro H. exists x. split; [assumption | apply str_eqb_refl].
Qed.

Lemma str_in_false (x : str) (xs : list str) : str_in x xs = false <-> ~ In x xs.
Proof.
  rewrite <- str_in_In. destruct (str_in x xs); split; congruence.
Qed.

Lemma mem_In (c : Z) (s : str) : mem c s = true <-> In c s.
Proof.
  unfold mem. rewrite existsb_exists. split.
  - intros (y & Hy & E). apply Z.eqb_eq in E. now subst.
  - intro H. exists c. split; [assumption | apply Z.eqb_refl].
Qed.

Lemma find_leftmost {A} (f : A -> bool) (l : list A) (c : A) :
  find f l = Some c <->
  exists pre post, l = pre ++ c :: post /\ f c = true /\
                   Forall (fun x => f x = false) pre.
Proof.
  induction l as [|x l IH]; simpl.
  - split; [discriminate|]. intros (pre & post & E & _). now destruct pre.
  - destruct (f x) eqn:Fx.
    + split.
      * intro E. inversion E; subst. exists [], l. repeat split; auto.
      * intros (pre & post & E & Fc & Hpre).
        destruct pre as [|y pre]; simpl in E; inversion E; subst.
        -- reflexivity.
        -- inversion Hpre; subst. congruence.
    + rewrite IH. split.
      * intros (pre & post & -> & Fc & Hpre).
        exists (x :: pre), post. repeat split; auto.
      * intros (pre & post & E & Fc & Hpre).
        destruct pre as [|y pre]; simpl in E; inversion E; subst.
        -- congruence.
        -- inversion Hpre; subst. exists pre, post. repeat split; auto.
Qed.

Lemma get_set_same (col : str) (v : value) (r : row) :
  get col (set col v r) = Some v.
Proof.
  induction r as [|[k w] r IH]; simpl.
  - now rewrite str_eqb_refl.
  - destruct (str_eqb k col) eqn:E; simpl; rewrite E; [reflexivity | exact IH].
Qed.

Lemma cell_set_same (col : str) (v : value) (r : row) :
  cell col (set col v r) = v.
Proof. unfold cell. now rewrite get_set_same. Qed.

Lemma get_set_other (col col' : str) (v : value) (r : row) :
  col <> col' -> get col' (set col v r) = get col' r.
Proof.
  intro Hne. induction r as [|[k w] r IH]; simpl.
  - destruct (str_eqb col col') eqn:E; [|reflexivity].
    apply str_eqb_eq in E. contradiction.
  - destruct (str_eqb k col) eqn:E; simpl.
    + apply str_eqb_eq in E; subst.
      destruct (str_eqb col col') eqn:E'; [|reflexivity].
      apply str_eqb_eq in E'. contradiction.
    + destruct (str_eqb k col'); [reflexivity | exact IH].
Qed.

Lemma cell_set_other (col col' : str) (v : value) (r : row) :
  col <> col' -> cell col' (set col v r) = cell col' r.
Proof. intro H. unfold cell. now rewrite get_set_other. Qed.

(* ===================================================================== *)
(** * The identifier issuer *)
(* ===================================================================== *)

Module IssuerFacts.

Import Rebuild.

(** The identifiers issued for 1, 2, ..., n, in order. *)
Definition issued (n : nat) : list (option str) :=
  map (fun i => generate_id (Z.of_nat i)) (seq 1 n).

Definition well_formed (o : option str) : bool :=
  match o with
  | Some c => (len c =? ID_LENGTH) && forallb (fun x => mem x ID_ALPHABET) c
  | None => false
  end.

(** A number computed from an identifier, used to look identifiers up in
    a map. *)
Definition key (o : option str) : positive :=
  match o with
  | Some c => Z.to_pos (fold_left (fun a x => a * 256 + x) c 1)
  | None => 1%positive
  end.

(** No key occurs twice, checked with a map of the keys seen so far. *)
Fixpoint fresh_keys (seen : PositiveMap.t unit) (l : list positive) : bool :=
  match l with
  | [] => true
  | k :: l' =>
    negb (PositiveMap.mem k seen) && fresh_keys (PositiveMap.add k tt seen) l'
  end.

Definition range_check (n : nat) : bool :=
  let l := issued n in
  forallb well_formed l && fresh_keys (PositiveMap.empty unit) (map key l).

Lemma fresh_keys_sound l : forall seen,
  fresh_keys seen l = true ->
  NoDup l /\ forall k, In k l -> PositiveMap.mem k seen = false.
Proof.
  induction l as [|k l IH]; simpl; intros seen H.
  - split; [constructor | intros ? []].
  - apply andb_true_iff in H as [Hk Hl]. apply negb_true_iff in Hk.
    destruct (IH _ Hl) as [Hnd Hseen]. split.
    + constructor; [|assumption]. intro Hin.
      specialize (Hseen k Hin).
      rewrite PositiveMap.mem_find, PositiveMap.gss in Hseen. discriminate.
    + intros k' [<-|Hin]; [assumption|].
      specialize (Hseen k' Hin).
      rewrite PositiveMap.mem_find in *.
      destruct (Pos.eq_dec k k') as [->|Hne].
      * rewrite PositiveMap.gss in Hseen. discriminate.
      * now rewrite PositiveMap.gso in Hseen by congruence.
Qed.

Lemma NoDup_map_injective {A B} (f : A -> B) (l : list A) x y :
  NoDup (map f l) -> In x l -> In y l -> f x = f y -> x = y.
Proof.
  induction l as [|a l IH]; simpl; [tauto|].
  intros Hnd Hx Hy E. inversion Hnd as [|? ? Hnotin Hnd']; subst.
  destruct Hx as [->|Hx], Hy as [->|Hy]; try reflexivity.
  - exfalso. apply Hnotin. rewrite E. now apply in_map.
  - exfalso. apply Hnotin. rewrite <- E. now apply in_map.
  - now apply IH.
Qed.

(** What a successful check of the first [n] identifiers gives. *)
Lemma range_check_sound (n : nat) :
  range_check n = true ->
  forall i j : nat, (1 <= i <= n)%nat -> (1 <= j <= n)%nat ->
    well_formed (generate_id (Z.of_nat i)) = true /\
    (generate_id (Z.of_nat i) = generate_id (Z.of_nat j) -> i = j).
Proof.
  unfold range_check. intros H i j Hi Hj.
  apply andb_true_iff in H as [Hwf Hk]. split.
  - rewrite forallb_forall in Hwf. apply Hwf.
    unfold issued. apply in_map_iff. exists i. split; [reflexivity|].
    apply in_seq. lia.
  - intro E. apply fresh_keys_sound in Hk as [Hk _].
    unfold issued in Hk. rewrite map_map in Hk.
    eapply (NoDup_map_injective _ _ _ _ Hk).
    + apply in_seq. lia.
    + apply in_seq. lia.
    + cbv beta. now rewrite E.
Qed.

(** The whole tested range, evaluated. *)
Lemma range_checked : range_check (Z.to_nat 10000) = true.
Proof. vm_compute. reflexivity. Qed.

Lemma range_facts (i j : Z) :
  1 <= i <= 10000 -> 1 <= j <= 10000 ->
  well_formed (generate_id i) = true /\
  (generate_id i = generate_id j -> i = j).
Proof.
  intros Hi Hj.
  destruct (range_check_sound _ range_checked (Z.to_nat i) (Z.to_nat j))
    as [Hwf Hinj]; try lia.
  rewrite !Z2Nat.id in * by lia. split; [assumption|].
  intro E. apply Hinj in E. lia.
Qed.

(** A well-formed result is an identifier of the configured length over
    the configured alphabet. *)
Lemma well_formed_spec (o : option str) :
  well_formed o = true ->
  exists code, o = Some code /\ len code = ID_LENGTH /\
               Forall (fun c => In c ID_ALPHABET) code.
Proof.
  destruct o as [code|]; unfold well_formed; [|discriminate].
  intro H. apply andb_true_iff in H as [Hlen Hchars].
  exists code. split; [reflexivity|]. split.
  - now apply Z.eqb_eq.
  - apply Forall_forall. intros c Hc.
    rewrite forallb_forall in Hchars. apply mem_In. now apply Hchars.
Qed.

End IssuerFacts.

(** C8. With the fixed salt, length and alphabet, the identifier issued
    for a sequence number in 1..10000 exists, has exactly the configured
    length, uses only characters of the configured alphabet, is the same
    whenever the sequence number is the same, and differs from the
    identifier of every other sequence number in that range. *)
Theorem C8_issue_deterministic_injective (i j : Z)
    (Hi : 1 <= i <= 10000) (Hj : 1 <= j <= 10000) :
  (exists code,
      Rebuild.generate_id i = Some code /\
      len code = Rebuild.ID_LENGTH /\
      Forall (fun c => In c Rebuild.ID_ALPHABET) code) /\
  (i = j -> Rebuild.generate_id i = Rebuild.generate_id j) /\
  (Rebuild.generate_id i = Rebuild.generate_id j -> i = j).
Proof.
  destruct (IssuerFacts.range_facts i j Hi Hj) as [Hwf Hinj].
  split; [|split].
  - apply IssuerFacts.well_formed_spec. exact Hwf.
  - intros ->. reflexivity.
  - exact Hinj.
Qed.

Lemma C8_issue_witness :
  (exists code,
      Rebuild.generate_id 1 = Some code /\
      len code = Rebuild.ID_LENGTH /\
      Forall (fun c => In c Rebuild.ID_ALPHABET) code) /\
  (1 = 2 -> Rebuild.generate_id 1 = Rebuild.generate_id 2) /\
  (Rebuild.generate_id 1 = Rebuild.generate_id 2 -> 1 = 2).
Proof. apply (C8_issue_deterministic_injective 1 2); lia. Defined.

(* ===================================================================== *)
(** * Selecting the identifier column of the manual list *)
(* ===================================================================== *)

(** C9, as stated, fails: a column that merely contains the marker and
    stands to the left of the exact alias is the one selected. *)
Lemma C9_counterexample :
  str_in (u "自社UID") Step7.uid_patterns = true /\
  str_in (u "旧UIDメモ") Step7.uid_patterns = false /\
  @Step7.find_uid_column Reference.platform
     [u "得意先コード"; u "旧UIDメモ"; u "自社UID"] = Some (u "旧UIDメモ").
Proof. vm_compute. repeat split; reflexivity. Qed.

Section ColumnScan.
Context `{P : Platform}.

(** C9, amended. The selected column is the leftmost one whose name
    passes the test (an exact alias, or the marker anywhere in the
    upper-cased name), so an exact alias is selected only when no column to
    its left passes; the older tool selects the leftmost column containing
    one of its three markers.  A row of the manual list goes on to the
    merge only if its cell in the selected column, once cleaned, is not
    empty. *)
Theorem C9_uid_column_leftmost (cols : list str) (c : str) :
  (Step7.find_uid_column cols = Some c <->
   exists pre post, cols = pre ++ c :: post /\
                    Step7.is_uid_column c = true /\
                    Forall (fun x => Step7.is_uid_column x = false) pre) /\
  (Step3.find_uid_column cols = Some c <->
   exists pre post, cols = pre ++ c :: post /\
                    Step3.has_marker c = true /\
                    Forall (fun x => Step3.has_marker x = false) pre) /\
  (forall (df : frame) (r : row),
      In r (Step7.manual_rows c df) ->
      exists r0, In r0 (rows df) /\
                 Step7.clean_value (cell c r0) <> [] /\
                 r = set c (VStr (Step7.clean_value (cell c r0))) r0).
Proof.
  split; [apply find_leftmost|]. split; [apply find_leftmost|].
  intros df r Hr. unfold Step7.manual_rows, apply_col in Hr.
  apply filter_In in Hr as [Hin Hne].
  apply in_map_iff in Hin as (r0 & <- & Hr0).
  exists r0. split; [assumption|]. split; [|reflexivity].
  rewrite cell_set_same in Hne. simpl in Hne.
  apply negb_true_iff in Hne. intro E. rewrite E in Hne. discriminate.
Qed.

End ColumnScan.

Lemma C9_uid_column_witness :
  exists r0,
    In r0 [[(u "得意先コード", VInt 5); (u "自社UID", VStr (u " AB12 "))]] /\
    @Step7.clean_value Reference.platform (cell (u "自社UID") r0) <> [] /\
    [(u "得意先コード", VInt 5); (u "自社UID", VStr (u "AB12"))] =
    set (u "自社UID")
        (VStr (@Step7.clean_value Reference.platform (cell (u "自社UID") r0))) r0.
Proof.
  apply (proj2 (proj2 (@C9_uid_column_leftmost Reference.platform
                         [u "得意先コード"; u "自社UID"] (u "自社UID")))
               (mk_frame [u "得意先コード"; u "自社UID"]
                  [[(u "得意先コード", VInt 5); (u "自社UID", VStr (u " AB12 "))]])).
  vm_compute. left. reflexivity.
Defined.

(* ===================================================================== *)
(** * Postal codes *)
(* ===================================================================== *)

Module PostalFacts.

(** [NNN-NNNN] from seven characters. *)
Definition hyphenate (s : str) : str := take 3 s ++ u "-" ++ drop 3 s.

Lemma length_zfill (w : nat) (s : str) :
  (length s <= w)%nat -> length (zfill w s) = w.
Proof.
  intro H. unfold zfill. rewrite length_app, repeat_length. lia.
Qed.

Lemma zfill_all_decimal (w : nat) (s : str) :
  forallb isdecimal s = true -> forallb isdecimal (zfill w s) = true.
Proof.
  intro H. unfold zfill. rewrite forallb_app. apply andb_true_iff. split.
  - apply forallb_forall. intros x Hx. apply repeat_spec in Hx. now subst.
  - exact H.
Qed.

Lemma digits_only_decimal (s : str) : forallb isdecimal (digits_only s) = true.
Proof.
  apply forallb_forall. intros x Hx. unfold digits_only in Hx.
  now apply filter_In in Hx.
Qed.

Section WithPlatform.
Context `{P : Platform}.

(** The text the function works on: a number is truncated to an integer
    and printed, anything else is printed and stripped. *)
Definition postal_text (val : value) : str :=
  match val with
  | VInt n => str_of_int n
  | VFloat q => str_of_int (Qtrunc q)
  | _ => strip (py_str val)
  end.

(** That text with widths unified, the postal mark removed, stripped. *)
Definition postal_cleaned (val : value) : str :=
  strip (remove_all (u "〒") (Mojimoji.zen_to_han true true true (postal_text val))).

Definition is_null (val : value) : bool :=
  isna val || str_in (lower (postal_text val)) Rebuild.NULL_WORDS.

Lemma step5_unfold (val : value) :
  Step5.normalize_postal_code val =
  if is_null val then []
  else
    let d := digits_only (postal_cleaned val) in
    let d' := if (length d <=? 6)%nat && (1 <=? length d)%nat
              then zfill 7 d else d in
    if (length d' =? 7)%nat then hyphenate d' else postal_cleaned val.
Proof.
  unfold Step5.normalize_postal_code, is_null, postal_cleaned, postal_text,
    hyphenate, Rebuild.NULL_WORDS.
  destruct val; reflexivity.
Qed.

Lemma step1_unfold (val : value) :
  Step1.normalize_postal_code val =
  if is_null val then []
  else
    let d := digits_only (postal_cleaned val) in
    let d' := if (length d <=? 6)%nat then zfill 7 d else d in
    if (length d' =? 7)%nat then hyphenate d' else postal_cleaned val.
Proof.
  unfold Step1.normalize_postal_code, is_null, postal_cleaned, postal_text,
    hyphenate, Rebuild.NULL_WORDS.
  destruct val; reflexivity.
Qed.

Lemma rebuild_is_step1 (val : value) :
  Rebuild.normalize_postal_code val = Step1.normalize_postal_code val.
Proof. reflexivity. Qed.

End WithPlatform.
End PostalFacts.

(** C7, as stated, fails: a text without any digit is not turned into
    the empty string; the step-5 function hands it back. *)
Lemma C7_counterexample :
  digits_only (u "abc") = [] /\
  @Step5.normalize_postal_code Reference.platform (VStr (u "abc")) = u "abc" /\
  u "abc" <> [].
Proof. vm_compute. repeat split. discriminate. Qed.

Section Postal.
Context `{P : Platform}.
Import PostalFacts.

(** C7, amended. A missing value, or one whose text is nan, none, null,
    nat or empty, gives the empty string.  Otherwise the digits left after
    width unification decide: one to six digits are zero-padded to seven
    and written NNN-NNNN, exactly seven are written NNN-NNNN, and with more
    than seven the width-unified, stripped text is returned; with no digit
    at all the step-5 function returns that text too. *)
Theorem C7_postal_amended (val : value) :
  let d := digits_only (postal_cleaned val) in
  (is_null val = true ->
     Step5.normalize_postal_code val = [] /\
     Step1.normalize_postal_code val = [] /\
     Rebuild.normalize_postal_code val = []) /\
  (is_null val = false ->
     ((1 <= length d <= 7)%nat ->
        Step5.normalize_postal_code val = hyphenate (zfill 7 d) /\
        Step1.normalize_postal_code val = hyphenate (zfill 7 d) /\
        Rebuild.normalize_postal_code val = hyphenate (zfill 7 d) /\
        length (zfill 7 d) = 7%nat /\
        forallb isdecimal (zfill 7 d) = true /\
        length (hyphenate (zfill 7 d)) = 8%nat) /\
     ((7 < length d)%nat ->
        Step5.normalize_postal_code val = postal_cleaned val /\
        Step1.normalize_postal_code val = postal_cleaned val /\
        Rebuild.normalize_postal_code val = postal_cleaned val) /\
     (length d = 0%nat ->
        Step5.normalize_postal_code val = postal_cleaned val)).
Proof.
  intro d. split.
  - intro Hn.
    change (Rebuild.normalize_postal_code val) with (Step1.normalize_postal_code val).
    rewrite step5_unfold, step1_unfold, Hn. auto.
  - intro Hn.
    change (Rebuild.normalize_postal_code val) with (Step1.normalize_postal_code val).
    rewrite step5_unfold, step1_unfold, Hn.
    subst d. cbv beta iota zeta.
    remember (digits_only (postal_cleaned val)) as d eqn:Ed.
    split; [|split].
    + intro Hd.
      assert (Hz : length (zfill 7 d) = 7%nat) by (apply length_zfill; lia).
      assert (E7 : length d = 7%nat -> zfill 7 d = d).
      { intro E. unfold zfill. rewrite E. reflexivity. }
      assert (H5 : (if (length (if (length d <=? 6)%nat && (1 <=? length d)%nat
                                then zfill 7 d else d) =? 7)%nat
                    then hyphenate (if (length d <=? 6)%nat && (1 <=? length d)%nat
                                    then zfill 7 d else d)
                    else postal_cleaned val) = hyphenate (zfill 7 d)).
      { destruct (length d <=? 6)%nat eqn:L6; cbn [andb].
        - destruct (1 <=? length d)%nat eqn:L1.
          + now rewrite Hz.
          + apply Nat.leb_gt in L1. lia.
        - apply Nat.leb_gt in L6. assert (length d = 7%nat) as E by lia.
          rewrite E7 by assumption. now rewrite E. }
      assert (H1 : (if (length (if (length d <=? 6)%nat then zfill 7 d else d) =? 7)%nat
                    then hyphenate (if (length d <=? 6)%nat then zfill 7 d else d)
                    else postal_cleaned val) = hyphenate (zfill 7 d)).
      { destruct (length d <=? 6)%nat eqn:L6.
        - now rewrite Hz.
        - apply Nat.leb_gt in L6. assert (length d = 7%nat) as E by lia.
          rewrite E7 by assumption. now rewrite E. }
      split; [exact H5|]. split; [exact H1|]. split; [exact H1|].
      split; [exact Hz|]. split.
      * apply zfill_all_decimal. subst d. apply digits_only_decimal.
      * unfold hyphenate, take, drop.
        rewrite !length_app, length_firstn, length_skipn, Hz. reflexivity.
    + intro Hd.
      assert (L6 : (length d <=? 6)%nat = false) by (apply Nat.leb_gt; lia).
      rewrite L6. cbn [andb].
      assert (L7 : (length d =? 7)%nat = false) by (apply Nat.eqb_neq; lia).
      rewrite L7. auto.
    + intro Hd. rewrite Hd.
      change ((0 <=? 6)%nat && (1 <=? 0)%nat) with false. cbv iota.
      rewrite Hd. reflexivity.
Qed.

End Postal.

(** The worked examples of the specification, on the reference platform. *)
Lemma postal_examples :
  @Step5.normalize_postal_code Reference.platform (VStr (u "123")) = u "000-0123" /\
  @Step5.normalize_postal_code Reference.platform (VStr (u "1234567")) = u "123-4567" /\
  @Step5.normalize_postal_code Reference.platform (VStr (u "123-4567")) = u "123-4567" /\
  @Step5.normalize_postal_code Reference.platform (VStr (u "１２３ー４５６７")) = u "123-4567" /\
  @Step1.normalize_postal_code Reference.platform (VInt 1234567) = u "123-4567" /\
  @Step1.normalize_postal_code Reference.platform (VStr (u "abc")) = u "000-0000".
Proof. vm_compute. repeat split. Qed.

Lemma C7_postal_witness :
  @Step5.normalize_postal_code Reference.platform (VStr (u "123")) =
    PostalFacts.hyphenate (zfill 7 (u "123")) /\
  @Step1.normalize_postal_code Reference.platform (VStr (u "123")) =
    PostalFacts.hyphenate (zfill 7 (u "123")) /\
  @Rebuild.normalize_postal_code Reference.platform (VStr (u "123")) =
    PostalFacts.hyphenate (zfill 7 (u "123")) /\
  length (zfill 7 (u "123")) = 7%nat /\
  forallb isdecimal (zfill 7 (u "123")) = true /\
  length (PostalFacts.hyphenate (zfill 7 (u "123"))) = 8%nat.
Proof.
  apply (proj1 (proj2 (@C7_postal_amended Reference.platform (VStr (u "123")))
                      eq_refl)).
  vm_compute. lia.
Defined.

(* ===================================================================== *)
(** * Dates *)
(* ===================================================================== *)

Module DateFacts.

Definition ascii_digit (c : Z) : bool := in_range 48 57 c.

(** The shape [YYYY/MM/DD]. *)
Definition is_ymd (s : str) : bool :=
  match s with
  | [y1; y2; y3; y4; s1; m1; m2; s2; d1; d2] =>
    forallb ascii_digit [y1; y2; y3; y4; m1; m2; d1; d2] &&
    (s1 =? ch "/") && (s2 =? ch "/")
  | _ => false
  end.

(** A calendar date with a four-digit year. *)
Definition valid_date (d : date) : Prop :=
  1000 <= year d <= 9999 /\ 1 <= month d <= 12 /\ 1 <= day d <= 31.

Definition valid_dateb (d : date) : bool :=
  (1000 <=? year d) && (year d <=? 9999) && (1 <=? month d) &&
  (month d <=? 12) && (1 <=? day d) && (day d <=? 31).

(** [n] decimal ASCII digits. *)
Definition digits_n (n : nat) (s : str) : bool :=
  (length s =? n)%nat && forallb ascii_digit s.

(** [f] holds on the [n] integers from [lo] on. *)
Fixpoint all_from (f : Z -> bool) (n : nat) (lo : Z) : bool :=
  match n with
  | O => true
  | S k => f lo && all_from f k (lo + 1)
  end.

(** The texts the string branch treats as missing. *)
Definition null_text `{Platform} (s : str) : bool :=
  str_in (lower (strip s)) Rebuild.NULL_WORDS.

(** A text of four or five digits. *)
Definition serial_text (s : str) : bool :=
  isdigit (strip s) && (4 <=? length (strip s))%nat && (length (strip s) <=? 5)%nat.

Lemma valid_dateb_spec (d : date) : valid_dateb d = true -> valid_date d.
Proof.
  unfold valid_dateb, valid_date. intro H.
  repeat (apply andb_true_iff in H as [H ?]).
  repeat match goal with
         | X : (_ <=? _) = true |- _ => apply Z.leb_le in X
         end. lia.
Qed.

Lemma all_from_spec (f : Z -> bool) (n : nat) (lo z : Z) :
  all_from f n lo = true -> lo <= z < lo + Z.of_nat n -> f z = true.
Proof.
  revert lo. induction n as [|k IH]; intros lo H Hz; [lia|].
  cbn [all_from] in H. apply andb_true_iff in H as [H0 H1].
  destruct (Z.eq_dec z lo) as [->|Hne]; [exact H0|].
  apply (IH (lo + 1)); [exact H1 | lia].
Qed.

(** Every year from 1000 to 9999 prints as four digits, every number from
    1 to 31 as two after padding; every serial from 1 to 73050 is a
    calendar date. *)
Lemma years_checked :
  all_from (fun y => digits_n 4 (zfill 4 (str_of_int y))) (Z.to_nat 9000) 1000 = true.
Proof. vm_compute. reflexivity. Qed.

Lemma small_checked :
  all_from (fun k => digits_n 2 (zfill 2 (str_of_int k))) (Z.to_nat 31) 1 = true.
Proof. vm_compute. reflexivity. Qed.

Lemma serials_checked :
  all_from (fun n => valid_dateb (from_serial n)) (Z.to_nat 73050) 1 = true.
Proof. vm_compute. reflexivity. Qed.

Lemma from_serial_valid (n : Z) :
  1 <= n <= 73050 -> valid_date (from_serial n).
Proof.
  intro Hn. apply valid_dateb_spec.
  apply (all_from_spec (fun n => valid_dateb (from_serial n))
                       (Z.to_nat 73050) 1 n serials_checked).
  rewrite Z2Nat.id; lia.
Qed.

Lemma ymd_of_parts (a b c : str) :
  digits_n 4 a = true -> digits_n 2 b = true -> digits_n 2 c = true ->
  is_ymd (a ++ u "/" ++ b ++ u "/" ++ c) = true.
Proof.
  unfold digits_n. intros Ha Hb Hc.
  apply andb_true_iff in Ha as [La Da].
  apply andb_true_iff in Hb as [Lb Db].
  apply andb_true_iff in Hc as [Lc Dc].
  apply Nat.eqb_eq in La, Lb, Lc.
  destruct a as [|a1 [|a2 [|a3 [|a4 [|]]]]]; try discriminate.
  destruct b as [|b1 [|b2 [|]]]; try discriminate.
  destruct c as [|c1 [|c2 [|]]]; try discriminate.
  cbn [forallb] in Da, Db, Dc.
  repeat match goal with
         | X : (_ && _) = true |- _ => apply andb_true_iff in X as [? ?]
         end.
  change (u "/") with [47]. cbn [app is_ymd forallb].
  change (ch "/") with 47. rewrite !Z.eqb_refl.
  repeat match goal with
         | X : ascii_digit _ = true |- _ => rewrite X; clear X
         end.
  reflexivity.
Qed.

Lemma padded_year (y : Z) :
  1000 <= y <= 9999 -> digits_n 4 (zfill 4 (str_of_int y)) = true.
Proof.
  intro Hy.
  apply (all_from_spec (fun y => digits_n 4 (zfill 4 (str_of_int y)))
                       (Z.to_nat 9000) 1000 y years_checked).
  rewrite Z2Nat.id; lia.
Qed.

Lemma padded_small (k : Z) :
  1 <= k <= 31 -> digits_n 2 (zfill 2 (str_of_int k)) = true.
Proof.
  intro Hk.
  apply (all_from_spec (fun k => digits_n 2 (zfill 2 (str_of_int k)))
                       (Z.to_nat 31) 1 k small_checked).
  rewrite Z2Nat.id; lia.
Qed.

Lemma strftime_is_ymd (d : date) :
  valid_date d -> is_ymd (strftime_ymd d) = true.
Proof.
  intros (Hy & Hm & Hd). unfold strftime_ymd. apply ymd_of_parts.
  - now apply padded_year.
  - apply padded_small. lia.
  - now apply padded_small.
Qed.

Lemma floor_in_range (q : Q) :
  Qle_bool 1 q && Qle_bool q 73050 = true -> 1 <= Qfloor q <= 73050.
Proof.
  intro H. apply andb_true_iff in H as [H1 H2].
  apply Qle_bool_iff in H1, H2.
  apply Qfloor_resp_le in H1, H2.
  change (Qfloor 1) with 1 in H1. change (Qfloor 73050) with 73050 in H2. lia.
Qed.

Lemma range_true (n : Z) : (1 <=? n) && (n <=? 73050) = true <-> 1 <= n <= 73050.
Proof. rewrite andb_true_iff, !Z.leb_le. tauto. Qed.

Lemma range_false (n : Z) :
  (1 <=? n) && (n <=? 73050) = false <-> ~ (1 <= n <= 73050).
Proof.
  rewrite <- range_true. destruct ((1 <=? n) && (n <=? 73050)); split; congruence.
Qed.

Lemma float_range_true (q : Q) :
  Qle_bool 1 q && Qle_bool q 73050 = true <-> (1 <= q)%Q /\ (q <= 73050)%Q.
Proof. rewrite andb_true_iff, !Qle_bool_iff. tauto. Qed.

Lemma float_range_false (q : Q) :
  Qle_bool 1 q && Qle_bool q 73050 = false <-> ~ ((1 <= q)%Q /\ (q <= 73050)%Q).
Proof.
  rewrite <- float_range_true.
  destruct (Qle_bool 1 q && Qle_bool q 73050); split; congruence.
Qed.

Lemma days_in_month_le (y m : Z) : Reference.days_in_month y m <= 31.
Proof.
  unfold Reference.days_in_month.
  destruct (m =? 2); [destruct (Reference.is_leap y); lia|].
  destruct ((m =? 4) || (m =? 6) || (m =? 9) || (m =? 11)); lia.
Qed.

(** The reference parser only returns calendar months and days. *)
Lemma parse_ymd_calendar (s : str) (d : date) :
  Reference.parse_ymd s = Some d -> 1 <= month d <= 12 /\ 1 <= day d <= 31.
Proof.
  unfold Reference.parse_ymd.
  destruct (Reference.span_digits s) as [ys r1].
  destruct r1 as [|sep1 r1']; [discriminate|].
  destruct (Reference.span_digits r1') as [ms r2].
  destruct r2 as [|sep2 r2']; [discriminate|].
  destruct (Reference.span_digits r2') as [ds r3].
  cbv zeta.
  match goal with
  | |- (if ?c then _ else _) = _ -> _ => destruct c eqn:E
  end; [|discriminate].
  intro H. inversion H; subst; clear H. cbn [month day].
  repeat (apply andb_true_iff in E as [E ?]).
  repeat match goal with
         | X : (_ <=? _) = true |- _ => apply Z.leb_le in X
         end.
  pose proof (days_in_month_le (Reference.number_of ys) (Reference.number_of ms)).
  lia.
Qed.

End DateFacts.

(** C6, as stated, fails for the sales integration: its [parse_date] hands
    a text that does not parse back unchanged, and applies no bound on the
    year. *)
Lemma C6_counterexample :
  @Step4.parse_date Reference.platform (VStr (u "2024/13/40")) = u "2024/13/40" /\
  u "2024/13/40" <> [] /\
  @Step4.parse_date Reference.platform (VStr (u "abc")) = u "abc" /\
  DateFacts.is_ymd (u "abc") = false /\
  u "abc" <> [] /\
  @Step4.parse_date Reference.platform (VStr (u "1900/01/01")) = u "1900/01/01".
Proof. vm_compute. repeat split; discriminate. Qed.

Section Dates.
Context `{P : Platform}.
Import DateFacts.

(** C6, amended.  With date cells that carry a four-digit year and a
    free-text parser that returns calendar months and days, [parse_date]
    of the registry build returns the empty string or a text of the form
    YYYY/MM/DD.  Both functions give the empty string for a missing cell
    and for a text that reads nan, none, null, nat or nothing, format a
    date cell, convert a number in [1, 73050], integer or float, from the
    1899-12-30 epoch by its whole days and give the empty string for any
    other number.  The registry build converts a text of four or five
    digits in that range the same way, and gives the empty string for a
    text that does not parse or whose year is outside [1950, 2100] unless
    it is such a serial.  The sales integration returns a text that does
    not parse stripped and unchanged, and formats every parsed date
    whatever its year. *)
Theorem C6_parse_date_amended (val : value)
  (Hcell : forall d, val = VDate d -> valid_date d)
  (Hlib : forall s d, to_datetime s = Some d ->
                      1 <= month d <= 12 /\ 1 <= day d <= 31) :
  (Rebuild.parse_date val = [] \/ is_ymd (Rebuild.parse_date val) = true) /\
  (val = VNaN -> Rebuild.parse_date val = [] /\ Step4.parse_date val = []) /\
  (forall s, val = VStr s -> null_text s = true ->
     Rebuild.parse_date val = [] /\ Step4.parse_date val = []) /\
  (forall d, val = VDate d ->
     Rebuild.parse_date val = strftime_ymd d /\
     Step4.parse_date val = strftime_ymd d) /\
  (forall n, val = VInt n -> 1 <= n <= 73050 ->
     Rebuild.parse_date val = strftime_ymd (from_serial n) /\
     Step4.parse_date val = strftime_ymd (from_serial n)) /\
  (forall n, val = VInt n -> ~ (1 <= n <= 73050) ->
     Rebuild.parse_date val = [] /\ Step4.parse_date val = []) /\
  (forall q, val = VFloat q -> (1 <= q)%Q /\ (q <= 73050)%Q ->
     1 <= Qfloor q <= 73050 /\
     Rebuild.parse_date val = strftime_ymd (from_serial (Qfloor q)) /\
     Step4.parse_date val = strftime_ymd (from_serial (Qfloor q))) /\
  (forall q, val = VFloat q -> ~ ((1 <= q)%Q /\ (q <= 73050)%Q) ->
     Rebuild.parse_date val = [] /\ Step4.parse_date val = []) /\
  (forall s n, val = VStr s -> null_text s = false -> serial_text s = true ->
     Rebuild.int_of_digits (strip s) = Some n -> 1 <= n <= 73050 ->
     Rebuild.parse_date val = strftime_ymd (from_serial n)) /\
  (forall s, val = VStr s ->
     (to_datetime (strip s) = None \/
      exists d, to_datetime (strip s) = Some d /\
                (year d < 1950 \/ 2100 < year d)) ->
     Rebuild.parse_date val = [] \/
     exists n, serial_text s = true /\
               Rebuild.int_of_digits (strip s) = Some n /\ 1 <= n <= 73050 /\
               Rebuild.parse_date val = strftime_ymd (from_serial n)) /\
  (forall s, val = VStr s -> null_text s = false ->
     to_datetime (strip s) = None -> Step4.parse_date val = strip s) /\
  (forall s d, val = VStr s -> null_text s = false ->
     to_datetime (strip s) = Some d -> Step4.parse_date val = strftime_ymd d).
Proof.
  split; [|split; [|split; [|split; [|split; [|split; [|split; [|split;
    [|split; [|split; [|split]]]]]]]]]].
  - destruct val as [|s|n|q|d].
    + left. reflexivity.
    + unfold Rebuild.parse_date. cbv zeta.
      destruct (str_in (lower (strip s)) Rebuild.NULL_WORDS); [now left|].
      assert (Hft : match to_datetime (strip s) with
                    | None => []
                    | Some parsed =>
                      if (year parsed <? 1950) || (2100 <? year parsed) then []
                      else strftime_ymd parsed
                    end = [] \/
                    is_ymd match to_datetime (strip s) with
                           | None => []
                           | Some parsed =>
                             if (year parsed <? 1950) || (2100 <? year parsed) then []
                             else strftime_ymd parsed
                           end = true).
      { destruct (to_datetime (strip s)) as [d|] eqn:Ed; [|now left].
        destruct ((year d <? 1950) || (2100 <? year d)) eqn:Ey; [now left|].
        right. apply strftime_is_ymd.
        apply orb_false_iff in Ey as [Y1 Y2].
        apply Z.ltb_ge in Y1, Y2.
        destruct (Hlib _ _ Ed) as [Hm Hd]. unfold valid_date. lia. }
      destruct (isdigit (strip s) && (4 <=? length (strip s))%nat &&
                (length (strip s) <=? 5)%nat); [|exact Hft].
      destruct (Rebuild.int_of_digits (strip s)) as [n|]; [|now left].
      destruct ((1 <=? n) && (n <=? 73050)) eqn:Er; [|exact Hft].
      right. apply strftime_is_ymd, from_serial_valid. now apply range_true.
    + unfold Rebuild.parse_date.
      destruct ((1 <=? n) && (n <=? 73050)) eqn:Er; [|now left].
      right. apply strftime_is_ymd, from_serial_valid. now apply range_true.
    + unfold Rebuild.parse_date.
      destruct (Qle_bool 1 q && Qle_bool q 73050) eqn:Er; [|now left].
      right. apply strftime_is_ymd, from_serial_valid. now apply floor_in_range.
    + right. apply strftime_is_ymd. now apply Hcell.
  - intros ->. split; reflexivity.
  - intros s -> Hnull. unfold null_text in Hnull.
    unfold Rebuild.parse_date, Step4.parse_date. cbv zeta.
    change [u "nan"; u "none"; u "null"; u "nat"; u ""] with Rebuild.NULL_WORDS.
    rewrite Hnull. split; reflexivity.
  - intros d ->. split; reflexivity.
  - intros n -> Hn. apply range_true in Hn.
    unfold Rebuild.parse_date, Step4.parse_date. rewrite Hn. split; reflexivity.
  - intros n -> Hn. apply range_false in Hn.
    unfold Rebuild.parse_date, Step4.parse_date. rewrite Hn. split; reflexivity.
  - intros q -> Hq. apply float_range_true in Hq.
    split; [now apply floor_in_range|].
    unfold Rebuild.parse_date, Step4.parse_date. rewrite Hq. split; reflexivity.
  - intros q -> Hq. apply float_range_false in Hq.
    unfold Rebuild.parse_date, Step4.parse_date. rewrite Hq. split; reflexivity.
  - intros s n -> Hnull Hser Hint Hn. apply range_true in Hn.
    unfold null_text in Hnull. unfold serial_text in Hser.
    unfold Rebuild.parse_date. cbv zeta. rewrite Hnull, Hser, Hint, Hn.
    reflexivity.
  - intros s -> Hfail.
    unfold Rebuild.parse_date. cbv zeta.
    destruct (str_in (lower (strip s)) Rebuild.NULL_WORDS); [now left|].
    assert (Hft : match to_datetime (strip s) with
                  | None => []
                  | Some parsed =>
                    if (year parsed <? 1950) || (2100 <? year parsed) then []
                    else strftime_ymd parsed
                  end = []).
    { destruct Hfail as [E|(d & E & Hy)]; rewrite E; [reflexivity|].
      assert ((year d <? 1950) || (2100 <? year d) = true) as ->; [|reflexivity].
      apply orb_true_iff. destruct Hy; [left|right]; now apply Z.ltb_lt. }
    rewrite Hft. unfold serial_text.
    destruct (isdigit (strip s) && (4 <=? length (strip s))%nat &&
              (length (strip s) <=? 5)%nat); [|now left].
    destruct (Rebuild.int_of_digits (strip s)) as [n|]; [|now left].
    destruct ((1 <=? n) && (n <=? 73050)) eqn:Er; [|now left].
    right. exists n. apply range_true in Er. auto.
  - intros s -> Hnull E. unfold null_text in Hnull.
    unfold Step4.parse_date. cbv zeta.
    change [u "nan"; u "none"; u "null"; u "nat"; u ""] with Rebuild.NULL_WORDS.
    rewrite Hnull, E. reflexivity.
  - intros s d -> Hnull E. unfold null_text in Hnull.
    unfold Step4.parse_date. cbv zeta.
    change [u "nan"; u "none"; u "null"; u "nat"; u ""] with Rebuild.NULL_WORDS.
    rewrite Hnull, E. reflexivity.
Qed.

End Dates.

(** The worked examples of the specification for the registry build, on
    the reference platform. *)
Lemma date_examples :
  @Rebuild.parse_date Reference.platform (VInt 45000) = u "2023/03/15" /\
  @Rebuild.parse_date Reference.platform (VInt 80000) = [] /\
  @Rebuild.parse_date Reference.platform (VStr (u "2024/13/40")) = [] /\
  @Rebuild.parse_date Reference.platform (VStr (u "45000")) = u "2023/03/15" /\
  @Rebuild.parse_date Reference.platform (VStr (u "1900/01/01")) = [] /\
  @Rebuild.parse_date Reference.platform (VStr (u " 2024-3-5 ")) = u "2024/03/05" /\
  @Rebuild.parse_date Reference.platform (VFloat (450007 # 10)) = u "2023/03/15" /\
  @Step4.parse_date Reference.platform (VFloat (450007 # 10)) = u "2023/03/15" /\
  @Rebuild.parse_date Reference.platform (VFloat (1 # 2)) = [] /\
  @Step4.parse_date Reference.platform (VNaN) = [] /\
  @Step4.parse_date Reference.platform (VStr (u " NaT ")) = [] /\
  from_serial 1 = mk_date 1899 12 31 /\
  from_serial 73050 = mk_date 2099 12 31.
Proof. vm_compute. repeat split. Qed.

Lemma C6_parse_date_witness :
  DateFacts.valid_date (mk_date 2024 3 15) /\
  (@Rebuild.parse_date Reference.platform (VDate (mk_date 2024 3 15)) = [] \/
   DateFacts.is_ymd
     (@Rebuild.parse_date Reference.platform (VDate (mk_date 2024 3 15))) = true).
Proof.
  assert (Hv : DateFacts.valid_date (mk_date 2024 3 15)).
  { unfold DateFacts.valid_date. cbn [year month day]. lia. }
  split; [exact Hv|].
  apply (@C6_parse_date_amended Reference.platform (VDate (mk_date 2024 3 15))).
  - intros d E. inversion E; subst. exact Hv.
  - exact DateFacts.parse_ymd_calendar.
Defined.
(* ===================================================================== *)
(** * The text normalizers *)
(* ===================================================================== *)

Module NormalizeFacts.

(** Characters the width unification leaves alone. *)
Definition stable_width (c : Z) : bool :=
  str_eqb (Mojimoji.zen_to_han_char true true false c) [c].

Definition not_half_kana (c : Z) : bool :=
  match Mojimoji.lookup Mojimoji.KANA_HANKAKU_CHARS Mojimoji.KANA_ZENKAKU_CHARS c with
  | None => true
  | Some _ => false
  end.

Definition stable_numeral (c : Z) : bool := Step5.KANJI_NUM_MAP c =? c.

Definition plain (c : Z) : bool :=
  stable_width c && not_half_kana c && stable_numeral c.

(** Characters no stage of a normalizer rewrites or removes. *)
Definition settled (noise : Z -> bool) (c : Z) : bool :=
  plain c && negb (noise c).

(** None of the titles occurs in [k]. *)
Definition title_free (titles : list str) (k : str) : bool :=
  forallb (fun t => negb (contains t k)) titles.

(** The stages the normalizers share. *)
Definition core (titles : list str) (noise : Z -> bool) (s : str) : str :=
  filter (fun c => negb (noise c))
    (fold_left (fun t title => remove_all title t) titles
       (translate Step5.KANJI_NUM_MAP
          (Mojimoji.han_to_zen false false true
             (Mojimoji.zen_to_han true true false s)))).

(** The voiced character a voicing mark [c] merges into, given the
    character before it. *)
Definition merged (prev : option Z) (c : Z) : option Z :=
  match prev with
  | Some p =>
    if c =? Mojimoji.TEN
    then Mojimoji.lookup Mojimoji.KANA_TEN_HANKAKU Mojimoji.KANA_TEN_ZENKAKU p
    else if c =? Mojimoji.MARU
    then Mojimoji.lookup Mojimoji.KANA_MARU_HANKAKU Mojimoji.KANA_MARU_ZENKAKU p
    else None
  | None => None
  end.

(** One iteration of the kana widening loop. *)
Definition kana_step (prev : option Z) (out : str) (c : Z) : str :=
  match merged prev c with
  | Some z => z :: tl out
  | None =>
    match Mojimoji.lookup Mojimoji.KANA_HANKAKU_CHARS Mojimoji.KANA_ZENKAKU_CHARS c with
    | Some z => z :: out
    | None => c :: out
    end
  end.

Definition wide (c : Z) : bool := stable_width c && not_half_kana c.

Lemma lookup_Some_In (keys vals : str) (c v : Z) :
  Mojimoji.lookup keys vals c = Some v -> In v vals.
Proof.
  revert vals. induction keys as [|k keys IH]; intros [|w vals] H;
    try discriminate.
  cbn [Mojimoji.lookup] in H. destruct (c =? k).
  - inversion H; subst. now left.
  - right. now apply IH.
Qed.

Lemma images_checked :
  forallb stable_width (Mojimoji.ASCII_HANKAKU_CHARS ++ Mojimoji.DIGIT_HANKAKU_CHARS) = true /\
  forallb wide
    (Mojimoji.KANA_ZENKAKU_CHARS ++ Mojimoji.KANA_TEN_ZENKAKU ++
     Mojimoji.KANA_MARU_ZENKAKU) = true /\
  forallb plain (u "1234567890") = true /\
  not_half_kana Mojimoji.TEN = false /\
  not_half_kana Mojimoji.MARU = false.
Proof. vm_compute. repeat split. Qed.

Lemma stable_ascii (h : Z) :
  In h Mojimoji.ASCII_HANKAKU_CHARS -> stable_width h = true.
Proof.
  intro H. destruct images_checked as [C _].
  rewrite forallb_forall in C. apply C, in_or_app. now left.
Qed.

Lemma stable_digit (h : Z) :
  In h Mojimoji.DIGIT_HANKAKU_CHARS -> stable_width h = true.
Proof.
  intro H. destruct images_checked as [C _].
  rewrite forallb_forall in C. apply C, in_or_app. now right.
Qed.

Lemma stable_kana (z : Z) :
  In z (Mojimoji.KANA_ZENKAKU_CHARS ++ Mojimoji.KANA_TEN_ZENKAKU ++
        Mojimoji.KANA_MARU_ZENKAKU) ->
  wide z = true.
Proof.
  intro H. destruct images_checked as (_ & C & _).
  rewrite forallb_forall in C. now apply C.
Qed.

Lemma plain_digit (d : Z) : In d (u "1234567890") -> plain d = true.
Proof.
  intro H. destruct images_checked as (_ & _ & C & _).
  rewrite forallb_forall in C. now apply C.
Qed.

Lemma zen_char_unfold (c : Z) :
  Mojimoji.zen_to_han_char true true false c =
  match Mojimoji.lookup Mojimoji.ASCII_ZENKAKU_CHARS Mojimoji.ASCII_HANKAKU_CHARS c with
  | Some h => [h]
  | None =>
    match Mojimoji.lookup Mojimoji.DIGIT_ZENKAKU_CHARS Mojimoji.DIGIT_HANKAKU_CHARS c with
    | Some h => [h]
    | None => [c]
    end
  end.
Proof. reflexivity. Qed.

Lemma zen_to_han_char_cases (c : Z) :
  exists h, Mojimoji.zen_to_han_char true true false c = [h] /\
            stable_width h = true.
Proof.
  rewrite zen_char_unfold.
  destruct (Mojimoji.lookup Mojimoji.ASCII_ZENKAKU_CHARS
                            Mojimoji.ASCII_HANKAKU_CHARS c) as [h|] eqn:E1.
  - exists h. split; [reflexivity|].
    apply stable_ascii. eapply lookup_Some_In; eauto.
  - destruct (Mojimoji.lookup Mojimoji.DIGIT_ZENKAKU_CHARS
                              Mojimoji.DIGIT_HANKAKU_CHARS c) as [h|] eqn:E2.
    + exists h. split; [reflexivity|].
      apply stable_digit. eapply lookup_Some_In; eauto.
    + exists c. split; [reflexivity|].
      unfold stable_width. rewrite zen_char_unfold, E1, E2. apply str_eqb_refl.
Qed.

Lemma flat_map_Forall {A} (f : A -> list A) (Q : A -> Prop) (s : list A) :
  (forall c, exists h, f c = [h] /\ Q h) -> Forall Q (flat_map f s).
Proof.
  intro Hf. induction s as [|c s IH]; cbn [flat_map].
  - constructor.
  - destruct (Hf c) as (h & -> & Hh). constructor; assumption.
Qed.

Lemma flat_map_singletons {A} (f : A -> list A) (s : list A) :
  Forall (fun c => f c = [c]) s -> flat_map f s = s.
Proof.
  induction 1 as [|c s Hc Hs IH]; cbn [flat_map].
  - reflexivity.
  - rewrite Hc, IH. reflexivity.
Qed.

(** Stage 1 leaves only characters of stable width. *)
Lemma zen_to_han_stable (s : str) :
  Forall (fun c => stable_width c = true) (Mojimoji.zen_to_han true true false s).
Proof. apply flat_map_Forall, zen_to_han_char_cases. Qed.

Lemma stable_width_elim (c : Z) :
  stable_width c = true -> Mojimoji.zen_to_han_char true true false c = [c].
Proof.
  intro H.
  destruct (list_eq_dec Z.eq_dec (Mojimoji.zen_to_han_char true true false c) [c])
    as [E|N]; [exact E|].
  assert (F : stable_width c = false).
  { unfold stable_width. apply str_eqb_neq. exact N. }
  rewrite F in H. discriminate H.
Qed.

Lemma zen_to_han_id (s : str) :
  Forall (fun c => stable_width c = true) s ->
  Mojimoji.zen_to_han true true false s = s.
Proof.
  intro H. apply flat_map_singletons.
  eapply Forall_impl; [|exact H].
  intros c Hc. apply stable_width_elim. exact Hc.
Qed.

Lemma not_half_kana_elim (c : Z) :
  not_half_kana c = true ->
  Mojimoji.lookup Mojimoji.KANA_HANKAKU_CHARS Mojimoji.KANA_ZENKAKU_CHARS c = None.
Proof.
  intro H.
  destruct (Mojimoji.lookup Mojimoji.KANA_HANKAKU_CHARS
                            Mojimoji.KANA_ZENKAKU_CHARS c) as [z|] eqn:E;
    [|reflexivity].
  assert (F : not_half_kana c = false).
  { unfold not_half_kana. rewrite E. reflexivity. }
  rewrite F in H. discriminate H.
Qed.

Lemma stable_numeral_elim (c : Z) :
  stable_numeral c = true -> Step5.KANJI_NUM_MAP c = c.
Proof.
  intro H. destruct (Z.eq_dec (Step5.KANJI_NUM_MAP c) c) as [E|N]; [exact E|].
  assert (F : stable_numeral c = false).
  { unfold stable_numeral. apply Z.eqb_neq. exact N. }
  rewrite F in H. discriminate H.
Qed.

Lemma wide_intro (c : Z) :
  stable_width c = true -> not_half_kana c = true -> wide c = true.
Proof. intros A B. unfold wide. rewrite A, B. reflexivity. Qed.

Lemma wide_elim (c : Z) :
  wide c = true -> stable_width c = true /\ not_half_kana c = true.
Proof.
  intro H. destruct (stable_width c) eqn:A, (not_half_kana c) eqn:B;
    try (split; reflexivity); exfalso;
    assert (F : wide c = false) by (unfold wide; rewrite A, B; reflexivity);
    rewrite F in H; discriminate H.
Qed.

Lemma plain_intro (c : Z) :
  wide c = true -> stable_numeral c = true -> plain c = true.
Proof.
  intros W C. apply wide_elim in W as [A B].
  unfold plain. rewrite A, B, C. reflexivity.
Qed.

Lemma plain_elim (c : Z) :
  plain c = true ->
  stable_width c = true /\ not_half_kana c = true /\ stable_numeral c = true.
Proof.
  intro H.
  destruct (stable_width c) eqn:A, (not_half_kana c) eqn:B,
           (stable_numeral c) eqn:C;
    try (repeat split; reflexivity); exfalso;
    assert (F : plain c = false) by (unfold plain; rewrite A, B, C; reflexivity);
    rewrite F in H; discriminate H.
Qed.

Lemma settled_intro (noise : Z -> bool) (c : Z) :
  plain c = true -> noise c = false -> settled noise c = true.
Proof. intros A B. unfold settled. rewrite A, B. reflexivity. Qed.

Lemma settled_elim (noise : Z -> bool) (c : Z) :
  settled noise c = true -> plain c = true /\ noise c = false.
Proof.
  intro H. destruct (plain c) eqn:A, (noise c) eqn:B;
    try (split; reflexivity); exfalso;
    assert (F : settled noise c = false)
      by (unfold settled; rewrite A, B; reflexivity);
    rewrite F in H; discriminate H.
Qed.

(** Stage 2: the kana widening loop. *)
Lemma han_loop_unfold (prev : option Z) (out : str) (c : Z) (text : str) :
  Mojimoji.han_to_zen_loop false false true prev out (c :: text) =
  Mojimoji.han_to_zen_loop false false true (Some c) (kana_step prev out c) text.
Proof. reflexivity. Qed.

Lemma merged_cases (prev : option Z) (c z : Z) :
  merged prev c = Some z ->
  In z (Mojimoji.KANA_ZENKAKU_CHARS ++ Mojimoji.KANA_TEN_ZENKAKU ++
        Mojimoji.KANA_MARU_ZENKAKU) /\
  (c = Mojimoji.TEN \/ c = Mojimoji.MARU).
Proof.
  unfold merged. destruct prev as [p|]; [|discriminate].
  destruct (c =? Mojimoji.TEN) eqn:ET.
  - intro H. apply lookup_Some_In in H. apply Z.eqb_eq in ET. split.
    + apply in_or_app. right. apply in_or_app. now left.
    + now left.
  - destruct (c =? Mojimoji.MARU) eqn:EM; [|discriminate].
    intro H. apply lookup_Some_In in H. apply Z.eqb_eq in EM. split.
    + apply in_or_app. right. apply in_or_app. now right.
    + now right.
Qed.

Lemma kana_step_wide (prev : option Z) (out : str) (c : Z) :
  Forall (fun x => wide x = true) out -> stable_width c = true ->
  Forall (fun x => wide x = true) (kana_step prev out c).
Proof.
  intros Hout Hc. unfold kana_step.
  destruct (merged prev c) as [z|] eqn:Em.
  - apply merged_cases in Em as [Hz _]. constructor.
    + now apply stable_kana.
    + destruct out as [|o out]; [constructor|]. now inversion Hout.
  - destruct (Mojimoji.lookup Mojimoji.KANA_HANKAKU_CHARS
                              Mojimoji.KANA_ZENKAKU_CHARS c) as [z|] eqn:Ek.
    + constructor; [|exact Hout]. apply stable_kana.
      apply in_or_app. left. eapply lookup_Some_In; eauto.
    + constructor; [|exact Hout]. apply wide_intro; [exact Hc|].
      unfold not_half_kana. rewrite Ek. reflexivity.
Qed.

Lemma kana_step_id (prev : option Z) (out : str) (c : Z) :
  not_half_kana c = true -> kana_step prev out c = c :: out.
Proof.
  intro Hc. unfold kana_step.
  destruct (merged prev c) as [z|] eqn:Em.
  - exfalso. apply merged_cases in Em as [_ [E|E]]; subst c.
    + destruct images_checked as (_ & _ & _ & F & _).
      rewrite F in Hc. discriminate Hc.
    + destruct images_checked as (_ & _ & _ & _ & F).
      rewrite F in Hc. discriminate Hc.
  - rewrite (not_half_kana_elim c Hc). reflexivity.
Qed.

Lemma han_loop_wide (text : str) : forall (prev : option Z) (out : str),
  Forall (fun c => stable_width c = true) text ->
  Forall (fun x => wide x = true) out ->
  Forall (fun x => wide x = true)
         (Mojimoji.han_to_zen_loop false false true prev out text).
Proof.
  induction text as [|c text IH]; intros prev out Ht Hout.
  - change (Forall (fun x => wide x = true) (rev out)). now apply Forall_rev.
  - rewrite han_loop_unfold. inversion Ht; subst. apply IH; [assumption|].
    now apply kana_step_wide.
Qed.

Lemma han_loop_id (text : str) : forall (prev : option Z) (out : str),
  Forall (fun c => not_half_kana c = true) text ->
  Mojimoji.han_to_zen_loop false false true prev out text = rev out ++ text.
Proof.
  induction text as [|c text IH]; intros prev out Ht.
  - change (rev out = rev out ++ []). now rewrite app_nil_r.
  - rewrite han_loop_unfold. inversion Ht; subst.
    rewrite kana_step_id by assumption. rewrite IH by assumption.
    cbn [rev]. rewrite <- app_assoc. reflexivity.
Qed.

(** Stage 3: kanji numerals. *)
Lemma kanji_unfold (c : Z) :
  Step5.KANJI_NUM_MAP c =
  match Mojimoji.lookup (u "一二三四五六七八九〇") (u "1234567890") c with
  | Some d => d
  | None => c
  end.
Proof. reflexivity. Qed.

Lemma kanji_plain (c : Z) : wide c = true -> plain (Step5.KANJI_NUM_MAP c) = true.
Proof.
  intro W. rewrite kanji_unfold.
  destruct (Mojimoji.lookup (u "一二三四五六七八九〇") (u "1234567890") c)
    as [d|] eqn:E.
  - apply plain_digit. eapply lookup_Some_In; eauto.
  - apply plain_intro; [exact W|].
    unfold stable_numeral. rewrite kanji_unfold, E. apply Z.eqb_refl.
Qed.

Lemma translate_plain (s : str) :
  Forall (fun c => wide c = true) s ->
  Forall (fun c => plain c = true) (translate Step5.KANJI_NUM_MAP s).
Proof.
  unfold translate. induction 1 as [|c s Hc Hs IH]; cbn [map]; constructor.
  - now apply kanji_plain.
  - exact IH.
Qed.

Lemma translate_id (s : str) :
  Forall (fun c => stable_numeral c = true) s ->
  translate Step5.KANJI_NUM_MAP s = s.
Proof.
  unfold translate. induction 1 as [|c s Hc Hs IH]; cbn [map].
  - reflexivity.
  - rewrite (stable_numeral_elim c Hc), IH. reflexivity.
Qed.

(** Stage 4: removal of titles only drops characters. *)
Lemma remove_scan_Forall (Q : Z -> Prop) (old : str) (s : str) :
  forall k, Forall Q s -> Forall Q (remove_scan old k s).
Proof.
  induction s as [|c s IH]; intros k H; cbn [remove_scan].
  - constructor.
  - inversion H; subst. destruct k as [|k].
    + destruct (starts_with old (c :: s)).
      * now apply IH.
      * constructor; [assumption | now apply IH].
    + now apply IH.
Qed.

Lemma remove_all_Forall (Q : Z -> Prop) (old s : str) :
  Forall Q s -> Forall Q (remove_all old s).
Proof.
  intro H. unfold remove_all. destruct old; [exact H|].
  now apply remove_scan_Forall.
Qed.

Lemma remove_titles_Forall (Q : Z -> Prop) (titles : list str) :
  forall s, Forall Q s ->
            Forall Q (fold_left (fun t title => remove_all title t) titles s).
Proof.
  induction titles as [|t titles IH]; intros s H; cbn [fold_left].
  - exact H.
  - apply IH. now apply remove_all_Forall.
Qed.

Lemma remove_scan_id (old s : str) :
  contains old s = false -> remove_scan old O s = s.
Proof.
  induction s as [|c s IH]; intro H.
  - reflexivity.
  - cbn [contains] in H. apply orb_false_iff in H as [H1 H2].
    cbn [remove_scan]. rewrite H1, IH by exact H2. reflexivity.
Qed.

Lemma remove_all_id (old s : str) :
  contains old s = false -> remove_all old s = s.
Proof.
  intro H. unfold remove_all. destruct old; [reflexivity|].
  now apply remove_scan_id.
Qed.

Lemma remove_titles_id (titles : list str) (k : str) :
  title_free titles k = true ->
  fold_left (fun t title => remove_all title t) titles k = k.
Proof.
  unfold title_free. induction titles as [|t titles IH]; intro H;
    cbn [fold_left].
  - reflexivity.
  - cbn [forallb] in H. apply andb_true_iff in H as [H1 H2].
    apply negb_true_iff in H1. rewrite remove_all_id by exact H1.
    now apply IH.
Qed.

Section Core.
Variable titles : list str.
Variable noise : Z -> bool.

(** Stage 5 and the whole chain. *)
Lemma filter_settled (s : str) :
  Forall (fun c => plain c = true) s ->
  Forall (fun c => settled noise c = true)
         (filter (fun c => negb (noise c)) s).
Proof.
  intro H. rewrite Forall_forall in *. intros c Hc.
  apply filter_In in Hc as [Hin Hn]. apply negb_true_iff in Hn.
  apply settled_intro; [now apply H | exact Hn].
Qed.

Lemma filter_id (s : str) :
  Forall (fun c => settled noise c = true) s ->
  filter (fun c => negb (noise c)) s = s.
Proof.
  induction 1 as [|c s Hc Hs IH]; cbn [filter].
  - reflexivity.
  - apply settled_elim in Hc as [_ Hn]. rewrite Hn. cbn [negb].
    now rewrite IH.
Qed.

Lemma core_settled (x : str) :
  Forall (fun c => settled noise c = true) (core titles noise x).
Proof.
  unfold core. apply filter_settled, remove_titles_Forall, translate_plain.
  unfold Mojimoji.han_to_zen. apply han_loop_wide.
  - apply zen_to_han_stable.
  - constructor.
Qed.

Lemma core_id (k : str) :
  Forall (fun c => settled noise c = true) k ->
  title_free titles k = true ->
  core titles noise k = k.
Proof.
  intros Hk Ht.
  assert (Hp : Forall (fun c => stable_width c = true /\
                                not_half_kana c = true /\
                                stable_numeral c = true) k).
  { eapply Forall_impl; [|exact Hk]. intros c Hc.
    apply settled_elim in Hc as [Hc _]. now apply plain_elim. }
  unfold core.
  rewrite zen_to_han_id
    by (eapply Forall_impl; [|exact Hp]; intros c Hc; apply Hc).
  unfold Mojimoji.han_to_zen.
  rewrite han_loop_id
    by (eapply Forall_impl; [|exact Hp]; intros c Hc; apply Hc).
  cbn [rev app].
  rewrite translate_id
    by (eapply Forall_impl; [|exact Hp]; intros c Hc; apply Hc).
  rewrite remove_titles_id by exact Ht.
  now apply filter_id.
Qed.

End Core.

Lemma kanji_same (c : Z) : Step2.KANJI_NUM_MAP c = Step5.KANJI_NUM_MAP c.
Proof. unfold Step2.KANJI_NUM_MAP, Step5.KANJI_NUM_MAP. reflexivity. Qed.

Lemma translate_same (s : str) :
  translate Step2.KANJI_NUM_MAP s = translate Step5.KANJI_NUM_MAP s.
Proof. unfold translate. apply map_ext, kanji_same. Qed.

Lemma step2_core `{Platform} (x : str) :
  Step2.normalize_text (VStr x) = core Step2.CORP_TITLES Step2.is_noise x.
Proof.
  unfold Step2.normalize_text, core. cbv beta iota zeta delta [isna py_str].
  rewrite translate_same. reflexivity.
Qed.

Lemma step5_core `{Platform} (x : str) :
  Step5.normalize_text_for_matching (VStr x) =
  lower (core Step5.CORP_TITLES Step5.is_noise x).
Proof.
  unfold Step5.normalize_text_for_matching, core.
  cbv beta iota zeta delta [isna py_str]. reflexivity.
Qed.

Lemma step6_core `{Platform} (x : str) :
  Step6.normalize_text_for_matching (VStr x) =
  lower (core Step6.CORP_TITLES Step5.is_noise x).
Proof.
  unfold Step6.normalize_text_for_matching, core.
  cbv beta iota zeta delta [isna py_str]. reflexivity.
Qed.

(** The reference case mapping is idempotent and keeps settled
    characters settled. *)
Lemma lower_char_idem (c : Z) :
  Reference.lower_char (Reference.lower_char c) = Reference.lower_char c.
Proof.
  unfold Reference.lower_char, in_range.
  destruct ((65 <=? c) && (c <=? 90)) eqn:E; [|now rewrite E].
  apply andb_true_iff in E as [E1 E2]. apply Z.leb_le in E1, E2.
  assert ((65 <=? c + 32) && (c + 32 <=? 90) = false) as ->; [|reflexivity].
  apply andb_false_iff. right. apply Z.leb_gt. lia.
Qed.

Lemma reference_lower_idem (s : str) :
  @lower Reference.platform (@lower Reference.platform s) =
  @lower Reference.platform s.
Proof.
  change (map Reference.lower_char (map Reference.lower_char s) =
          map Reference.lower_char s).
  rewrite map_map. apply map_ext, lower_char_idem.
Qed.

Lemma small_letters_checked :
  DateFacts.all_from (fun c => settled Step5.is_noise (c + 32)) 26 65 = true.
Proof. vm_compute. reflexivity. Qed.

Lemma lower_char_settled (c : Z) :
  settled Step5.is_noise c = true ->
  settled Step5.is_noise (Reference.lower_char c) = true.
Proof.
  intro H. unfold Reference.lower_char, in_range.
  destruct ((65 <=? c) && (c <=? 90)) eqn:E; [|exact H].
  apply andb_true_iff in E as [E1 E2]. apply Z.leb_le in E1, E2.
  apply (DateFacts.all_from_spec
           (fun c => settled Step5.is_noise (c + 32)) 26 65 c
           small_letters_checked).
  lia.
Qed.

Lemma reference_lower_settled (s : str) :
  Forall (fun c => settled Step5.is_noise c = true) s ->
  Forall (fun c => settled Step5.is_noise c = true) (@lower Reference.platform s).
Proof.
  change (@lower Reference.platform s) with (map Reference.lower_char s).
  induction 1 as [|c s Hc Hs IH]; cbn [map]; constructor.
  - now apply lower_char_settled.
  - exact IH.
Qed.

End NormalizeFacts.

(** C5, as stated, fails: removing the separators can bring the parts of a
    title together, and the second pass then removes the title. *)
Lemma C5_counterexample :
  @Step2.normalize_text Reference.platform (VStr (u "株-式会社")) = u "株式会社" /\
  @Step2.normalize_text Reference.platform
     (VStr (@Step2.normalize_text Reference.platform (VStr (u "株-式会社")))) = [] /\
  @Step5.normalize_text_for_matching Reference.platform (VStr (u "株-式会社")) =
     u "株式会社" /\
  @Step5.normalize_text_for_matching Reference.platform
     (VStr (@Step5.normalize_text_for_matching Reference.platform
              (VStr (u "株-式会社")))) = [] /\
  @Step6.normalize_text_for_matching Reference.platform
     (VStr (@Step6.normalize_text_for_matching Reference.platform
              (VStr (u "株-式会社")))) = [] /\
  u "株式会社" <> [].
Proof. vm_compute. repeat split. discriminate. Qed.

Section Normalizers.
Context `{P : Platform}.
Import NormalizeFacts.

(** C5, amended.  When lower-casing is idempotent and maps texts made of
    characters the normalizer neither rewrites nor removes to such texts,
    each normalizer is idempotent on every input whose normalized key
    contains none of the legal-entity titles of its profile: the step-2
    variant, and the matching profile of step 5 and step 6. *)
Theorem C5_normalize_idempotent_amended (x : str)
  (Hidem : forall s, lower (lower s) = lower s)
  (Hkeep : forall s, Forall (fun c => settled Step5.is_noise c = true) s ->
                     Forall (fun c => settled Step5.is_noise c = true) (lower s)) :
  (title_free Step2.CORP_TITLES (Step2.normalize_text (VStr x)) = true ->
   Step2.normalize_text (VStr (Step2.normalize_text (VStr x))) =
   Step2.normalize_text (VStr x)) /\
  (title_free Step5.CORP_TITLES (Step5.normalize_text_for_matching (VStr x)) = true ->
   Step5.normalize_text_for_matching
     (VStr (Step5.normalize_text_for_matching (VStr x))) =
   Step5.normalize_text_for_matching (VStr x)) /\
  (title_free Step6.CORP_TITLES (Step6.normalize_text_for_matching (VStr x)) = true ->
   Step6.normalize_text_for_matching
     (VStr (Step6.normalize_text_for_matching (VStr x))) =
   Step6.normalize_text_for_matching (VStr x)).
Proof.
  split; [|split].
  - rewrite !step2_core. intro Ht.
    apply core_id; [apply core_settled | exact Ht].
  - rewrite !step5_core. intro Ht.
    rewrite core_id; [apply Hidem | apply Hkeep, core_settled | exact Ht].
  - rewrite !step6_core. intro Ht.
    rewrite core_id; [apply Hidem | apply Hkeep, core_settled | exact Ht].
Qed.

End Normalizers.

(** Worked examples on the reference platform: width, numerals and titles
    collapse to one key. *)
Lemma normalize_examples :
  @Step5.normalize_text_for_matching Reference.platform (VStr (u "株式会社ＡＢＣ")) = u "abc" /\
  @Step5.normalize_text_for_matching Reference.platform (VStr (u "ABC")) = u "abc" /\
  @Step5.normalize_text_for_matching Reference.platform (VStr (u "株式会社 ABC")) = u "abc" /\
  @Step2.normalize_text Reference.platform (VStr (u "株式会社 ＡＢＣ 一丁目")) = u "ABC1" /\
  @Step5.normalize_text_for_matching Reference.platform VNaN = [] /\
  @Step2.normalize_text Reference.platform VNaN = [].
Proof. vm_compute. repeat split. Qed.

Lemma C5_normalize_witness :
  @Step2.normalize_text Reference.platform
    (VStr (@Step2.normalize_text Reference.platform (VStr (u "ＡＢＣ動物病院　一丁目")))) =
  @Step2.normalize_text Reference.platform (VStr (u "ＡＢＣ動物病院　一丁目")) /\
  @Step5.normalize_text_for_matching Reference.platform
    (VStr (@Step5.normalize_text_for_matching Reference.platform
             (VStr (u "ＡＢＣ動物病院　一丁目")))) =
  @Step5.normalize_text_for_matching Reference.platform
    (VStr (u "ＡＢＣ動物病院　一丁目")).
Proof.
  pose proof (@C5_normalize_idempotent_amended Reference.platform
                (u "ＡＢＣ動物病院　一丁目")
                NormalizeFacts.reference_lower_idem
                NormalizeFacts.reference_lower_settled) as (H2 & H5 & _).
  split; [apply H2 | apply H5]; vm_compute; reflexivity.
Defined.
(* ===================================================================== *)
(** * The match loops *)
(* ===================================================================== *)

Module MatchFacts.












Section Keys.
Context `{P : Platform}.










End Keys.

Lemma cell_cons_same (k : str) (v : value) (r : row) :
  cell k ((k, v) :: r) = v.
Proof. unfold cell. cbn [get]. now rewrite str_eqb_refl. Qed.

Lemma cell_cons_other (k k' : str) (v : value) (r : row) :
  str_eqb k' k = false -> cell k ((k', v) :: r) = cell k r.
Proof. intro H. unfold cell. cbn [get]. now rewrite H. Qed.













Section Shapes.
Context `{P : Platform}.





End Shapes.

(** ** The registry with its key columns *)




Section Registry.
Context `{P : Platform}.












End Registry.

End MatchFacts.

Section Matching.
Context `{P : Platform}.
Import MatchFacts.


End Matching.

(** A run of the step-6 loop on the reference platform: the first record
    hits by address and name, the second by phone, the third not at all. *)
Lemma match_example :
  let master :=
    @Step6.with_match_keys Reference.platform true
      [[(u "自社UID", VStr (u "AAAAAA")); (u "動物病院施設名", VStr (u "ABC動物病院"));
        (u "住所", VStr (u "東京都港区1-2-3")); (u "電話番号", VStr (u "03-1234-5678"))]] in
  let rs :=
    [[(u "得意先コード", VInt 1); (u "得意先名称", VStr (u "ＡＢＣ動物病院"));
      (u "住所フル", VStr (u "東京都港区一丁目２番３号"))];
     [(u "得意先コード", VInt 2); (u "得意先名称", VStr (u "別名"));
      (u "住所フル", VStr (u "大阪府")); (u "TEL", VStr (u "０３（１２３４）５６７８"))];
     [(u "得意先コード", VInt 3); (u "得意先名称", VStr (u "別名"));
      (u "住所フル", VStr (u "大阪府")); (u "TEL", VStr (u "12345678"))]] in
  let st := @Step6.match_loop Reference.platform (u "自社UID") master rs in
  map (cell (u "卸側施設ID")) (matched_rows st) = [VInt 1; VInt 2] /\
  map (cell (u "マッチ方法")) (matched_rows st) =
    [VStr METHOD_ADDR; VStr METHOD_TEL] /\
  map (cell (u "得意先コード")) (unmatched_rows st) = [VInt 3].
Proof. vm_compute. repeat split. Qed.

(* ===================================================================== *)
(** * The registry build *)
(* ===================================================================== *)

Module BuildFacts.

Import Rebuild.

(** The hasher that [generate_id] builds on each call. *)
Definition hasher : option Hashids.hashids :=
  Eval vm_compute in Hashids.init ID_SALT ID_LENGTH ID_ALPHABET.

(** The identifier of a sequence number, as a text. *)
Definition uid_of (n : Z) : str :=
  match generate_id n with Some c => c | None => [] end.

Section WithPlatform.
Context `{P : Platform}.

(** Both the address and the phone are present. *)
Definition present (r : row) : bool :=
  negb (isna (cell COL_ADDR r) || isna (cell COL_TEL r)).

(** The key of [r] was computed for one of the rows before it. *)
Definition seen_earlier (earlier : list row) (r : row) : bool :=
  existsb (fun e => present e && str_eqb (dedup_key e) (dedup_key r)) earlier.

(** The rows the specification keeps: address and phone present, and no
    row before it in the batch has the same key.  [earlier] holds the rows
    already passed, in order. *)
Fixpoint kept (earlier : list row) (rs : list row) : list row :=
  match rs with
  | [] => []
  | r :: rs' =>
    if present r && negb (seen_earlier earlier r)
    then r :: kept (earlier ++ [r]) rs'
    else kept (earlier ++ [r]) rs'
  end.

Definition p_date_of (r : row) : str := parse_date (cell COL_PRICE_DATE r).

Definition active_of (r : row) : Z :=
  if negb (str_eqb (p_date_of r) []) then 1 else 0.

(** The registry and mapping rows of the kept rows [ks], numbered from
    [n + 1]. *)
Fixpoint masters (n : Z) (ks : list row) : list row :=
  match ks with
  | [] => []
  | r :: ks' =>
    master_row (uid_of (n + 1)) (p_date_of r) (active_of r) r :: masters (n + 1) ks'
  end.

Fixpoint mappings (n : Z) (ks : list row) : list row :=
  match ks with
  | [] => []
  | r :: ks' => mapping_row (uid_of (n + 1)) (p_date_of r) r :: mappings (n + 1) ks'
  end.

End WithPlatform.

(** ** The identifier library never fails on a sequence number *)

Lemma length_set_nth (s : str) : forall i c, length (Hashids.set_nth s i c) = length s.
Proof.
  induction s as [|x s IH]; intros [|i] c; cbn [Hashids.set_nth length];
    try reflexivity.
  now rewrite IH.
Qed.

Lemma length_swap (s : str) (i j : Z) : length (Hashids.swap s i j) = length s.
Proof. unfold Hashids.swap. cbv zeta. now rewrite !length_set_nth. Qed.

Lemma length_reorder_loop (n : nat) (salt : str) :
  forall s index sum,
    length (Hashids.reorder_loop n salt s index sum) = length s.
Proof.
  induction n as [|n IH]; intros s index sum; cbn [Hashids.reorder_loop].
  - reflexivity.
  - cbv zeta. rewrite IH. apply length_swap.
Qed.

Lemma length_reorder (s salt : str) : length (Hashids._reorder s salt) = length s.
Proof.
  unfold Hashids._reorder. destruct salt; [reflexivity|].
  apply length_reorder_loop.
Qed.

Lemma hash_loop_total (alphabet : str) :
  2 <= len alphabet ->
  forall f number hashed,
    0 <= number < 2 ^ Z.of_nat (S f) ->
    exists r, Hashids.hash_loop (S f) number alphabet hashed = Some r.
Proof.
  intro Hlen. induction f as [|f IH]; intros number hashed Hn.
  - cbn [Hashids.hash_loop]. cbv zeta.
    assert (E : number / len alphabet = 0).
    { apply Z.div_small. change (2 ^ Z.of_nat 1) with 2 in Hn. lia. }
    rewrite E. cbn [Z.eqb]. eexists. reflexivity.
  - remember (S f) as g eqn:Eg. cbn [Hashids.hash_loop]. cbv zeta.
    destruct (number / len alphabet =? 0) eqn:E0; [eexists; reflexivity|].
    subst g. apply IH. split.
    + apply Z.div_pos; lia.
    + apply Z.div_lt_upper_bound; [lia|].
      rewrite (Nat2Z.inj_succ (S f)), Z.pow_succ_r in Hn by lia.
      assert (0 < 2 ^ Z.of_nat (S f)) by (apply Z.pow_pos_nonneg; lia).
      nia.
Qed.

Lemma hash_total (number : Z) (alphabet : str) :
  2 <= len alphabet -> 0 <= number ->
  exists r, Hashids._hash number alphabet = Some r.
Proof.
  intros Hlen Hn. unfold Hashids._hash. apply hash_loop_total; [exact Hlen|].
  split; [exact Hn|].
  rewrite Nat2Z.inj_succ, Z2Nat.id by apply Z.log2_nonneg.
  destruct (Z.eq_dec number 0) as [->|Hne].
  - reflexivity.
  - apply Z.log2_spec. lia.
Qed.

Lemma encode_total (h : Hashids.hashids) (n : Z) :
  2 <= len (Hashids.h_alphabet h) -> 0 <= n ->
  exists c, Hashids.encode h n = Some c.
Proof.
  intros Hlen Hn. unfold Hashids.encode.
  assert ((n <? 0) = false) as -> by (apply Z.ltb_ge; lia).
  unfold Hashids.encode1. cbv zeta.
  match goal with
  | |- context [Hashids._hash n ?a] =>
    destruct (hash_total n a) as [last E];
      [unfold len; rewrite length_reorder; exact Hlen | exact Hn | rewrite E]
  end.
  eexists. reflexivity.
Qed.

Lemma init_hasher : Hashids.init ID_SALT ID_LENGTH ID_ALPHABET = hasher.
Proof. vm_compute. reflexivity. Qed.

(** [generate_id] returns an identifier for every sequence number. *)
Lemma generate_id_total (n : Z) :
  0 <= n -> exists c, generate_id n = Some c.
Proof.
  intro Hn. unfold generate_id. rewrite init_hasher. unfold hasher.
  apply encode_total; [|exact Hn].
  cbn [Hashids.h_alphabet]. vm_compute. discriminate.
Qed.

Lemma generate_id_uid_of (n : Z) : 0 <= n -> generate_id n = Some (uid_of n).
Proof.
  intro Hn. unfold uid_of.
  destruct (generate_id_total n Hn) as [c E]. now rewrite E.
Qed.

Section Loop.
Context `{P : Platform}.

Lemma build_step_unfold (st : build_state) (r : row) :
  build_step st r =
  if negb (present r) then Some st
  else if str_in (dedup_key r) (processed_keys st) then Some st
  else
    match generate_id (current_seq st + 1) with
    | None => None
    | Some uid =>
      Some (mk_build
              (master_rows st ++ [master_row uid (p_date_of r) (active_of r) r])
              (mapping_rows st ++ [mapping_row uid (p_date_of r) r])
              (dedup_key r :: processed_keys st)
              (current_seq st + 1))
    end.
Proof.
  unfold build_step, present, dedup_key, active_of, p_date_of. cbv zeta.
  rewrite negb_involutive. reflexivity.
Qed.

(** The keys recorded so far are the keys of the rows passed so far that
    had both fields. *)
Definition tracks (earlier : list row) (keys : list str) : Prop :=
  forall r, str_in (dedup_key r) keys = seen_earlier earlier r.

Lemma seen_earlier_app (earlier : list row) (e r : row) :
  seen_earlier (earlier ++ [e]) r =
  seen_earlier earlier r || (present e && str_eqb (dedup_key e) (dedup_key r)).
Proof.
  unfold seen_earlier. rewrite existsb_app. cbn [existsb].
  now rewrite orb_false_r.
Qed.

Lemma tracks_skip_absent (earlier : list row) (keys : list str) (e : row) :
  tracks earlier keys -> present e = false -> tracks (earlier ++ [e]) keys.
Proof.
  intros H He r. rewrite seen_earlier_app, He, H. cbn [andb].
  now rewrite orb_false_r.
Qed.

Lemma tracks_skip_seen (earlier : list row) (keys : list str) (e : row) :
  tracks earlier keys -> str_in (dedup_key e) keys = true ->
  tracks (earlier ++ [e]) keys.
Proof.
  intros H He r. rewrite seen_earlier_app, <- H.
  destruct (str_eqb (dedup_key e) (dedup_key r)) eqn:E.
  - apply str_eqb_eq in E. rewrite <- E, He. reflexivity.
  - now rewrite andb_false_r, orb_false_r.
Qed.

Lemma tracks_keep (earlier : list row) (keys : list str) (e : row) :
  tracks earlier keys -> present e = true ->
  tracks (earlier ++ [e]) (dedup_key e :: keys).
Proof.
  intros H He r. rewrite seen_earlier_app, He, <- H. cbn [andb].
  unfold str_in. cbn [existsb].
  rewrite (str_eqb_sym (dedup_key r) (dedup_key e)). apply orb_comm.
Qed.

(** The loop from any state whose keys track the rows passed so far. *)
Lemma build_loop_from (rs : list row) :
  forall (earlier : list row) (st : build_state),
    tracks earlier (processed_keys st) -> 0 <= current_seq st ->
    exists st',
      build_loop st rs = Some st' /\
      master_rows st' =
        master_rows st ++ masters (current_seq st) (kept earlier rs) /\
      mapping_rows st' =
        mapping_rows st ++ mappings (current_seq st) (kept earlier rs) /\
      current_seq st' = current_seq st + Z.of_nat (length (kept earlier rs)).
Proof.
  induction rs as [|r rs IH]; intros earlier st Ht Hs.
  - exists st. cbn [build_loop kept masters mappings length].
    rewrite !app_nil_r. repeat split. lia.
  - cbn [build_loop kept]. rewrite build_step_unfold.
    destruct (present r) eqn:Ep; cbn [negb andb].
    + rewrite <- (Ht r).
      destruct (str_in (dedup_key r) (processed_keys st)) eqn:Es; cbn [negb].
      * apply IH; [|exact Hs]. now apply tracks_skip_seen.
      * rewrite (generate_id_uid_of (current_seq st + 1)) by lia.
        destruct (IH (earlier ++ [r])
                     (mk_build
                        (master_rows st ++
                         [master_row (uid_of (current_seq st + 1)) (p_date_of r)
                                     (active_of r) r])
                        (mapping_rows st ++
                         [mapping_row (uid_of (current_seq st + 1)) (p_date_of r) r])
                        (dedup_key r :: processed_keys st)
                        (current_seq st + 1)))
          as (st' & E & Hm & Hp & Hc).
        -- cbn [processed_keys]. now apply tracks_keep.
        -- cbn [current_seq]. lia.
        -- exists st'. split; [exact E|].
           cbn [master_rows mapping_rows current_seq] in Hm, Hp, Hc.
           cbn [masters mappings length].
           rewrite Hm, Hp, Hc, <- !app_assoc. cbn [app].
           repeat split. lia.
    + apply IH; [|exact Hs]. now apply tracks_skip_absent.
Qed.

Lemma nth_masters (ks : list row) :
  forall (n : Z) (i : nat) (r : row),
    nth_error ks i = Some r ->
    nth_error (masters n ks) i =
      Some (master_row (uid_of (n + Z.of_nat i + 1)) (p_date_of r) (active_of r) r) /\
    nth_error (mappings n ks) i =
      Some (mapping_row (uid_of (n + Z.of_nat i + 1)) (p_date_of r) r).
Proof.
  induction ks as [|k ks IH]; intros n [|i] r H; cbn [nth_error] in H;
    try discriminate.
  - inversion H; subst. cbn [masters mappings nth_error].
    rewrite Z.add_0_r. split; reflexivity.
  - cbn [masters mappings nth_error].
    destruct (IH (n + 1) i r H) as [H1 H2]. rewrite H1, H2.
    replace (n + 1 + Z.of_nat i + 1) with (n + Z.of_nat (S i) + 1) by lia.
    split; reflexivity.
Qed.

Lemma length_masters (ks : list row) :
  forall n, length (masters n ks) = length ks /\ length (mappings n ks) = length ks.
Proof.
  induction ks as [|k ks IH]; intro n; cbn [masters mappings length].
  - split; reflexivity.
  - destruct (IH (n + 1)) as [H1 H2]. rewrite H1, H2. split; reflexivity.
Qed.

Lemma master_row_cells (uid p_date : str) (a : Z) (r : row) :
  cell (u "自社UID") (master_row uid p_date a r) = VStr uid /\
  cell (u "アクティブフラグ") (master_row uid p_date a r) = VInt a /\
  cell (u "価格適用開始日") (master_row uid p_date a r) = VStr p_date.
Proof.
  unfold master_row. split; [|split].
  - apply MatchFacts.cell_cons_same.
  - repeat (rewrite MatchFacts.cell_cons_other by (vm_compute; reflexivity)).
    apply MatchFacts.cell_cons_same.
  - repeat (rewrite MatchFacts.cell_cons_other by (vm_compute; reflexivity)).
    apply MatchFacts.cell_cons_same.
Qed.

Lemma active_of_spec (r : row) :
  (active_of r = 1 <-> p_date_of r <> []) /\
  (active_of r = 0 <-> p_date_of r = []).
Proof.
  unfold active_of. destruct (str_eqb (p_date_of r) []) eqn:E; cbn [negb].
  - apply str_eqb_eq in E. split; split; intro H; congruence.
  - apply str_eqb_neq in E. split; split; intro H; congruence.
Qed.

End Loop.

End BuildFacts.

Section Build.
Context `{P : Platform}.
Import Rebuild BuildFacts.

(** C3.  For every batch the conversion loop ends with a state whose
    registry rows are, in input order, those of the rows that have both
    address and phone and whose key no earlier row with both fields had.
    The sequence number ends at the number of kept rows; the i-th kept row
    (counting from 1) carries the identifier issued for i, in the registry
    and in the mapping table; and its active flag is 1 when its
    price-effective date parses to a non-empty text and 0 otherwise. *)
Theorem C3_registry_build (rs : list row) :
  exists st,
    build_loop build_init rs = Some st /\
    current_seq st = Z.of_nat (length (kept [] rs)) /\
    length (master_rows st) = length (kept [] rs) /\
    length (mapping_rows st) = length (kept [] rs) /\
    forall (i : nat) (r : row),
      nth_error (kept [] rs) i = Some r ->
      exists uid m,
        generate_id (Z.of_nat i + 1) = Some uid /\
        nth_error (master_rows st) i = Some m /\
        m = master_row uid (p_date_of r) (active_of r) r /\
        nth_error (mapping_rows st) i = Some (mapping_row uid (p_date_of r) r) /\
        cell (u "自社UID") m = VStr uid /\
        (cell (u "アクティブフラグ") m = VInt 1 <-> parse_date (cell COL_PRICE_DATE r) <> []) /\
        (cell (u "アクティブフラグ") m = VInt 0 <-> parse_date (cell COL_PRICE_DATE r) = []).
Proof.
  destruct (build_loop_from rs [] build_init) as (st & E & Hm & Hp & Hc).
  - intro r. reflexivity.
  - cbn [current_seq build_init]. lia.
  - cbn [master_rows mapping_rows current_seq build_init app] in Hm, Hp, Hc.
    exists st. split; [exact E|]. split; [lia|].
    destruct (length_masters (kept [] rs) 0) as [L1 L2].
    split; [now rewrite Hm|]. split; [now rewrite Hp|].
    intros i r Hi.
    destruct (nth_masters (kept [] rs) 0 i r Hi) as [N1 N2].
    cbn [Z.add] in N1, N2.
    exists (uid_of (Z.of_nat i + 1)),
           (master_row (uid_of (Z.of_nat i + 1)) (p_date_of r) (active_of r) r).
    destruct (master_row_cells (uid_of (Z.of_nat i + 1)) (p_date_of r)
                               (active_of r) r) as (C1 & C2 & _).
    destruct (active_of_spec r) as [A1 A0].
    split; [apply generate_id_uid_of; lia|].
    split; [now rewrite Hm|]. split; [reflexivity|].
    split; [now rewrite Hp|]. split; [exact C1|].
    rewrite C2. fold (p_date_of r). split.
    + rewrite <- A1. split; intro H; [now inversion H | now rewrite H].
    + rewrite <- A0. split; intro H; [now inversion H | now rewrite H].
Qed.

End Build.

(** A batch on the reference platform: the second row repeats the key of
    the first in another width, the third lacks a phone, the fourth is
    new and has no price date. *)
Lemma build_example :
  let rs :=
    [[(Rebuild.COL_ADDR, VStr (u "東京都港区1-2-3")); (Rebuild.COL_TEL, VStr (u "03-1234-5678"));
      (Rebuild.COL_PRICE_DATE, VInt 45000)];
     [(Rebuild.COL_ADDR, VStr (u "東京都港区１－２－３")); (Rebuild.COL_TEL, VStr (u "０３ー１２３４ー５６７８"));
      (Rebuild.COL_PRICE_DATE, VInt 45000)];
     [(Rebuild.COL_ADDR, VStr (u "大阪府")); (Rebuild.COL_TEL, VNaN)];
     [(Rebuild.COL_ADDR, VStr (u "大阪府")); (Rebuild.COL_TEL, VStr (u "06-0000-0000"))]] in
  match @Rebuild.build_loop Reference.platform Rebuild.build_init rs with
  | Some st =>
    map (cell (u "自社UID")) (Rebuild.master_rows st) =
      [VStr (BuildFacts.uid_of 1); VStr (BuildFacts.uid_of 2)] /\
    map (cell (u "アクティブフラグ")) (Rebuild.master_rows st) = [VInt 1; VInt 0] /\
    map (cell (u "価格適用開始日")) (Rebuild.master_rows st) =
      [VStr (u "2023/03/15"); VStr []] /\
    Rebuild.current_seq st = 2
  | None => False
  end.
Proof. vm_compute. repeat split. Qed.
(* ===================================================================== *)
(** * Reflection of the external identifiers into the registry *)
(* ===================================================================== *)

Module ReflectFacts.

Import Step8.

(** The text written into the new column of a registry row whose
    identifier cell is [v]. *)
Definition ids_text (pairs : list (str * str)) (v : value) : str :=
  match v with
  | VStr uid => joined_ids pairs uid
  | _ => []
  end.

(** A registry row after reflection: the old column goes, the new one
    holds the identifiers of the row's uid. *)
Definition reflected (pairs : list (str * str)) (master_uid_col : str) (l : row)
    : row :=
  let l0 := drop_col NEW_COL_NAME l in
  set NEW_COL_NAME (VStr (ids_text pairs (cell master_uid_col l0))) l0.

(** ** Sorting and duplicates *)

Lemma In_insert_sorted (x y : str) (l : list str) :
  In y (insert_sorted x l) <-> y = x \/ In y l.
Proof.
  induction l as [|z l IH]; cbn [insert_sorted].
  - cbn. intuition.
  - destruct (str_leb x z); cbn [In]; [intuition|].
    rewrite IH. intuition.
Qed.

Lemma In_sorted (y : str) (l : list str) : In y (sorted l) <-> In y l.
Proof.
  unfold sorted. induction l as [|x l IH]; cbn [fold_right]; [reflexivity|].
  rewrite In_insert_sorted, IH. cbn [In]. intuition.
Qed.

Lemma In_distinct (y : str) (l : list str) : In y (distinct l) <-> In y l.
Proof.
  induction l as [|x l IH]; cbn [distinct]; [reflexivity|].
  destruct (str_in x l) eqn:E.
  - rewrite IH. cbn [In]. split; [auto|].
    intros [<-|H]; [now apply str_in_In | exact H].
  - cbn [In]. rewrite IH. reflexivity.
Qed.

Lemma In_sorted_set (y : str) (l : list str) : In y (sorted_set l) <-> In y l.
Proof. unfold sorted_set. now rewrite In_sorted, In_distinct. Qed.

Lemma NoDup_insert_sorted (x : str) (l : list str) :
  ~ In x l -> NoDup l -> NoDup (insert_sorted x l).
Proof.
  induction l as [|z l IH]; intros Hx Hl; cbn [insert_sorted].
  - constructor; [exact Hx | constructor].
  - destruct (str_leb x z); [now constructor|].
    inversion Hl; subst. constructor.
    + rewrite In_insert_sorted. cbn [In] in Hx. intuition.
    + apply IH; [|assumption]. cbn [In] in Hx. intuition.
Qed.

Lemma NoDup_distinct (l : list str) : NoDup (distinct l).
Proof.
  induction l as [|x l IH]; cbn [distinct]; [constructor|].
  destruct (str_in x l) eqn:E; [exact IH|].
  constructor; [|exact IH]. rewrite In_distinct. now apply str_in_false.
Qed.

Lemma NoDup_sorted (l : list str) : NoDup l -> NoDup (sorted l).
Proof.
  unfold sorted. induction 1 as [|x l Hx Hl IH]; cbn [fold_right].
  - constructor.
  - apply NoDup_insert_sorted; [|exact IH].
    fold (sorted l). now rewrite In_sorted.
Qed.

Lemma NoDup_sorted_set (l : list str) : NoDup (sorted_set l).
Proof. unfold sorted_set. apply NoDup_sorted, NoDup_distinct. Qed.

(** ** The left join on unique keys *)

Lemma value_eqb_VStr (v : value) (a : str) :
  value_eqb v (VStr a) = match v with VStr s => str_eqb s a | _ => false end.
Proof. destruct v; reflexivity. Qed.

Lemma filter_none {A} (f : A -> bool) (l : list A) :
  (forall x, In x l -> f x = false) -> filter f l = [].
Proof.
  induction l as [|x l IH]; intro H; cbn [filter]; [reflexivity|].
  rewrite (H x) by now left. apply IH. intros y Hy. apply H. now right.
Qed.

Lemma hits_on_keys (f : str -> str) (v : value) (keys : list str) :
  NoDup keys ->
  filter (fun g => value_eqb v (VStr (fst g))) (map (fun k => (k, f k)) keys) =
  match v with
  | VStr uid => if str_in uid keys then [(uid, f uid)] else []
  | _ => []
  end.
Proof.
  intro Hnd. destruct v as [|uid|n|q|d];
    try (apply filter_none; intros x _; now rewrite value_eqb_VStr).
  induction Hnd as [|k keys Hk Hnd IH]; [reflexivity|].
  cbn [map filter fst]. rewrite value_eqb_VStr.
  unfold str_in. cbn [existsb]. fold (str_in uid keys).
  destruct (str_eqb uid k) eqn:E; cbn [orb].
  - apply str_eqb_eq in E. subst k. rewrite IH.
    assert (str_in uid keys = false) as -> by now apply str_in_false.
    reflexivity.
  - exact IH.
Qed.

Lemma flat_map_single {A B} (g : A -> list B) (h : A -> B) (l : list A) :
  (forall x, g x = [h x]) -> flat_map g l = map h l.
Proof.
  intro H. induction l as [|x l IH]; cbn [flat_map map]; [reflexivity|].
  now rewrite H, IH.
Qed.

Lemma set_set (col : str) (v w : value) (r : row) :
  set col w (set col v r) = set col w r.
Proof.
  induction r as [|[k x] r IH]; cbn [set].
  - now rewrite str_eqb_refl.
  - destruct (str_eqb k col) eqn:E; cbn [set]; rewrite E; [reflexivity|].
    now rewrite IH.
Qed.

Lemma no_pairs_no_ids (pairs : list (str * str)) (uid : str) :
  str_in uid (sorted_set (map fst pairs)) = false -> joined_ids pairs uid = [].
Proof.
  intro H. apply str_in_false in H. rewrite In_sorted_set in H.
  unfold joined_ids, ids_of.
  rewrite filter_none; [reflexivity|].
  intros [a b] Hin. cbn [fst]. apply str_eqb_neq. intros ->.
  apply H. apply in_map_iff. exists (uid, b). split; [reflexivity | exact Hin].
Qed.

(** The join followed by the filling of missing cells, row by row. *)
Lemma merged_rows (pairs : list (str * str)) (master_uid_col : str)
    (master : list row) :
  fillna NEW_COL_NAME (merge_left master_uid_col master (grouped pairs)) =
  map (fun l => set NEW_COL_NAME (VStr (ids_text pairs (cell master_uid_col l))) l)
      master.
Proof.
  unfold merge_left, grouped.
  rewrite (flat_map_single _
             (fun l => set NEW_COL_NAME
                         (match cell master_uid_col l with
                          | VStr uid =>
                            if str_in uid (sorted_set (map fst pairs))
                            then VStr (joined_ids pairs uid) else VNaN
                          | _ => VNaN
                          end) l)).
  - unfold fillna, apply_col. rewrite map_map. apply map_ext. intro l.
    rewrite cell_set_same, set_set. f_equal.
    unfold ids_text. destruct (cell master_uid_col l) as [|uid|n|q|d];
      try reflexivity.
    destruct (str_in uid (sorted_set (map fst pairs))) eqn:E; [reflexivity|].
    cbn [isna]. now rewrite no_pairs_no_ids.
  - intro l. rewrite hits_on_keys by apply NoDup_sorted_set.
    destruct (cell master_uid_col l) as [|uid|n|q|d]; try reflexivity.
    destruct (str_in uid (sorted_set (map fst pairs))); reflexivity.
Qed.

Lemma ids_text_none (pairs : list (str * str)) (v : value) :
  (forall uid ext, In (uid, ext) pairs -> value_eqb v (VStr uid) = false) ->
  ids_text pairs v = [].
Proof.
  intro H. unfold ids_text. destruct v as [|uid|n|q|d]; try reflexivity.
  unfold joined_ids, ids_of. rewrite filter_none; [reflexivity|].
  intros [a b] Hin. cbn [fst].
  specialize (H a b Hin). rewrite value_eqb_VStr in H.
  now rewrite str_eqb_sym.
Qed.

Lemma filter_twice {A} (f : A -> bool) (l : list A) :
  filter f (filter f l) = filter f l.
Proof.
  induction l as [|x l IH]; cbn [filter]; [reflexivity|].
  destruct (f x) eqn:E; [|exact IH]. cbn [filter]. now rewrite E, IH.
Qed.

Lemma joined_ids_empty (uid : str) : joined_ids [] uid = [].
Proof. reflexivity. Qed.

Section Run.
Context `{P : Platform}.

(** The tool stops only for a missing column; otherwise it writes the
    registry with one reflected row per registry row. *)
Lemma reflect_result (df_master df_mapping : frame) :
  match step8_reflect_id_to_master df_master df_mapping with
  | Ok out =>
    exists mc pc,
      find_uid_column (columns df_master) = Some mc /\
      find_uid_column (columns df_mapping) = Some pc /\
      rows out =
        map (reflected (map_clean pc (filter_wholesaler df_mapping)) mc)
            (rows df_master)
  | Abort e =>
    e = MissingColumn /\
    (find_uid_column (columns df_master) = None \/
     find_uid_column (columns df_mapping) = None \/
     str_in COL_EXTERNAL (columns df_mapping) = false)
  end.
Proof.
  unfold step8_reflect_id_to_master. cbv zeta.
  destruct (find_uid_column (columns df_master)) as [mc|] eqn:Em;
    [|split; [reflexivity | now left]].
  destruct (find_uid_column (columns df_mapping)) as [pc|] eqn:Ep;
    [|split; [reflexivity | right; now left]].
  destruct (str_in COL_EXTERNAL (columns df_mapping)) eqn:Ee; cbn [negb];
    [|split; [reflexivity | right; now right]].
  rewrite merged_rows, !length_map. unfold nrows. rewrite Nat.eqb_refl.
  cbn [negb]. exists mc, pc. split; [reflexivity|]. split; [reflexivity|].
  cbn [rows]. rewrite map_map. reflexivity.
Qed.

Lemma filter_wholesaler_chosen (df_mapping : frame) (r : row) :
  str_in COL_WHOLESALER (columns df_mapping) = true ->
  In r (filter_wholesaler df_mapping) ->
  In r (rows df_mapping) /\
  clean_value (cell COL_WHOLESALER r) = FIXED_WHOLESALER_NAME.
Proof.
  intros Hc H. unfold filter_wholesaler in H. rewrite Hc in H.
  apply filter_In in H as [H1 H2]. apply str_eqb_eq in H2. now split.
Qed.

(** Every identifier listed for a uid comes from a row the filter kept. *)
Lemma ids_origin (pc : str) (filtered : list row) (uid ext : str) :
  In ext (ids_of (map_clean pc filtered) uid) ->
  exists r, In r filtered /\
            text (cell pc (cleaned_row pc r)) = uid /\
            text (cell COL_EXTERNAL (cleaned_row pc r)) = ext.
Proof.
  unfold ids_of. rewrite In_sorted_set. intro H.
  apply in_map_iff in H as ([a b] & Hb & H). cbn [snd] in Hb. subst b.
  apply filter_In in H as [H Ha]. cbn [fst] in Ha. apply str_eqb_eq in Ha.
  subst a. unfold map_clean in H.
  apply in_map_iff in H as (r' & Hr' & H). inversion Hr'; subst; clear Hr'.
  apply filter_In in H as [H _].
  apply in_map_iff in H as (r & <- & Hr).
  exists r. repeat split. exact Hr.
Qed.

Lemma reflect_filtered (df_master df_mapping : frame) :
  str_in COL_WHOLESALER (columns df_mapping) = true ->
  step8_reflect_id_to_master df_master df_mapping =
  step8_reflect_id_to_master df_master
    (mk_frame (columns df_mapping)
       (filter (fun r => str_eqb (clean_value (cell COL_WHOLESALER r))
                                 FIXED_WHOLESALER_NAME)
               (rows df_mapping))).
Proof.
  intro Hc. unfold step8_reflect_id_to_master, filter_wholesaler.
  cbn [columns rows]. rewrite Hc, filter_twice. reflexivity.
Qed.

(** ** Which mapping rows are used *)

(** A mapping row the reflection works with: any row when the table has
    no wholesaler column, a row of the configured wholesaler otherwise. *)
Definition used (df_mapping : frame) (r : row) : Prop :=
  In r (rows df_mapping) /\
  (str_in COL_WHOLESALER (columns df_mapping) = true ->
   clean_value (cell COL_WHOLESALER r) = FIXED_WHOLESALER_NAME).

(** The row gives the external identifier [ext] to the uid [uid]: these
    are its two cells after cleaning, and neither is empty. *)
Definition contributes (pc : str) (r : row) (uid ext : str) : Prop :=
  clean_value (cell pc r) = uid /\
  clean_id (cell COL_EXTERNAL r) = ext /\
  uid <> [] /\ ext <> [].

Lemma used_iff (df_mapping : frame) (r : row) :
  In r (filter_wholesaler df_mapping) <-> used df_mapping r.
Proof.
  unfold filter_wholesaler, used.
  destruct (str_in COL_WHOLESALER (columns df_mapping)).
  - rewrite filter_In, str_eqb_eq. intuition.
  - intuition. discriminate.
Qed.

Lemma cleaned_cells (pc : str) (r : row) :
  pc <> COL_EXTERNAL ->
  cell pc (cleaned_row pc r) = VStr (clean_value (cell pc r)) /\
  cell COL_EXTERNAL (cleaned_row pc r) = VStr (clean_id (cell COL_EXTERNAL r)).
Proof.
  intro Hne. unfold cleaned_row. cbv zeta. split.
  - rewrite cell_set_other by (intro E; apply Hne; now symmetry).
    apply cell_set_same.
  - rewrite cell_set_same, cell_set_other by exact Hne. reflexivity.
Qed.

Lemma nonempty_cell (s : str) :
  negb (value_eqb (VStr s) (VStr [])) = true <-> s <> [].
Proof.
  cbn [value_eqb]. rewrite negb_true_iff. apply str_eqb_neq.
Qed.

(** The cleaned pairs are those of the rows that give one. *)
Lemma In_map_clean (pc : str) (filtered : list row) (uid ext : str) :
  pc <> COL_EXTERNAL ->
  In (uid, ext) (map_clean pc filtered) <->
  exists r, In r filtered /\ contributes pc r uid ext.
Proof.
  intro Hne. unfold map_clean, contributes. rewrite in_map_iff. split.
  - intros (r' & Hr' & H). apply filter_In in H as [H Hf].
    apply in_map_iff in H as (r & <- & Hr).
    destruct (cleaned_cells pc r Hne) as [C1 C2].
    rewrite C1, C2 in Hr', Hf. cbn [text] in Hr'.
    apply andb_true_iff in Hf as [F1 F2].
    apply nonempty_cell in F1, F2.
    inversion Hr'; subst; clear Hr'.
    exists r. repeat split; assumption.
  - intros (r & Hr & E1 & E2 & N1 & N2).
    destruct (cleaned_cells pc r Hne) as [C1 C2].
    exists (cleaned_row pc r). rewrite C1, C2. cbn [text]. split.
    + now rewrite E1, E2.
    + apply filter_In. split; [apply in_map; exact Hr|].
      rewrite C1, C2, E1, E2. apply andb_true_iff.
      split; now apply nonempty_cell.
Qed.

(** The identifiers listed for a uid are those paired with it. *)
Lemma In_ids_of (pairs : list (str * str)) (uid ext : str) :
  In ext (ids_of pairs uid) <-> In (uid, ext) pairs.
Proof.
  unfold ids_of. rewrite In_sorted_set, in_map_iff. split.
  - intros ([a b] & Hb & H). cbn [snd] in Hb. subst b.
    apply filter_In in H as [H Ha]. cbn [fst] in Ha.
    apply str_eqb_eq in Ha. now subst a.
  - intro H. exists (uid, ext). split; [reflexivity|].
    apply filter_In. split; [exact H|]. cbn [fst]. apply str_eqb_refl.
Qed.

(** The identifiers written for a registry row whose identifier cell is
    [v]. *)
Definition ids_listed (pairs : list (str * str)) (v : value) : list str :=
  match v with
  | VStr uid => ids_of pairs uid
  | _ => []
  end.

Lemma ids_text_listed (pairs : list (str * str)) (v : value) :
  ids_text pairs v = join (u ", ") (ids_listed pairs v).
Proof. destruct v; reflexivity. Qed.

Lemma NoDup_ids_listed (pairs : list (str * str)) (v : value) :
  NoDup (ids_listed pairs v).
Proof.
  destruct v; cbn [ids_listed]; try constructor. apply NoDup_sorted_set.
Qed.

(** Every identifier of a used row reaches the registry rows of its uid,
    and nothing else does. *)
Lemma ids_listed_spec (pc : str) (df_mapping : frame) (v : value) (ext : str) :
  pc <> COL_EXTERNAL ->
  In ext (ids_listed (map_clean pc (filter_wholesaler df_mapping)) v) <->
  exists r uid, used df_mapping r /\ v = VStr uid /\ contributes pc r uid ext.
Proof.
  intro Hne. destruct v as [|uid|n|q|d]; cbn [ids_listed];
    try (split; [intros [] | intros (r & uid & _ & E & _); discriminate E]).
  rewrite In_ids_of, (In_map_clean _ _ _ _ Hne). split.
  - intros (r & Hr & Hc). exists r, uid. apply used_iff in Hr. auto.
  - intros (r & uid' & Hr & E & Hc). inversion E; subst uid'.
    exists r. apply used_iff in Hr. auto.
Qed.

End Run.

End ReflectFacts.

Section Reflect.
Context `{P : Platform}.
Import Step8 ReflectFacts.

(** C1.  For every registry and mapping table the reflection either
    stops for a missing column, writing nothing, or writes a registry
    with exactly the rows of the input, in order, each with its new
    column; the integrity stop on a changed row count never happens.  A
    row whose uid has no cleaned mapping pair gets the empty text, and
    with an empty mapping table every row does. *)
Theorem C1_reflect_row_count (df_master df_mapping : frame) :
  match step8_reflect_id_to_master df_master df_mapping with
  | Ok out =>
    nrows out = nrows df_master /\
    exists mc pc,
      find_uid_column (columns df_master) = Some mc /\
      find_uid_column (columns df_mapping) = Some pc /\
      rows out =
        map (reflected (map_clean pc (filter_wholesaler df_mapping)) mc)
            (rows df_master) /\
      (forall l,
         In l (rows df_master) ->
         (forall uid ext,
            In (uid, ext) (map_clean pc (filter_wholesaler df_mapping)) ->
            value_eqb (cell mc (drop_col NEW_COL_NAME l)) (VStr uid) = false) ->
         cell NEW_COL_NAME
              (reflected (map_clean pc (filter_wholesaler df_mapping)) mc l) =
         VStr []) /\
      (rows df_mapping = [] ->
       forall l', In l' (rows out) -> cell NEW_COL_NAME l' = VStr [])
  | Abort e =>
    e = MissingColumn /\
    (find_uid_column (columns df_master) = None \/
     find_uid_column (columns df_mapping) = None \/
     str_in COL_EXTERNAL (columns df_mapping) = false)
  end.
Proof.
  pose proof (reflect_result df_master df_mapping) as H.
  destruct (step8_reflect_id_to_master df_master df_mapping) as [out|e];
    [|exact H].
  destruct H as (mc & pc & Hm & Hp & Hr). split.
  - unfold nrows. rewrite Hr. apply length_map.
  - exists mc, pc. split; [exact Hm|]. split; [exact Hp|].
    split; [exact Hr|]. split.
    + intros l _ Hnone. unfold reflected. cbv zeta.
      rewrite cell_set_same. f_equal. now apply ids_text_none.
    + intros He l' Hl'. rewrite Hr in Hl'.
      apply in_map_iff in Hl' as (l & <- & _).
      unfold reflected. cbv zeta. rewrite cell_set_same. f_equal.
      apply ids_text_none. intros uid ext Hin. exfalso.
      unfold filter_wholesaler in Hin. rewrite He in Hin.
      destruct (str_in COL_WHOLESALER (columns df_mapping)); exact Hin.
Qed.

(** C10.  When the mapping table has the wholesaler column, the rows the
    reflection works with are exactly those whose cleaned wholesaler name
    is the configured one: the result is that of the table with all other
    rows removed, and every identifier listed for a uid comes from such a
    row.  Without the column all rows are used.  What is written into the
    new column of a registry row is the comma-separated list, without
    repetition, of exactly the cleaned external identifiers of the used
    mapping rows whose cleaned uid is the row's: each of them is listed,
    and nothing else is. *)
Theorem C10_wholesaler_filter (df_master df_mapping : frame) :
  (str_in COL_WHOLESALER (columns df_mapping) = true ->
   filter_wholesaler df_mapping =
     filter (fun r => str_eqb (clean_value (cell COL_WHOLESALER r))
                              FIXED_WHOLESALER_NAME)
            (rows df_mapping) /\
   step8_reflect_id_to_master df_master df_mapping =
     step8_reflect_id_to_master df_master
       (mk_frame (columns df_mapping)
          (filter (fun r => str_eqb (clean_value (cell COL_WHOLESALER r))
                                    FIXED_WHOLESALER_NAME)
                  (rows df_mapping))) /\
   forall pc uid ext,
     In ext (ids_of (map_clean pc (filter_wholesaler df_mapping)) uid) ->
     exists r, In r (rows df_mapping) /\
               clean_value (cell COL_WHOLESALER r) = FIXED_WHOLESALER_NAME /\
               text (cell pc (cleaned_row pc r)) = uid /\
               text (cell COL_EXTERNAL (cleaned_row pc r)) = ext) /\
  (str_in COL_WHOLESALER (columns df_mapping) = false ->
   filter_wholesaler df_mapping = rows df_mapping) /\
  (forall out,
     step8_reflect_id_to_master df_master df_mapping = Ok out ->
     exists mc pc,
       find_uid_column (columns df_master) = Some mc /\
       find_uid_column (columns df_mapping) = Some pc /\
       length (rows out) = length (rows df_master) /\
       (pc <> COL_EXTERNAL ->
        forall i l,
          nth_error (rows df_master) i = Some l ->
          exists l' ids,
            nth_error (rows out) i = Some l' /\
            cell NEW_COL_NAME l' = VStr (join (u ", ") ids) /\
            NoDup ids /\
            forall ext,
              In ext ids <->
              exists r uid,
                (In r (rows df_mapping) /\
                 (str_in COL_WHOLESALER (columns df_mapping) = true ->
                  clean_value (cell COL_WHOLESALER r) = FIXED_WHOLESALER_NAME)) /\
                cell mc (drop_col NEW_COL_NAME l) = VStr uid /\
                clean_value (cell pc r) = uid /\
                clean_id (cell COL_EXTERNAL r) = ext /\
                uid <> [] /\ ext <> [])).
Proof.
  split; [|split].
  - intro Hc. split; [|split].
    + unfold filter_wholesaler. now rewrite Hc.
    + now apply reflect_filtered.
    + intros pc uid ext Hin.
      apply ids_origin in Hin as (r & Hr & Hu & He).
      apply (filter_wholesaler_chosen _ _ Hc) in Hr as [Hr Hw].
      exists r. repeat split; assumption.
  - intro Hc. unfold filter_wholesaler. now rewrite Hc.
  - intros out Hout.
    pose proof (reflect_result df_master df_mapping) as H.
    rewrite Hout in H. destruct H as (mc & pc & Hm & Hp & Hr).
    exists mc, pc. split; [exact Hm|]. split; [exact Hp|]. split.
    + rewrite Hr. apply length_map.
    + intros Hne i l Hi.
      exists (reflected (map_clean pc (filter_wholesaler df_mapping)) mc l),
             (ids_listed (map_clean pc (filter_wholesaler df_mapping))
                         (cell mc (drop_col NEW_COL_NAME l))).
      split; [|split; [|split]].
      * rewrite Hr, nth_error_map, Hi. reflexivity.
      * unfold reflected. cbv zeta. rewrite cell_set_same.
        now rewrite ids_text_listed.
      * apply NoDup_ids_listed.
      * intro ext. rewrite (ids_listed_spec pc df_mapping _ ext Hne).
        unfold used, contributes. reflexivity.
Qed.

End Reflect.

(** A run on the reference platform: the second mapping row belongs to
    another wholesaler, the third repeats an identifier as a float. *)
Lemma reflect_example :
  let df_master :=
    mk_frame [u "自社UID"; u "動物病院施設名"]
      [[(u "自社UID", VStr (u "AAAAAA")); (u "動物病院施設名", VStr (u "A"))];
       [(u "自社UID", VStr (u "BBBBBB")); (u "動物病院施設名", VStr (u "B"))]] in
  let df_mapping :=
    mk_frame [u "自社UID"; u "卸業者名"; u "卸側施設ID"]
      [[(u "自社UID", VStr (u "AAAAAA")); (u "卸業者名", VStr (u "アスコ"));
        (u "卸側施設ID", VInt 200)];
       [(u "自社UID", VStr (u "AAAAAA")); (u "卸業者名", VStr (u "他社"));
        (u "卸側施設ID", VInt 999)];
       [(u "自社UID", VStr (u " AAAAAA ")); (u "卸業者名", VStr (u "アスコ"));
        (u "卸側施設ID", VFloat (100 # 1))]] in
  match @Step8.step8_reflect_id_to_master Reference.platform df_master df_mapping with
  | Ok out =>
    map (cell Step8.NEW_COL_NAME) (rows out) = [VStr (u "100, 200"); VStr []] /\
    columns out = [u "自社UID"; u "動物病院施設名"; u "卸側施設ID"]
  | Abort _ => False
  end.
Proof. vm_compute. repeat split. Qed.

(** On that run the identifier column of the mapping table is not the
    external identifier column, and the first registry row lists the two
    identifiers of its uid that the configured wholesaler gave. *)
Lemma C10_wholesaler_witness :
  let df_master :=
    mk_frame [u "自社UID"; u "動物病院施設名"]
      [[(u "自社UID", VStr (u "AAAAAA")); (u "動物病院施設名", VStr (u "A"))];
       [(u "自社UID", VStr (u "BBBBBB")); (u "動物病院施設名", VStr (u "B"))]] in
  let df_mapping :=
    mk_frame [u "自社UID"; u "卸業者名"; u "卸側施設ID"]
      [[(u "自社UID", VStr (u "AAAAAA")); (u "卸業者名", VStr (u "アスコ"));
        (u "卸側施設ID", VInt 200)];
       [(u "自社UID", VStr (u "AAAAAA")); (u "卸業者名", VStr (u "他社"));
        (u "卸側施設ID", VInt 999)];
       [(u "自社UID", VStr (u " AAAAAA ")); (u "卸業者名", VStr (u "アスコ"));
        (u "卸側施設ID", VFloat (100 # 1))]] in
  exists out,
    @Step8.step8_reflect_id_to_master Reference.platform df_master df_mapping = Ok out /\
    exists mc pc,
      @Step8.find_uid_column Reference.platform (columns df_master) = Some mc /\
      @Step8.find_uid_column Reference.platform (columns df_mapping) = Some pc /\
      pc <> Step8.COL_EXTERNAL /\
      length (rows out) = length (rows df_master).
Proof.
  cbv zeta. eexists. split; [vm_compute; reflexivity|].
  match goal with
  | |- context [@Step8.find_uid_column _ (columns ?m) = Some _ /\
                @Step8.find_uid_column _ (columns ?p) = Some _ /\ _] =>
    destruct (proj2 (proj2 (@C10_wholesaler_filter Reference.platform m p)) _
                (ltac:(vm_compute; reflexivity)))
      as (mc & pc & Hm & Hp & Hl & _)
  end.
  exists mc, pc. split; [exact Hm|]. split; [exact Hp|]. split; [|exact Hl].
  intro E. rewrite E in Hp. vm_compute in Hp. discriminate Hp.
Defined.
(* ===================================================================== *)
(** * The mapping merge *)
(* ===================================================================== *)

Module MergeFacts.

(** A file that is absent or holds no row. *)
Definition no_rows (o : option frame) : Prop :=
  match o with
  | None => True
  | Some df => rows df = []
  end.

(** The rows of a file, none when it is absent. *)
Definition rows_of (o : option frame) : list row :=
  match o with
  | None => []
  | Some df => rows df
  end.

(** The external identifier of a merged row is a non-empty text. *)
Definition has_external_id (r : row) : Prop :=
  exists s, cell (u "卸側施設ID") r = VStr s /\ s <> [].

(** ** Stripping *)

(** No white space at the front. *)
Definition no_lead (s : str) : Prop :=
  match s with
  | [] => True
  | c :: _ => isspace c = false
  end.

Lemma lstrip_no_lead (s : str) : no_lead (lstrip s).
Proof.
  induction s as [|c s IH]; cbn [lstrip]; [exact I|].
  destruct (isspace c) eqn:E; [exact IH | exact E].
Qed.

Lemma lstrip_fixed (s : str) : no_lead s -> lstrip s = s.
Proof.
  destruct s as [|c s]; [reflexivity|]. cbn [no_lead lstrip].
  intros ->. reflexivity.
Qed.

Lemma lstrip_suffix (s : str) : exists p, s = p ++ lstrip s.
Proof.
  induction s as [|c s [p Hp]]; [exists []; reflexivity|]. cbn [lstrip].
  destruct (isspace c).
  - exists (c :: p). cbn [app]. now f_equal.
  - exists []. reflexivity.
Qed.

Lemma rstrip_prefix (s : str) : exists q, s = rstrip s ++ q.
Proof.
  unfold rstrip. destruct (lstrip_suffix (rev s)) as [p Hp].
  exists (rev p). rewrite <- rev_app_distr, <- Hp. now rewrite rev_involutive.
Qed.

Lemma rstrip_no_lead (s : str) : no_lead s -> no_lead (rstrip s).
Proof.
  intro H. destruct (rstrip_prefix s) as [q Hq].
  destruct (rstrip s) as [|c t]; [exact I|].
  rewrite Hq in H. exact H.
Qed.

Lemma rstrip_rstrip (s : str) : rstrip (rstrip s) = rstrip s.
Proof.
  unfold rstrip. rewrite rev_involutive.
  now rewrite (lstrip_fixed (lstrip (rev s))) by apply lstrip_no_lead.
Qed.

(** Stripping twice is stripping once. *)
Lemma strip_strip (s : str) : strip (strip s) = strip s.
Proof.
  unfold strip.
  rewrite (lstrip_fixed (rstrip (lstrip s)))
    by (apply rstrip_no_lead, lstrip_no_lead).
  apply rstrip_rstrip.
Qed.

Section WithPlatform.
Context `{P : Platform}.

(** What the specification asks of the merged table, from the union of
    the three sources: duplicates of the key pair dropped keeping the
    last, the external identifier cleaned, rows without one removed. *)
Definition merged_rows (union : list row) : list row :=
  filter (fun r => negb (value_eqb (cell (u "卸側施設ID") r) (VStr [])))
    (map (fun r => set (u "卸側施設ID")
                       (VStr (Step7.clean_value (cell (u "卸側施設ID") r))) r)
         (drop_duplicates_last [u "自社UID"; u "卸側施設ID"] union)).

Lemma step7_standardize_no_rows (df : frame) :
  rows df = [] -> Step7.standardize_columns df = Ok Step7.empty_final.
Proof. intro H. unfold Step7.standardize_columns. now rewrite H. Qed.

Lemma step7_manual_no_rows (df : frame) :
  rows df = [] -> Step7.manual_clean df = Ok empty_frame.
Proof.
  intro H. unfold Step7.manual_clean.
  destruct (Step7.find_uid_column (columns df)) as [c|]; [|reflexivity].
  unfold Step7.manual_rows, apply_col. now rewrite H.
Qed.

Lemma step3_standardize_no_rows (df : frame) :
  rows df = [] -> Step3.standardize_columns df = Ok empty_frame.
Proof. intro H. unfold Step3.standardize_columns. now rewrite H. Qed.

Lemma step3_manual_no_rows (df : frame) :
  rows df = [] -> Step3.manual_clean df = Ok empty_frame.
Proof.
  intro H. unfold Step3.manual_clean.
  destruct (Step3.find_uid_column (columns df)) as [c|]; [|reflexivity].
  cbv zeta. cbn [rows]. now rewrite H.
Qed.

(** With nothing new to merge both tools stop before they write. *)
Lemma step7_nothing_new (a b m : option frame) :
  no_rows a -> no_rows b ->
  Step7.step7_merge_final (mk_files a b m) = Abort NoData.
Proof.
  intros Ha Hb. unfold Step7.step7_merge_final.
  cbn [candidate_file unmatched_file final_mapping_file].
  destruct a as [da|]; destruct b as [db|]; cbn [Step7.or_empty no_rows] in *;
    rewrite ?(step7_standardize_no_rows da Ha), ?(step7_manual_no_rows db Hb);
    reflexivity.
Qed.

Lemma step3_nothing_new (a b m : option frame) :
  no_rows a -> no_rows b ->
  Step3.main (mk_files a b m) = Abort NoData.
Proof.
  intros Ha Hb. unfold Step3.main.
  cbn [candidate_file unmatched_file final_mapping_file].
  destruct a as [da|]; destruct b as [db|]; cbn [Step3.or_empty no_rows] in *;
    rewrite ?(step3_standardize_no_rows da Ha), ?(step3_manual_no_rows db Hb);
    reflexivity.
Qed.

Lemma compact_rows (df : frame) :
  rows (Step7.compact df) = merged_rows (rows df).
Proof. reflexivity. Qed.

Lemma merged_rows_have_id (union : list row) :
  Forall has_external_id (merged_rows union).
Proof.
  apply Forall_forall. intros r Hr. unfold merged_rows in Hr.
  apply filter_In in Hr as [Hr Hne]. apply in_map_iff in Hr as (r0 & <- & _).
  rewrite cell_set_same in Hne. unfold has_external_id.
  rewrite cell_set_same. eexists. split; [reflexivity|].
  cbn [value_eqb] in Hne. apply negb_true_iff in Hne.
  now apply str_eqb_neq.
Qed.

(** What [step7_merge_final] writes. *)
Lemma step7_written (fs : files) (out : frame) :
  Step7.step7_merge_final fs = Ok out ->
  exists df_candidate df_manual,
    Step7.or_empty Step7.standardize_columns (candidate_file fs) = Ok df_candidate /\
    Step7.or_empty Step7.manual_clean (unmatched_file fs) = Ok df_manual /\
    rows df_candidate ++ rows df_manual <> [] /\
    rows out =
      merged_rows (rows_of (final_mapping_file fs) ++
                   rows df_candidate ++ rows df_manual).
Proof.
  unfold Step7.step7_merge_final.
  destruct (Step7.or_empty Step7.standardize_columns (candidate_file fs))
    as [dc|e]; [|discriminate].
  destruct (Step7.or_empty Step7.manual_clean (unmatched_file fs))
    as [dm|e]; [|discriminate].
  cbv zeta. unfold concat at 1. cbn [rows].
  destruct (rows dc ++ rows dm) as [|r0 rest] eqn:En; [discriminate|].
  intro H. exists dc, dm. split; [reflexivity|]. split; [reflexivity|].
  split; [rewrite En; discriminate|].
  destruct (final_mapping_file fs) as [de|]; inversion H; subst; clear H;
    rewrite compact_rows; unfold concat; cbn [rows rows_of app];
    rewrite ?En; reflexivity.
Qed.

(** ** Tables in cleaned form *)

(** A text that cleaning leaves as it is. *)
Definition clean_text (s : str) : Prop := Step7.clean_value (VStr s) = s.

(** [clean_value(...) or FIXED_WHOLESALER_NAME] *)
Definition wholesaler_of (v : value) : str :=
  match Step7.clean_value v with
  | [] => Step7.FIXED_WHOLESALER_NAME
  | s => s
  end.

(** A row as [standardize_columns] builds it: the five final columns in
    order, every cell a cleaned text, the identifier present. *)
Definition clean_row (r : row) : Prop :=
  exists uid name wholesaler id date,
    r = [(u "自社UID", VStr uid); (u "施設名(確認用)", VStr name);
         (u "卸業者名", VStr wholesaler); (u "卸側施設ID", VStr id);
         (u "適用開始日", VStr date)] /\
    uid <> [] /\ clean_text uid /\ clean_text name /\
    wholesaler_of (VStr wholesaler) = wholesaler /\
    clean_text id /\ clean_text date.

(** A mapping table in cleaned form, as an earlier run on cleaned input
    leaves it. *)
Definition clean_table (df : frame) : Prop :=
  columns df = Step7.FINAL_COLUMNS /\ Forall clean_row (rows df).

Definition clean_or_absent (o : option frame) : Prop :=
  match o with
  | None => True
  | Some df => clean_table df
  end.

(** The key pair of a row. *)
Definition pair_of (r : row) : value * value :=
  (cell (u "自社UID") r, cell (u "卸側施設ID") r).

Lemma clean_value_cases (v : value) :
  Step7.clean_value v = [] \/
  (Step7.clean_value v = strip (py_str v) /\
   str_in (lower (strip (py_str v))) [u "nan"; u "none"; u "null"; u "nat"] = false).
Proof.
  unfold Step7.clean_value. destruct (isna v); [now left|]. cbv zeta.
  destruct (str_in (lower (strip (py_str v)))
                   [u "nan"; u "none"; u "null"; u "nat"]); [now left|].
  right. now split.
Qed.

Lemma clean_empty : clean_text [].
Proof.
  unfold clean_text, Step7.clean_value. cbn [isna py_str]. cbv zeta.
  change (strip []) with (@nil Z).
  destruct (str_in (lower []) [u "nan"; u "none"; u "null"; u "nat"]);
    reflexivity.
Qed.

(** Cleaning a cleaned text changes nothing. *)
Lemma clean_value_clean (v : value) : clean_text (Step7.clean_value v).
Proof.
  destruct (clean_value_cases v) as [E|[E Hn]]; rewrite E.
  - apply clean_empty.
  - unfold clean_text, Step7.clean_value. cbn [isna py_str]. cbv zeta.
    rewrite strip_strip, Hn. reflexivity.
Qed.

Lemma fixed_name_stripped :
  strip Step7.FIXED_WHOLESALER_NAME = Step7.FIXED_WHOLESALER_NAME.
Proof. vm_compute. reflexivity. Qed.

Lemma wholesaler_stable (v : value) :
  wholesaler_of (VStr (wholesaler_of v)) = wholesaler_of v.
Proof.
  unfold wholesaler_of at 2 3.
  destruct (Step7.clean_value v) as [|c s] eqn:E.
  - unfold wholesaler_of, Step7.clean_value. cbn [isna py_str]. cbv zeta.
    rewrite fixed_name_stripped.
    destruct (str_in (lower Step7.FIXED_WHOLESALER_NAME)
                     [u "nan"; u "none"; u "null"; u "nat"]); reflexivity.
  - unfold wholesaler_of.
    pose proof (clean_value_clean v) as H. unfold clean_text in H.
    rewrite E in H. rewrite H. reflexivity.
Qed.

Lemma clean_row_cells (uid name wholesaler id date : str) (d : value) :
  let r := [(u "自社UID", VStr uid); (u "施設名(確認用)", VStr name);
            (u "卸業者名", VStr wholesaler); (u "卸側施設ID", VStr id);
            (u "適用開始日", VStr date)] in
  cell (u "自社UID") r = VStr uid /\
  cell (u "施設名(確認用)") r = VStr name /\
  get_default (u "卸業者名") d r = VStr wholesaler /\
  cell (u "卸側施設ID") r = VStr id /\
  get_default (u "適用開始日") d r = VStr date.
Proof. vm_compute. repeat split. Qed.

Lemma clean_row_set_id (uid name wholesaler id date x : str) :
  set (u "卸側施設ID") (VStr x)
      [(u "自社UID", VStr uid); (u "施設名(確認用)", VStr name);
       (u "卸業者名", VStr wholesaler); (u "卸側施設ID", VStr id);
       (u "適用開始日", VStr date)] =
  [(u "自社UID", VStr uid); (u "施設名(確認用)", VStr name);
   (u "卸業者名", VStr wholesaler); (u "卸側施設ID", VStr x);
   (u "適用開始日", VStr date)].
Proof. vm_compute. reflexivity. Qed.

(** The row [standardize_columns] builds is in cleaned form. *)
Lemma new_row_clean (uid_val : str) (name_col wholesaler_id_col : option str)
    (r : row) :
  uid_val <> [] -> clean_text uid_val ->
  clean_row (Step7.new_row uid_val name_col wholesaler_id_col r).
Proof.
  intros Hne Hc. unfold Step7.new_row, clean_row.
  eexists _, _, _, _, _. split; [reflexivity|].
  split; [exact Hne|]. split; [exact Hc|]. split; [|split; [|split]].
  - destruct name_col; [apply clean_value_clean | apply clean_empty].
  - apply (wholesaler_stable
             (get_default (u "卸業者名") (VStr Step7.FIXED_WHOLESALER_NAME) r)).
  - destruct wholesaler_id_col; [apply clean_value_clean | apply clean_empty].
  - apply clean_value_clean.
Qed.

(** On a row in cleaned form it builds the same row again. *)
Lemma new_row_same (r : row) :
  clean_row r ->
  Step7.clean_value (cell (u "自社UID") r) <> [] /\
  Step7.new_row (Step7.clean_value (cell (u "自社UID") r))
                (Some (u "施設名(確認用)")) (Some (u "卸側施設ID")) r = r.
Proof.
  intros (uid & name & w & id & date & -> & Hne & Cu & Cn & Cw & Ci & Cd).
  unfold Step7.new_row.
  destruct (clean_row_cells uid name w id date (VStr Step7.FIXED_WHOLESALER_NAME))
    as (E1 & E2 & E3 & E4 & _).
  destruct (clean_row_cells uid name w id date (VStr [])) as (_ & _ & _ & _ & E5).
  cbv zeta in E1, E2, E3, E4, E5. rewrite E1, E2, E3, E4, E5.
  fold (wholesaler_of (VStr w)).
  unfold clean_text in Cu, Cn, Ci, Cd. rewrite Cu, Cn, Cw, Ci, Cd.
  split; [exact Hne | reflexivity].
Qed.

Lemma clean_row_pair (r : row) :
  clean_row r ->
  exists uid id, pair_of r = (VStr uid, VStr id) /\ clean_text id /\
                 set (u "卸側施設ID") (VStr id) r = r.
Proof.
  intros (uid & name & w & id & date & -> & Hne & Cu & Cn & Cw & Ci & Cd).
  exists uid, id. unfold pair_of.
  destruct (clean_row_cells uid name w id date VNaN) as (E1 & _ & _ & E4 & _).
  cbv zeta in E1, E4. rewrite E1, E4. split; [reflexivity|].
  split; [exact Ci|]. apply clean_row_set_id.
Qed.

(** ** What the two readers hand to the merge *)

Lemma flat_map_fixed {A} (g : A -> list A) (l : list A) :
  (forall x, In x l -> g x = [x]) -> flat_map g l = l.
Proof.
  induction l as [|x l IH]; intro H; cbn [flat_map]; [reflexivity|].
  rewrite (H x) by now left. cbn [app]. f_equal. apply IH.
  intros y Hy. apply H. now right.
Qed.

Lemma standardize_clean (df out : frame) :
  Step7.standardize_columns df = Ok out -> clean_table out.
Proof.
  assert (E0 : clean_table Step7.empty_final) by (split; [reflexivity | constructor]).
  unfold Step7.standardize_columns.
  destruct (rows df) as [|r0 rs]; [intro H; inversion H; exact E0|].
  destruct (find _ (columns df)) as [uid_col|];
    [|intro H; inversion H; exact E0].
  destruct (1 <? count_col uid_col (columns df))%nat; [discriminate|].
  cbv zeta.
  match goal with
  | |- match ?l with [] => _ | _ => _ end = _ -> _ =>
    assert (Hall : Forall clean_row l); [|destruct l]
  end.
  - apply Forall_forall. intros x Hx. apply in_flat_map in Hx as (r & _ & Hx).
    cbv zeta in Hx.
    destruct (str_eqb (Step7.clean_value (cell uid_col r)) []) eqn:E;
      [destruct Hx|].
    destruct Hx as [<-|[]]. apply new_row_clean.
    + now apply str_eqb_neq.
    + apply clean_value_clean.
  - intro H. inversion H. exact E0.
  - intro H. inversion H. split; [reflexivity | exact Hall].
Qed.

(** A non-empty table in cleaned form comes back from
    [standardize_columns] as it went in. *)
Lemma standardize_same (df : frame) :
  clean_table df -> rows df <> [] -> Step7.standardize_columns df = Ok df.
Proof.
  destruct df as [cols rs]. intros [Hc Hr] Hne. cbn [columns rows] in *.
  subst cols. unfold Step7.standardize_columns. cbn [rows columns].
  destruct rs as [|r0 rs'] eqn:Ers; [contradiction|]. rewrite <- Ers in *.
  assert (Hfind : find (fun col => str_in col Step7.uid_patterns ||
                                   contains (u "UID") (upper col))
                       Step7.FINAL_COLUMNS = Some (u "自社UID")).
  { unfold Step7.FINAL_COLUMNS. cbn [find].
    assert (str_in (u "自社UID") Step7.uid_patterns = true) as ->
      by (vm_compute; reflexivity).
    reflexivity. }
  rewrite Hfind.
  assert (count_col (u "自社UID") Step7.FINAL_COLUMNS = 1%nat) as ->
    by (vm_compute; reflexivity).
  change (1 <? 1)%nat with false. cbv iota zeta.
  assert (first_present [u "卸側施設ID"; u "得意先コード"] Step7.FINAL_COLUMNS =
          Some (u "卸側施設ID")) as -> by (vm_compute; reflexivity).
  assert (first_present [u "施設名(確認用)"; u "得意先名称"; u "卸側名称(参考)";
                         u "動物病院施設名"] Step7.FINAL_COLUMNS =
          Some (u "施設名(確認用)")) as -> by (vm_compute; reflexivity).
  rewrite flat_map_fixed.
  - rewrite Ers. rewrite <- Ers. reflexivity.
  - intros r Hin. rewrite Forall_forall in Hr.
    destruct (new_row_same r (Hr r Hin)) as [N1 N2].
    apply str_eqb_neq in N1. rewrite N1, N2. reflexivity.
Qed.

(** What a reader hands over: rows in cleaned form, under the final
    columns or, with no row at all, under none. *)
Definition handed (df : frame) : Prop :=
  Forall clean_row (rows df) /\
  (columns df = Step7.FINAL_COLUMNS \/ (columns df = [] /\ rows df = [])).

Lemma handed_empty : handed empty_frame.
Proof. split; [constructor | right; now split]. Qed.

Lemma candidate_handed (o : option frame) (out : frame) :
  Step7.or_empty Step7.standardize_columns o = Ok out -> handed out.
Proof.
  destruct o as [df|]; cbn [Step7.or_empty].
  - intro H. apply standardize_clean in H as [Hc Hr]. split; [exact Hr | now left].
  - intro H. inversion H. apply handed_empty.
Qed.

Lemma manual_handed (o : option frame) (out : frame) :
  Step7.or_empty Step7.manual_clean o = Ok out -> handed out.
Proof.
  destruct o as [df|]; cbn [Step7.or_empty].
  - unfold Step7.manual_clean.
    destruct (Step7.find_uid_column (columns df)) as [c|];
      [|intro H; inversion H; apply handed_empty].
    destruct (Step7.manual_rows c df);
      [intro H; inversion H; apply handed_empty|].
    intro H. apply standardize_clean in H as [Hc Hr].
    split; [exact Hr | now left].
  - intro H. inversion H. apply handed_empty.
Qed.

Lemma final_columns_union :
  union_columns Step7.FINAL_COLUMNS Step7.FINAL_COLUMNS = Step7.FINAL_COLUMNS /\
  union_columns Step7.FINAL_COLUMNS [] = Step7.FINAL_COLUMNS /\
  union_columns [] Step7.FINAL_COLUMNS = Step7.FINAL_COLUMNS.
Proof. vm_compute. repeat split. Qed.

(** The new rows of a run, when there are any, come under the final
    columns. *)
Lemma handed_concat (a b : frame) :
  handed a -> handed b -> rows a ++ rows b <> [] ->
  clean_table (concat a b).
Proof.
  intros [Ha Ca] [Hb Cb] Hne. unfold clean_table, concat. cbn [columns rows].
  split; [|apply Forall_app; now split].
  destruct final_columns_union as (U1 & U2 & U3).
  destruct Ca as [Ca|[Ca Ra]]; destruct Cb as [Cb|[Cb Rb]]; rewrite Ca, Cb;
    try assumption.
  rewrite Ra, Rb in Hne. now contradiction Hne.
Qed.

(** ** Dropping duplicates *)

(** No row has a later row with the same key. *)
Fixpoint no_later_dup (keys : list str) (rs : list row) : bool :=
  match rs with
  | [] => true
  | r :: rs' => negb (existsb (same_key keys r) rs') && no_later_dup keys rs'
  end.

Lemma value_eqb_refl (v : value) : value_eqb v v = true.
Proof.
  destruct v as [|s|n|q|d]; cbn [value_eqb as_Q].
  - reflexivity.
  - apply str_eqb_refl.
  - apply Qeq_bool_iff. reflexivity.
  - apply Qeq_bool_iff. reflexivity.
  - unfold date_eqb. now rewrite !Z.eqb_refl.
Qed.

Lemma same_key_refl (keys : list str) (r : row) : same_key keys r r = true.
Proof.
  unfold same_key. apply forallb_forall. intros k _. apply value_eqb_refl.
Qed.

Lemma dedup_incl (keys : list str) (rs : list row) (r : row) :
  In r (drop_duplicates_last keys rs) -> In r rs.
Proof.
  induction rs as [|x rs IH]; cbn [drop_duplicates_last]; [auto|].
  destruct (existsb (same_key keys x) rs); cbn [In]; intuition.
Qed.

Lemma existsb_false_incl {A} (f : A -> bool) (l l' : list A) :
  (forall x, In x l' -> In x l) -> existsb f l = false -> existsb f l' = false.
Proof.
  intros Hi Hf. destruct (existsb f l') eqn:E; [|reflexivity].
  apply existsb_exists in E as (x & Hx & Fx).
  assert (existsb f l = true) by (apply existsb_exists; exists x; auto).
  congruence.
Qed.

Lemma dedup_no_later_dup (keys : list str) (rs : list row) :
  no_later_dup keys (drop_duplicates_last keys rs) = true.
Proof.
  induction rs as [|x rs IH]; cbn [drop_duplicates_last]; [reflexivity|].
  destruct (existsb (same_key keys x) rs) eqn:E; [exact IH|].
  cbn [no_later_dup]. rewrite IH, andb_true_r. apply negb_true_iff.
  apply (existsb_false_incl _ rs); [apply dedup_incl | exact E].
Qed.

Lemma filter_no_later_dup (keys : list str) (p : row -> bool) (rs : list row) :
  no_later_dup keys rs = true -> no_later_dup keys (filter p rs) = true.
Proof.
  induction rs as [|x rs IH]; cbn [no_later_dup filter]; [auto|].
  intro H. apply andb_true_iff in H as [H1 H2].
  destruct (p x); [|now apply IH].
  cbn [no_later_dup]. rewrite (IH H2), andb_true_r.
  apply negb_true_iff. apply negb_true_iff in H1.
  apply (existsb_false_incl _ rs); [|exact H1].
  intros y Hy. now apply filter_In in Hy.
Qed.

Lemma dedup_fixed (keys : list str) (rs : list row) :
  no_later_dup keys rs = true -> drop_duplicates_last keys rs = rs.
Proof.
  induction rs as [|x rs IH]; cbn [no_later_dup drop_duplicates_last]; [auto|].
  intro H. apply andb_true_iff in H as [H1 H2].
  apply negb_true_iff in H1. rewrite H1, (IH H2). reflexivity.
Qed.

(** Rows that all come again later are dropped. *)
Lemma dedup_repeated (keys : list str) (front back : list row) :
  (forall r, In r front -> In r back) ->
  drop_duplicates_last keys (front ++ back) = drop_duplicates_last keys back.
Proof.
  induction front as [|x front IH]; intro H; cbn [app drop_duplicates_last];
    [reflexivity|].
  assert (existsb (same_key keys x) (front ++ back) = true) as ->.
  { apply existsb_exists. exists x. split; [|apply same_key_refl].
    apply in_or_app. right. apply H. now left. }
  apply IH. intros r Hr. apply H. now right.
Qed.

Lemma no_later_dup_pairs (rs : list row) :
  no_later_dup Step7.KEY_COLUMNS rs = true -> NoDup (map pair_of rs).
Proof.
  induction rs as [|x rs IH]; cbn [no_later_dup map]; [constructor|].
  intro H. apply andb_true_iff in H as [H1 H2]. apply negb_true_iff in H1.
  constructor; [|now apply IH].
  intro Hin. apply in_map_iff in Hin as (y & Ey & Hy).
  assert (existsb (same_key Step7.KEY_COLUMNS x) rs = true); [|congruence].
  apply existsb_exists. exists y. split; [exact Hy|].
  unfold pair_of in Ey. inversion Ey as [[E1 E2]].
  unfold same_key, Step7.KEY_COLUMNS. cbn [forallb].
  rewrite E1, E2, !value_eqb_refl. reflexivity.
Qed.

Lemma filter_fixed {A} (p : A -> bool) (l : list A) :
  filter p (filter p l) = filter p l.
Proof.
  induction l as [|x l IH]; cbn [filter]; [reflexivity|].
  destruct (p x) eqn:E; [|exact IH]. cbn [filter]. now rewrite E, IH.
Qed.

Lemma map_fixed {A} (f : A -> A) (l : list A) :
  (forall x, In x l -> f x = x) -> map f l = l.
Proof.
  induction l as [|x l IH]; intro H; cbn [map]; [reflexivity|].
  rewrite (H x) by now left. f_equal. apply IH. intros y Hy. apply H. now right.
Qed.

(** ** Merging rows in cleaned form *)

(** On rows in cleaned form the cleaning pass of the merge changes
    nothing: what is written are the rows left by the duplicate drop that
    have an external identifier. *)
Lemma merged_clean (union : list row) :
  Forall clean_row union ->
  merged_rows union =
  filter (fun r => negb (value_eqb (cell (u "卸側施設ID") r) (VStr [])))
         (drop_duplicates_last Step7.KEY_COLUMNS union).
Proof.
  intro H. unfold merged_rows. f_equal.
  change [u "自社UID"; u "卸側施設ID"] with Step7.KEY_COLUMNS.
  apply map_fixed. intros r Hr. apply dedup_incl in Hr.
  rewrite Forall_forall in H.
  pose proof (H r Hr) as Hc.
  destruct Hc as (uid & name & w & id & date & -> & Hne & Cu & Cn & Cw & Ci & Cd).
  destruct (clean_row_cells uid name w id date VNaN) as (_ & _ & _ & E4 & _).
  cbv zeta in E4. rewrite E4. unfold clean_text in Ci. rewrite Ci.
  apply clean_row_set_id.
Qed.

(** The merged rows of rows in cleaned form: still in cleaned form, no
    key pair twice, and merging them again, alone or after themselves,
    gives them back. *)
Lemma merged_clean_facts (union : list row) :
  Forall clean_row union ->
  Forall clean_row (merged_rows union) /\
  NoDup (map pair_of (merged_rows union)) /\
  merged_rows (merged_rows union) = merged_rows union /\
  merged_rows (merged_rows union ++ merged_rows union) = merged_rows union.
Proof.
  intro H. rewrite (merged_clean union H).
  set (p := fun r => negb (value_eqb (cell (u "卸側施設ID") r) (VStr []))).
  set (out := filter p (drop_duplicates_last Step7.KEY_COLUMNS union)).
  assert (Hout : Forall clean_row out).
  { apply Forall_forall. intros r Hr. apply filter_In in Hr as [Hr _].
    apply dedup_incl in Hr. rewrite Forall_forall in H. now apply H. }
  assert (Hnd : no_later_dup Step7.KEY_COLUMNS out = true)
    by apply filter_no_later_dup, dedup_no_later_dup.
  split; [exact Hout|]. split; [now apply no_later_dup_pairs|].
  assert (E1 : merged_rows out = out).
  { rewrite (merged_clean out Hout), (dedup_fixed _ _ Hnd).
    apply filter_fixed. }
  split; [exact E1|].
  rewrite merged_clean by (apply Forall_app; now split).
  rewrite dedup_repeated by auto.
  rewrite (dedup_fixed _ _ Hnd). apply filter_fixed.
Qed.

Lemma compact_frame (df : frame) :
  Step7.compact df = mk_frame (columns df) (merged_rows (rows df)).
Proof. reflexivity. Qed.

(** A written table, merged again as the only new input, or as the
    existing table and the new input at once. *)
Lemma remerge (out : frame) :
  clean_table out -> rows out <> [] ->
  merged_rows (rows out) = rows out ->
  merged_rows (rows out ++ rows out) = rows out ->
  Step7.step7_merge_final (mk_files (Some out) None None) = Ok out /\
  Step7.step7_merge_final (mk_files (Some out) None (Some out)) = Ok out.
Proof.
  intros Hc Hne E1 E2.
  destruct final_columns_union as (U1 & U2 & U3).
  unfold Step7.step7_merge_final.
  cbn [candidate_file unmatched_file final_mapping_file Step7.or_empty].
  rewrite (standardize_same out Hc Hne). cbv zeta.
  destruct out as [cols rs]. destruct Hc as [Hcols _].
  cbn [columns rows] in *. subst cols.
  unfold concat, empty_frame. cbn [columns rows]. rewrite app_nil_r.
  destruct rs as [|r0 rs'] eqn:Ers; [contradiction|]. rewrite <- Ers in *.
  rewrite !compact_frame. cbn [columns rows].
  rewrite !U2, !U1, E1, E2. split; reflexivity.
Qed.

(** A run that writes: the table written, its columns included. *)
Lemma step7_written_clean (fs : files) (out : frame) :
  Step7.step7_merge_final fs = Ok out ->
  clean_or_absent (final_mapping_file fs) ->
  exists union,
    Forall clean_row union /\
    out = mk_frame Step7.FINAL_COLUMNS (merged_rows union).
Proof.
  unfold Step7.step7_merge_final.
  destruct (Step7.or_empty Step7.standardize_columns (candidate_file fs))
    as [dc|e] eqn:Ec; [|discriminate].
  destruct (Step7.or_empty Step7.manual_clean (unmatched_file fs))
    as [dm|e] eqn:Em; [|discriminate].
  cbv zeta.
  pose proof (candidate_handed _ _ Ec) as Hc.
  pose proof (manual_handed _ _ Em) as Hm.
  destruct (rows (concat dc dm)) as [|r0 rest] eqn:En; [discriminate|].
  assert (Hnew : clean_table (concat dc dm)).
  { apply handed_concat; try assumption.
    unfold concat in En. cbn [rows] in En. rewrite En. discriminate. }
  destruct Hnew as [Ncols Nrows].
  destruct final_columns_union as (U1 & U2 & U3).
  destruct (final_mapping_file fs) as [de|]; intros H He; inversion H; clear H.
  - destruct He as [Ecols Erows].
    exists (rows de ++ rows (concat dc dm)). split; [apply Forall_app; now split|].
    rewrite compact_frame. unfold concat at 1. cbn [columns rows].
    rewrite Ecols, Ncols, U1. reflexivity.
  - exists (rows (concat dc dm)). split; [exact Nrows|].
    rewrite compact_frame, Ncols. reflexivity.
Qed.

End WithPlatform.
End MergeFacts.

(** The merge of step 3 on a fresh table: a candidate row without
    external identifier and a repeated pair are both written, where the
    merge of step 7 writes the one row that the specification asks
    for. *)
Lemma C4_step3_divergence :
  let fs :=
    mk_files
      (Some (mk_frame [u "自社UID"; u "得意先コード"]
               [[(u "自社UID", VStr (u "AAAAAA")); (u "得意先コード", VNaN)];
                [(u "自社UID", VStr (u "BBBBBB")); (u "得意先コード", VInt 1)];
                [(u "自社UID", VStr (u "BBBBBB")); (u "得意先コード", VInt 1)]]))
      None None in
  match @Step3.main Reference.platform fs, @Step7.step7_merge_final Reference.platform fs with
  | Ok out3, Ok out7 =>
    map (cell (u "自社UID")) (rows out3) =
      [VStr (u "AAAAAA"); VStr (u "BBBBBB"); VStr (u "BBBBBB")] /\
    map (cell (u "卸側施設ID")) (rows out3) = [VNaN; VInt 1; VInt 1] /\
    map (cell (u "自社UID")) (rows out7) = [VStr (u "BBBBBB")] /\
    map (cell (u "卸側施設ID")) (rows out7) = [VStr (u "1")]
  | _, _ => False
  end.
Proof. vm_compute. repeat split. Qed.

(** The merge of step 7 on an existing table that holds the external
    identifier as a number: the new row with the same identifier as text
    is no duplicate for the drop, which compares the cells as they are,
    so after cleaning the pair is written twice; merging what was written
    once more leaves one row. *)
Lemma step7_raw_existing :
  let fs :=
    mk_files
      (Some (mk_frame [u "自社UID"; u "卸側施設ID"]
               [[(u "自社UID", VStr (u "AAAAAA")); (u "卸側施設ID", VStr (u "1"))]]))
      None
      (Some (mk_frame [u "自社UID"; u "卸側施設ID"]
               [[(u "自社UID", VStr (u "AAAAAA")); (u "卸側施設ID", VInt 1)]])) in
  match @Step7.step7_merge_final Reference.platform fs with
  | Ok out =>
    map MergeFacts.pair_of (rows out) =
      [(VStr (u "AAAAAA"), VStr (u "1")); (VStr (u "AAAAAA"), VStr (u "1"))] /\
    match @Step7.step7_merge_final Reference.platform (mk_files (Some out) None None) with
    | Ok again => map MergeFacts.pair_of (rows again) = [(VStr (u "AAAAAA"), VStr (u "1"))]
    | Abort _ => False
    end
  | Abort _ => False
  end.
Proof. vm_compute. repeat split. Qed.

Section Merge.
Context `{P : Platform}.
Import MergeFacts.

(** C4.  What the merge of step 7 writes is the union of the existing
    table, the automatic matches and the manual resolutions, in this
    order, with duplicates of the pair (uid, external id) dropped keeping
    the last, the external identifier cleaned and the rows without one
    removed; every row written has an external identifier.  When the
    existing table is absent or in cleaned form, no pair is written twice
    and the merge is idempotent: the written table, merged again as the
    only input or on top of itself, is written back unchanged (with no
    row in it, nothing is written).  In step 7 and in step 3, a run that
    finds no new row writes nothing. *)
Theorem C4_merge_step7 (fs : files) :
  (forall out,
     Step7.step7_merge_final fs = Ok out ->
     (exists df_candidate df_manual,
        Step7.or_empty Step7.standardize_columns (candidate_file fs) =
          Ok df_candidate /\
        Step7.or_empty Step7.manual_clean (unmatched_file fs) = Ok df_manual /\
        rows df_candidate ++ rows df_manual <> [] /\
        rows out =
          merged_rows (rows_of (final_mapping_file fs) ++
                       rows df_candidate ++ rows df_manual)) /\
     Forall has_external_id (rows out)) /\
  (forall out,
     Step7.step7_merge_final fs = Ok out ->
     clean_or_absent (final_mapping_file fs) ->
     clean_table out /\
     NoDup (map pair_of (rows out)) /\
     (rows out <> [] ->
      Step7.step7_merge_final (mk_files (Some out) None None) = Ok out /\
      Step7.step7_merge_final (mk_files (Some out) None (Some out)) = Ok out) /\
     (rows out = [] ->
      Step7.step7_merge_final (mk_files (Some out) None None) = Abort NoData)) /\
  (forall a b,
     no_rows a -> no_rows b ->
     let merged := final_mapping_file (after_run fs (Step7.step7_merge_final fs)) in
     after_run (mk_files a b merged)
               (Step7.step7_merge_final (mk_files a b merged)) =
       mk_files a b merged /\
     after_run (mk_files a b merged) (Step3.main (mk_files a b merged)) =
       mk_files a b merged).
Proof.
  split; [|split].
  - intros out H. pose proof (step7_written fs out H) as W. split; [exact W|].
    destruct W as (dc & dm & _ & _ & _ & ->). apply merged_rows_have_id.
  - intros out H He.
    destruct (step7_written_clean fs out H He) as (union & Hu & ->).
    destruct (merged_clean_facts union Hu) as (F1 & F2 & F3 & F4).
    cbn [rows]. split; [split; [reflexivity | exact F1]|].
    split; [exact F2|]. split.
    + intro Hne. apply remerge; try assumption.
      split; [reflexivity | exact F1].
    + intro E. rewrite E.
      apply (step7_nothing_new (Some (mk_frame Step7.FINAL_COLUMNS [])) None None);
        [reflexivity | exact I].
  - intros a b Ha Hb merged.
    rewrite (step7_nothing_new a b merged Ha Hb).
    rewrite (step3_nothing_new a b merged Ha Hb).
    split; reflexivity.
Qed.

End Merge.

(** A run of step 7 on a fresh table, with a repeated pair and a row
    without external identifier among the matches: one row is written,
    and merging the written table again writes it back. *)
Lemma C4_merge_witness :
  let fs :=
    mk_files
      (Some (mk_frame [u "自社UID"; u "得意先コード"]
               [[(u "自社UID", VStr (u "AAAAAA")); (u "得意先コード", VNaN)];
                [(u "自社UID", VStr (u "BBBBBB")); (u "得意先コード", VInt 1)];
                [(u "自社UID", VStr (u "BBBBBB")); (u "得意先コード", VInt 1)]]))
      None None in
  exists out,
    @Step7.step7_merge_final Reference.platform fs = Ok out /\
    @MergeFacts.clean_or_absent Reference.platform (final_mapping_file fs) /\
    rows out <> [] /\
    @Step7.step7_merge_final Reference.platform (mk_files (Some out) None None) = Ok out /\
    @Step7.step7_merge_final Reference.platform (mk_files (Some out) None (Some out)) = Ok out.
Proof.
  cbv zeta. eexists. split; [vm_compute; reflexivity|].
  split; [exact I|]. split; [discriminate|].
  match goal with
  | |- @Step7.step7_merge_final _ (mk_files (Some ?o) None None) = _ /\ _ =>
    apply (proj1 (proj2 (proj2
             (proj1 (proj2 (@C4_merge_step7 Reference.platform
                (mk_files
                   (Some (mk_frame [u "自社UID"; u "得意先コード"]
                      [[(u "自社UID", VStr (u "AAAAAA")); (u "得意先コード", VNaN)];
                       [(u "自社UID", VStr (u "BBBBBB")); (u "得意先コード", VInt 1)];
                       [(u "自社UID", VStr (u "BBBBBB")); (u "得意先コード", VInt 1)]]))
                   None None))) o
                ltac:(vm_compute; reflexivity) I))))
  end.
  discriminate.
Defined.
(* ===================================================================== *)
(** * More on the registry build *)
(* ===================================================================== *)

Module RegistryFacts.

Import Rebuild BuildFacts.

Lemma NoDup_map_on {A B} (f : A -> B) (l : list A) :
  (forall x y, In x l -> In y l -> f x = f y -> x = y) ->
  NoDup l -> NoDup (map f l).
Proof.
  intros Hinj Hnd. induction Hnd as [|a l Ha Hnd IH]; cbn [map].
  - constructor.
  - constructor.
    + intro Hin. apply in_map_iff in Hin as (b & Hb & Hbl).
      assert (b = a) by (apply Hinj; [now right | now left | exact Hb]).
      subst b. contradiction.
    + apply IH. intros x y Hx Hy. apply Hinj; now right.
Qed.

Lemma VStr_inj (a b : str) : VStr a = VStr b -> a = b.
Proof. intro H. now inversion H. Qed.

(** Identifiers of different sequence numbers up to 10000 differ. *)
Lemma uid_of_injective (i j : Z) :
  1 <= i <= 10000 -> 1 <= j <= 10000 -> uid_of i = uid_of j -> i = j.
Proof.
  intros Hi Hj E.
  destruct (IssuerFacts.range_facts i j Hi Hj) as [_ Hinj].
  apply Hinj. rewrite !generate_id_uid_of by lia. now rewrite E.
Qed.

Section WithPlatform.
Context `{P : Platform}.

Lemma uids_of_masters (ks : list row) :
  forall n,
    map (cell (u "自社UID")) (masters n ks) =
    map (fun k => VStr (uid_of (n + 1 + Z.of_nat k))) (seq 0 (length ks)) /\
    map (cell (u "自社UID")) (mappings n ks) =
    map (fun k => VStr (uid_of (n + 1 + Z.of_nat k))) (seq 0 (length ks)).
Proof.
  induction ks as [|r ks IH]; intro n; cbn [masters mappings map length seq].
  - split; reflexivity.
  - destruct (IH (n + 1)) as [H1 H2]. rewrite H1, H2.
    destruct (master_row_cells (uid_of (n + 1)) (p_date_of r) (active_of r) r)
      as (C1 & _).
    rewrite C1. unfold mapping_row at 1.
    rewrite MatchFacts.cell_cons_same.
    rewrite <- seq_shift, map_map. rewrite Z.add_0_r.
    split; f_equal; apply map_ext; intro k; do 2 f_equal; lia.
Qed.

Lemma masters_nil (n : Z) (ks : list row) : masters n ks = [] -> ks = [].
Proof. destruct ks; [reflexivity | discriminate]. Qed.

(** The loop from the initial state, in closed form. *)
Lemma build_loop_init (rs : list row) :
  exists st,
    build_loop build_init rs = Some st /\
    master_rows st = masters 0 (kept [] rs) /\
    mapping_rows st = mappings 0 (kept [] rs).
Proof.
  destruct (build_loop_from rs [] build_init) as (st & E & Hm & Hp & _).
  - intro r. reflexivity.
  - cbn [current_seq build_init]. lia.
  - exists st. split; [exact E|]. now split.
Qed.

End WithPlatform.
End RegistryFacts.

Section RegistryRun.
Context `{P : Platform}.
Import Rebuild BuildFacts RegistryFacts.

(** [generate_id] never raises: for a sequence number that is not
    negative it returns an identifier, and for a negative number the
    library's answer, the empty text. *)
Theorem generate_id_never_fails (n : Z) :
  (0 <= n -> exists c, generate_id n = Some c) /\
  (n < 0 -> generate_id n = Some []).
Proof.
  split.
  - apply generate_id_total.
  - intro Hn. unfold generate_id. rewrite init_hasher. unfold hasher.
    unfold Hashids.encode.
    assert ((n <? 0) = true) as -> by (apply Z.ltb_lt; exact Hn).
    reflexivity.
Qed.

(** [rebuild_master] on the sheet it selected.  It stops for a missing
    column when one of the eleven required columns is absent and for
    lack of data when no row is kept, and never because a call raised.
    Otherwise it saves the registry rows and the mapping rows of the
    kept rows, which carry the same identifier at every position. *)
Theorem rebuild_master_outcome (df_input : frame) :
  match rebuild_master df_input with
  | Ok (master, mapping) =>
    forallb (fun c => str_in c (columns df_input)) COL_MAP = true /\
    kept [] (rows df_input) <> [] /\
    rows master = masters 0 (kept [] (rows df_input)) /\
    rows mapping = mappings 0 (kept [] (rows df_input)) /\
    nrows master = length (kept [] (rows df_input)) /\
    map (cell (u "自社UID")) (rows master) =
      map (cell (u "自社UID")) (rows mapping)
  | Abort e =>
    (e = MissingColumn /\
     forallb (fun c => str_in c (columns df_input)) COL_MAP = false) \/
    (e = NoData /\
     forallb (fun c => str_in c (columns df_input)) COL_MAP = true /\
     kept [] (rows df_input) = [])
  end.
Proof.
  unfold rebuild_master.
  destruct (forallb (fun c => str_in c (columns df_input)) COL_MAP) eqn:Ec;
    cbn [negb]; [|left; now split].
  destruct (build_loop_init (rows df_input)) as (st & E & Hm & Hp).
  rewrite E.
  destruct (master_rows st) as [|m0 ms] eqn:Em.
  - right. split; [reflexivity|]. split; [reflexivity|].
    symmetry in Hm. now apply masters_nil in Hm.
  - cbn [rows]. rewrite Hp.
    destruct (uids_of_masters (kept [] (rows df_input)) 0) as [U1 U2].
    destruct (length_masters (kept [] (rows df_input)) 0) as [L1 _].
    split; [reflexivity|]. split.
    + intro Hk. rewrite Hk in Hm. discriminate Hm.
    + split; [exact Hm|]. split; [reflexivity|]. split.
      * unfold nrows. cbn [rows]. rewrite Hm. exact L1.
      * rewrite Hm, U1, U2. reflexivity.
Qed.

(** In a batch that keeps at most 10000 rows no two registry rows carry
    the same identifier. *)
Theorem registry_uids_distinct (rs : list row) (st : build_state) :
  Z.of_nat (length (kept [] rs)) <= 10000 ->
  build_loop build_init rs = Some st ->
  NoDup (map (cell (u "自社UID")) (master_rows st)).
Proof.
  intros Hlen Hst.
  destruct (build_loop_init rs) as (st' & E & Hm & _).
  rewrite Hst in E. inversion E; subst st'; clear E.
  rewrite Hm. destruct (uids_of_masters (kept [] rs) 0) as [U _].
  rewrite U. apply NoDup_map_on; [|apply seq_NoDup].
  intros x y Hx Hy Exy. apply in_seq in Hx, Hy.
  apply VStr_inj in Exy.
  apply uid_of_injective in Exy; lia.
Qed.

End RegistryRun.

Lemma generate_id_never_fails_witness :
  (exists c, Rebuild.generate_id 7 = Some c) /\ Rebuild.generate_id (-7) = Some [].
Proof.
  split.
  - apply (proj1 (generate_id_never_fails 7)). lia.
  - apply (proj2 (generate_id_never_fails (-7))). lia.
Defined.

Lemma registry_uids_distinct_witness :
  let rs :=
    [[(Rebuild.COL_ADDR, VStr (u "東京都港区1-2-3")); (Rebuild.COL_TEL, VStr (u "03-1234-5678"))];
     [(Rebuild.COL_ADDR, VStr (u "大阪府")); (Rebuild.COL_TEL, VStr (u "06-0000-0000"))]] in
  exists st,
    @Rebuild.build_loop Reference.platform Rebuild.build_init rs = Some st /\
    NoDup (map (cell (u "自社UID")) (Rebuild.master_rows st)).
Proof.
  cbv zeta.
  destruct (@RegistryFacts.build_loop_init Reference.platform
              [[(Rebuild.COL_ADDR, VStr (u "東京都港区1-2-3"));
                (Rebuild.COL_TEL, VStr (u "03-1234-5678"))];
               [(Rebuild.COL_ADDR, VStr (u "大阪府"));
                (Rebuild.COL_TEL, VStr (u "06-0000-0000"))]])
    as (st & E & _).
  exists st. split; [exact E|].
  refine (@registry_uids_distinct Reference.platform _ st _ E).
  vm_compute. discriminate.
Defined.
(* ===================================================================== *)
(** * More on cleaning, phone keys and the reflection *)
(* ===================================================================== *)

Module CleaningFacts.

Import MergeFacts.

(** [l] is in ascending order. *)
Definition head_below (x : str) (l : list str) : Prop :=
  match l with
  | [] => True
  | y :: _ => str_leb x y = true
  end.

Fixpoint ascending (l : list str) : Prop :=
  match l with
  | [] => True
  | x :: l' => head_below x l' /\ ascending l'
  end.

Lemma str_leb_total (a b : str) : str_leb a b = false -> str_leb b a = true.
Proof.
  revert b. induction a as [|x a IH]; intros [|y b]; cbn [str_leb];
    try discriminate; try reflexivity.
  intro H. apply orb_false_iff in H as [H1 H2].
  apply Z.ltb_ge in H1.
  destruct (Z.eq_dec x y) as [->|Hne].
  - rewrite Z.eqb_refl in *. cbn [andb] in *. rewrite (IH _ H2).
    apply orb_true_r.
  - assert ((y <? x) = true) as -> by (apply Z.ltb_lt; lia). reflexivity.
Qed.

Lemma head_below_insert (z x : str) (l : list str) :
  head_below z l -> str_leb z x = true -> head_below z (insert_sorted x l).
Proof.
  destruct l as [|y l]; cbn [insert_sorted head_below]; [auto|].
  intros Hy Hx. destruct (str_leb x y); assumption.
Qed.

Lemma insert_ascending (x : str) (l : list str) :
  ascending l -> ascending (insert_sorted x l).
Proof.
  induction l as [|y l IH]; cbn [insert_sorted ascending]; [auto|].
  intros [Hh Ha]. destruct (str_leb x y) eqn:E.
  - cbn [ascending head_below]. auto.
  - cbn [ascending]. split; [|now apply IH].
    apply head_below_insert; [exact Hh | now apply str_leb_total].
Qed.

Lemma sorted_ascending (l : list str) : ascending (sorted l).
Proof.
  unfold sorted. induction l as [|x l IH]; cbn [fold_right]; [exact I|].
  now apply insert_ascending.
Qed.


Lemma drop_set (col : str) (v : value) (r : row) :
  drop_col col (set col v r) = drop_col col r.
Proof.
  unfold drop_col. induction r as [|[k w] r IH]; cbn [set filter fst].
  - now rewrite str_eqb_refl.
  - destruct (str_eqb k col) eqn:E; cbn [filter fst]; rewrite E; cbn [negb].
    + reflexivity.
    + now rewrite IH.
Qed.

Lemma drop_drop (col : str) (r : row) :
  drop_col col (drop_col col r) = drop_col col r.
Proof. unfold drop_col. apply filter_fixed. Qed.

Lemma find_after_filter {A} (p q : A -> bool) (l t : list A) (c : A) :
  find p l = Some c -> q c = true -> find p (filter q l ++ t) = Some c.
Proof.
  induction l as [|x l IH]; cbn [find filter]; [discriminate|].
  destruct (p x) eqn:Px.
  - intros H Hq. inversion H; subst x. rewrite Hq. cbn [app find].
    now rewrite Px.
  - intros H Hq. destruct (q x); cbn [app find]; [rewrite Px|]; now apply IH.
Qed.

Section WithPlatform.
Context `{P : Platform}.



(** The run of the reflection that writes: the whole table written. *)
Lemma reflect_output (df_master df_mapping : frame) (out : frame) :
  Step8.step8_reflect_id_to_master df_master df_mapping = Ok out ->
  exists mc pc,
    Step8.find_uid_column (columns df_master) = Some mc /\
    Step8.find_uid_column (columns df_mapping) = Some pc /\
    str_in Step8.COL_EXTERNAL (columns df_mapping) = true /\
    out =
      mk_frame
        (filter (fun c => negb (str_eqb c Step8.NEW_COL_NAME)) (columns df_master)
           ++ [Step8.NEW_COL_NAME])
        (map (ReflectFacts.reflected
                (Step8.map_clean pc (Step8.filter_wholesaler df_mapping)) mc)
             (rows df_master)).
Proof.
  unfold Step8.step8_reflect_id_to_master. cbv zeta.
  destruct (Step8.find_uid_column (columns df_master)) as [mc|]; [|discriminate].
  destruct (Step8.find_uid_column (columns df_mapping)) as [pc|]; [|discriminate].
  destruct (str_in Step8.COL_EXTERNAL (columns df_mapping)); cbn [negb];
    [|discriminate].
  rewrite ReflectFacts.merged_rows, !length_map. unfold nrows.
  rewrite Nat.eqb_refl. cbn [negb]. intro H. inversion H.
  exists mc, pc. split; [reflexivity|]. split; [reflexivity|].
  split; [reflexivity|]. rewrite map_map. reflexivity.
Qed.

Lemma reflect_input (df_master df_mapping : frame) (mc pc : str) :
  Step8.find_uid_column (columns df_master) = Some mc ->
  Step8.find_uid_column (columns df_mapping) = Some pc ->
  str_in Step8.COL_EXTERNAL (columns df_mapping) = true ->
  Step8.step8_reflect_id_to_master df_master df_mapping =
  Ok (mk_frame
        (filter (fun c => negb (str_eqb c Step8.NEW_COL_NAME)) (columns df_master)
           ++ [Step8.NEW_COL_NAME])
        (map (ReflectFacts.reflected
                (Step8.map_clean pc (Step8.filter_wholesaler df_mapping)) mc)
             (rows df_master))).
Proof.
  intros Hm Hp He. unfold Step8.step8_reflect_id_to_master. cbv zeta.
  rewrite Hm, Hp, He. cbn [negb].
  rewrite ReflectFacts.merged_rows, !length_map. unfold nrows.
  rewrite Nat.eqb_refl. cbn [negb]. rewrite map_map. reflexivity.
Qed.

Lemma reflected_again (pairs : list (str * str)) (mc : str) (l : row) :
  ReflectFacts.reflected pairs mc (ReflectFacts.reflected pairs mc l) =
  ReflectFacts.reflected pairs mc l.
Proof.
  unfold ReflectFacts.reflected. cbv zeta. now rewrite drop_set, drop_drop.
Qed.

End WithPlatform.
End CleaningFacts.

Section Cleaning.
Context `{P : Platform}.
Import MergeFacts CleaningFacts.

(** [clean_value] is idempotent, in the merge tool and in the reflection
    tool: a cleaned text, cleaned again, is unchanged. *)
Theorem clean_value_idempotent (v : value) :
  Step7.clean_value (VStr (Step7.clean_value v)) = Step7.clean_value v /\
  Step8.clean_value (VStr (Step8.clean_value v)) = Step8.clean_value v.
Proof.
  split.
  - apply clean_value_clean.
  - exact (clean_value_clean v).
Qed.

(** The phone key of the match tools holds decimal digits only, is the
    same in step 2 and step 6, is empty for a missing cell, and is built
    character by character: the key of a text in two parts is the key of
    the first part followed by the key of the second, whatever stands
    between the digits. *)
Theorem phone_key_digits (v : value) (a b : str) :
  Forall (fun c => isdecimal c = true) (Step6.normalize_phone v) /\
  Step2.normalize_phone v = Step6.normalize_phone v /\
  Step6.normalize_phone VNaN = [] /\
  Step6.normalize_phone (VStr (a ++ b)) =
    Step6.normalize_phone (VStr a) ++ Step6.normalize_phone (VStr b).
Proof.
  split; [|split; [|split]].
  - unfold Step6.normalize_phone. destruct (isna v); [constructor|].
    unfold digits_only. apply Forall_forall. intros c Hc.
    now apply filter_In in Hc.
  - reflexivity.
  - reflexivity.
  - unfold Step6.normalize_phone, digits_only, Mojimoji.zen_to_han.
    cbn [isna py_str]. now rewrite flat_map_app, filter_app.
Qed.


(** The external identifiers the reflection lists for a uid are in
    ascending order of their characters' code points and none occurs
    twice. *)
Theorem listed_ids_ascending (pairs : list (str * str)) (uid : str) :
  ascending (Step8.ids_of pairs uid) /\ NoDup (Step8.ids_of pairs uid).
Proof.
  unfold Step8.ids_of, sorted_set. split.
  - apply sorted_ascending.
  - apply ReflectFacts.NoDup_sorted, ReflectFacts.NoDup_distinct.
Qed.

(** Reflecting twice changes nothing: when the identifier column of the
    registry is not the column the tool writes, a second run on the
    registry the first run wrote, with the same mapping table, writes
    the same registry. *)
Theorem reflect_twice (df_master df_mapping out : frame) :
  Step8.find_uid_column (columns df_master) <> Some Step8.NEW_COL_NAME ->
  Step8.step8_reflect_id_to_master df_master df_mapping = Ok out ->
  Step8.step8_reflect_id_to_master out df_mapping = Ok out.
Proof.
  intros Hne H.
  destruct (reflect_output _ _ _ H) as (mc & pc & Hm & Hp & He & ->).
  assert (Hq : negb (str_eqb mc Step8.NEW_COL_NAME) = true).
  { apply negb_true_iff, str_eqb_neq. intros ->. now apply Hne. }
  rewrite (reflect_input _ df_mapping mc pc); cbn [columns rows].
  - rewrite filter_app, filter_fixed. cbn [filter].
    rewrite str_eqb_refl. cbn [negb]. rewrite app_nil_r.
    rewrite map_map. f_equal. f_equal. apply map_ext. intro l.
    apply reflected_again.
  - unfold Step8.find_uid_column in *.
    now apply (find_after_filter _ (fun c => negb (str_eqb c Step8.NEW_COL_NAME))).
  - exact Hp.
  - exact He.
Qed.

End Cleaning.

Lemma reflect_twice_witness :
  let df_master :=
    mk_frame [u "自社UID"; u "動物病院施設名"]
      [[(u "自社UID", VStr (u "AAAAAA")); (u "動物病院施設名", VStr (u "A"))];
       [(u "自社UID", VStr (u "BBBBBB")); (u "動物病院施設名", VStr (u "B"))]] in
  let df_mapping :=
    mk_frame [u "自社UID"; u "卸業者名"; u "卸側施設ID"]
      [[(u "自社UID", VStr (u "AAAAAA")); (u "卸業者名", VStr (u "アスコ"));
        (u "卸側施設ID", VInt 200)];
       [(u "自社UID", VStr (u " AAAAAA ")); (u "卸業者名", VStr (u "アスコ"));
        (u "卸側施設ID", VFloat (100 # 1))]] in
  exists out,
    @Step8.step8_reflect_id_to_master Reference.platform df_master df_mapping = Ok out /\
    @Step8.step8_reflect_id_to_master Reference.platform out df_mapping = Ok out.
Proof.
  cbv zeta. eexists. split; [vm_compute; reflexivity|].
  apply (@reflect_twice Reference.platform
           (mk_frame [u "自社UID"; u "動物病院施設名"]
              [[(u "自社UID", VStr (u "AAAAAA")); (u "動物病院施設名", VStr (u "A"))];
               [(u "自社UID", VStr (u "BBBBBB")); (u "動物病院施設名", VStr (u "B"))]])).
  - vm_compute. discriminate.
  - vm_compute. reflexivity.
Defined.
(* ===================================================================== *)
(** * The run of the match tool *)
(* ===================================================================== *)

Section MatchRun.
Context `{P : Platform}.


End MatchRun.
